(** * Search Everywhere: indexing, caching, deduplication and ranking

    A shallow embedding of the coordinator ([core/search-service.ts]), the
    three caching providers (file, workspace-symbol, document-symbol), the
    cache payload types and the two fuzzy-searcher adapters, followed by the
    properties of the specification that are stated about them.

    Conventions of the embedding.
    - A TypeScript [number] is a value of [number]: NaN, the two infinities,
      or a finite value carried as an exact rational.  Comparisons, signs,
      truthiness and the special values behave as in ECMAScript; the rounding
      of binary64 arithmetic is not modelled (finite arithmetic is exact).
    - A string enum ([SearchItemType]) is the string it is at run time.
    - A string that is only compared, joined or cut at ASCII characters is a
      [string]; a query, which [trim] looks at character by character, is
      the list of its UTF-16 code units.
    - An object with optional properties is a record with [option] fields;
      ['k' in o] is [is_Some].
    - A [Map] whose iteration order is observed is an insertion-ordered
      association list; a [Map] or [Record] that is only looked up is a
      [gmap].
    - The editor API is an interface: a type class for [vscode.Uri] and
      [vscode.Range], function arguments for the symbol and file queries and
      for the fuzzy-matching libraries. *)

From Stdlib Require Import ZArith QArith Qreduction Lqa String Ascii List Lia DecimalString.
From stdpp Require Import gmap strings list.

Local Open Scope string_scope.
Local Open Scope list_scope.

(** ** ECMAScript numbers *)

Module JsNumber.

Inductive number : Type :=
| NaN
| NegInfinity
| PosInfinity
| Finite (q : Q).

Definition of_Z (z : Z) : number := Finite (inject_Z z).
Definition of_Q (q : Q) : number := Finite (Qred q).

Definition Qsign (q : Q) : comparison := Qcompare q 0.

(** [typeof x === 'number'] holds of every [number], NaN included; what is
    tested on optional fields is therefore presence. *)

(** ToBoolean: [0] and [NaN] are falsy. *)
Definition truthy (x : number) : bool :=
  match x with
  | NaN => false
  | NegInfinity | PosInfinity => true
  | Finite q => negb (Qeq_bool q 0)
  end.

(** [x === y] *)
Definition strict_eq (x y : number) : bool :=
  match x, y with
  | NegInfinity, NegInfinity => true
  | PosInfinity, PosInfinity => true
  | Finite a, Finite b => Qeq_bool a b
  | _, _ => false
  end.

(** [x > y] *)
Definition gt (x y : number) : bool :=
  match x, y with
  | NaN, _ | _, NaN => false
  | NegInfinity, _ => false
  | _, PosInfinity => false
  | PosInfinity, _ => true
  | _, NegInfinity => true
  | Finite a, Finite b => match Qcompare a b with Gt => true | _ => false end
  end.

Definition lt (x y : number) : bool := gt y x.

Definition add (x y : number) : number :=
  match x, y with
  | NaN, _ | _, NaN => NaN
  | PosInfinity, NegInfinity | NegInfinity, PosInfinity => NaN
  | PosInfinity, _ | _, PosInfinity => PosInfinity
  | NegInfinity, _ | _, NegInfinity => NegInfinity
  | Finite a, Finite b => Finite (Qred (Qplus a b))
  end.

Definition sub (x y : number) : number :=
  match x, y with
  | NaN, _ | _, NaN => NaN
  | PosInfinity, PosInfinity | NegInfinity, NegInfinity => NaN
  | PosInfinity, _ | _, NegInfinity => PosInfinity
  | NegInfinity, _ | _, PosInfinity => NegInfinity
  | Finite a, Finite b => Finite (Qred (Qminus a b))
  end.

Definition signed_infinity (s : comparison) : number :=
  match s with
  | Eq => NaN
  | Lt => NegInfinity
  | Gt => PosInfinity
  end.

Definition sign_of (x : number) : comparison :=
  match x with
  | NaN => Eq
  | NegInfinity => Lt
  | PosInfinity => Gt
  | Finite q => Qsign q
  end.

Definition sign_mul (s t : comparison) : comparison :=
  match s, t with
  | Eq, _ | _, Eq => Eq
  | Lt, Lt | Gt, Gt => Gt
  | _, _ => Lt
  end.

Definition mul (x y : number) : number :=
  match x, y with
  | NaN, _ | _, NaN => NaN
  | Finite a, Finite b => Finite (Qred (Qmult a b))
  | _, _ => signed_infinity (sign_mul (sign_of x) (sign_of y))
  end.

(** Division; the sign of a zero is not tracked, so [x / 0] for [x <> 0]
    takes the sign of [x]. *)
Definition div (x y : number) : number :=
  match x, y with
  | NaN, _ | _, NaN => NaN
  | Finite a, Finite b =>
      if Qeq_bool b 0 then signed_infinity (Qsign a)
      else Finite (Qred (Qdiv a b))
  | Finite _, _ => Finite 0
  | _, Finite b =>
      signed_infinity (sign_mul (sign_of x)
                                (match Qsign b with Lt => Lt | _ => Gt end))
  | _, _ => NaN
  end.

(** [Math.abs] *)
Definition abs (x : number) : number :=
  match x with
  | NaN => NaN
  | NegInfinity | PosInfinity => PosInfinity
  | Finite q => match Qsign q with Lt => Finite (Qred (Qopp q)) | _ => Finite q end
  end.

(** [Math.max] of two arguments *)
Definition max (x y : number) : number :=
  match x, y with
  | NaN, _ | _, NaN => NaN
  | _, _ => if gt y x then y else x
  end.

(** [x || d] *)
Definition or_default (x : option number) (d : number) : number :=
  match x with
  | Some v => if truthy v then v else d
  | None => d
  end.

(** [x ?? d] *)
Definition nullish (x : option number) (d : number) : number :=
  match x with
  | Some v => v
  | None => d
  end.

Definition is_negative (x : number) : bool := lt x (Finite 0).
Definition is_positive (x : number) : bool := gt x (Finite 0).

End JsNumber.

Import JsNumber.

(** ** ECMAScript strings (the operations the sources use) *)

Module JsString.

(** Where the characters of a string are looked at one by one, as in
    [trim], the string is given by its UTF-16 code units, as ECMAScript has
    it; a code unit is a number below 2^16. *)
Definition code_units : Type := list N.

(** The code units of a string of ASCII characters. *)
Definition units (s : string) : code_units :=
  List.map N_of_ascii (list_ascii_of_string s).

(** What [String.prototype.trim] strips: WhiteSpace (TAB, VT, FF, SP, NBSP,
    ZWNBSP and the space separators U+1680, U+2000 to U+200A, U+202F,
    U+205F, U+3000) and LineTerminator (LF, CR, LS, PS).  Each is one code
    unit. *)
Definition is_whitespace (c : N) : bool :=
  existsb (N.eqb c)
          [9; 11; 12; 32; 160; 65279; 5760; 8239; 8287; 12288; 10; 13; 8232; 8233]%N
  || (8192 <=? c)%N && (c <=? 8202)%N.

Fixpoint trimStart (s : code_units) : code_units :=
  match s with
  | [] => []
  | c :: s' => if is_whitespace c then trimStart s' else s
  end.

(** Drops the white space that ends [s]. *)
Fixpoint trimEnd (s : code_units) : code_units :=
  match s with
  | [] => []
  | c :: s' =>
      match trimEnd s' with
      | [] => if is_whitespace c then [] else [c]
      | t => c :: t
      end
  end.

Definition trim (s : code_units) : code_units := trimEnd (trimStart s).

(** ToBoolean of a string given by its code units. *)
Definition truthy_units (s : code_units) : bool :=
  match s with
  | [] => false
  | _ => true
  end.

(** ToBoolean of a string: only [''] is falsy. *)
Definition truthy (s : string) : bool :=
  match s with
  | EmptyString => false
  | _ => true
  end.

(** [s.split(sep)] for a separator that is one character, or, with a
    predicate, a character class such as [/[\/\\]/]. *)
Fixpoint split_by (p : ascii -> bool) (s : string) : list string :=
  match s with
  | EmptyString => [EmptyString]
  | String c s' =>
      if p c then EmptyString :: split_by p s'
      else match split_by p s' with
           | [] => [String c EmptyString]
           | w :: ws => String c w :: ws
           end
  end.

Definition split (sep : ascii) (s : string) : list string :=
  split_by (Ascii.eqb sep) s.

(** [a.join(sep)] *)
Fixpoint join (sep : string) (l : list string) : string :=
  match l with
  | [] => EmptyString
  | [w] => w
  | w :: ws => w ++ sep ++ join sep ws
  end.

(** [a.slice(1)] *)
Definition slice1 {A : Type} (l : list A) : list A := List.tl l.

(** [a.pop()] read as an expression: the last element, if any. *)
Definition pop {A : Type} (l : list A) : option A := List.last (List.map Some l) None.

Definition startsWith (s p : string) : bool := String.prefix p s.

(** [s.substring(n)] *)
Fixpoint substring_from (n : nat) (s : string) : string :=
  match n, s with
  | O, _ => s
  | S _, EmptyString => EmptyString
  | S n', String _ s' => substring_from n' s'
  end.

Definition lower_char (c : ascii) : ascii :=
  let n := nat_of_ascii c in
  if andb (Nat.leb 65 n) (Nat.leb n 90) then ascii_of_nat (n + 32) else c.

Fixpoint toLowerCase (s : string) : string :=
  match s with
  | EmptyString => EmptyString
  | String c s' => String (lower_char c) (toLowerCase s')
  end.

(** [label.replace(/\(\)$/, '')]: a trailing ["()"] is removed. *)
Fixpoint replace_trailing_parens (s : string) : string :=
  match s with
  | EmptyString => EmptyString
  | String c s' =>
      if String.eqb s "()" then EmptyString
      else String c (replace_trailing_parens s')
  end.

(** Template-literal rendering of a non-negative integer. *)
Definition of_nat (n : nat) : string :=
  match n with
  | O => "0"
  | _ => NilEmpty.string_of_uint (Nat.to_uint n)
  end.

End JsString.

(** ** The editor API the sources are written against *)

Record Position : Type := { line : nat; character : nat }.

(** [vscode.Uri] and [vscode.Range] are the editor's; the sources use the
    operations below. *)
Class Vscode : Type := {
  Uri : Type;
  Uri_toString : Uri -> string;
  Uri_parse : string -> Uri;
  Uri_fsPath : Uri -> string;
  Range : Type;
  Range_new : nat -> nat -> nat -> nat -> Range;
  Range_start : Range -> Position;
  Range_end : Range -> Position;
}.

(** What the editor promises of them: parsing the printed form of a URI gives
    that URI back, and a range is rebuilt from its four coordinates. *)
Class VscodeLaws (V : Vscode) : Prop := {
  Uri_parse_toString : forall u : Uri, Uri_parse (Uri_toString u) = u;
  Range_new_eta : forall r : Range,
      Range_new (line (Range_start r)) (character (Range_start r))
                (line (Range_end r)) (character (Range_end r)) = r;
}.

(** [vscode.SymbolKind], an enumeration of numbers. *)
Module SymbolKind.
Definition File : Z := 0.
Definition Module_ : Z := 1.
Definition Namespace : Z := 2.
Definition Package : Z := 3.
Definition Class : Z := 4.
Definition Method : Z := 5.
Definition Property : Z := 6.
Definition Field : Z := 7.
Definition Constructor : Z := 8.
Definition Enum : Z := 9.
Definition Interface : Z := 10.
Definition Function : Z := 11.
Definition Variable_ : Z := 12.
Definition Constant : Z := 13.
Definition String_ : Z := 14.
Definition Number : Z := 15.
Definition Boolean : Z := 16.
Definition Array : Z := 17.
Definition Object : Z := 18.
Definition Key : Z := 19.
Definition Null : Z := 20.
Definition EnumMember : Z := 21.
Definition Struct : Z := 22.
Definition Event : Z := 23.
Definition Operator : Z := 24.
Definition TypeParameter : Z := 25.
End SymbolKind.

(** ** [core/types.ts] *)

(** [enum SearchItemType]: a string enum, hence strings at run time (a value
    read back from a cache and cast to it may be any string). *)
Definition SearchItemType : Type := string.

Module SearchItemType.
Definition File : SearchItemType := "file".
Definition Command : SearchItemType := "command".
Definition Symbol : SearchItemType := "symbol".
Definition Class : SearchItemType := "class".
Definition TextMatch : SearchItemType := "text".
End SearchItemType.

(** [enum SymbolKindGroup]: a numeric enum. *)
Module SymbolKindGroup.
Definition Class : Z := 0.
Definition Function : Z := 1.
Definition Variable_ : Z := 2.
Definition Other : Z := 3.
End SymbolKindGroup.

Definition mapSymbolKindToGroup (kind : Z) : Z :=
  if (kind =? SymbolKind.Class)%Z || (kind =? SymbolKind.Interface)%Z
     || (kind =? SymbolKind.Struct)%Z || (kind =? SymbolKind.Enum)%Z
  then SymbolKindGroup.Class
  else if (kind =? SymbolKind.Function)%Z || (kind =? SymbolKind.Method)%Z
          || (kind =? SymbolKind.Constructor)%Z
  then SymbolKindGroup.Function
  else if (kind =? SymbolKind.Variable_)%Z || (kind =? SymbolKind.Property)%Z
          || (kind =? SymbolKind.Field)%Z || (kind =? SymbolKind.Constant)%Z
  then SymbolKindGroup.Variable_
  else SymbolKindGroup.Other.

Section Items.
Context {V : Vscode}.

Inductive IconPath : Type :=
| ThemeIcon (iconId : string)
| IconUri (u : Uri).

(** What an item's [action] closure does when it is run. *)
Inductive Action : Type :=
| NoAction
| ShowTextDocument (u : Uri)
| RevealRange (u : Uri) (r : Range)
| ExecuteCommand (c : string).

(** [interface SearchItem]: the properties every item has. *)
Record SearchItemBase : Type := {
  id : string;
  label : string;
  description : string;
  detail : string;
  type : SearchItemType;
  iconPath : option IconPath;
  action : Action;
  score : option number;
  activityScore : option number;
  priority : option number;
}.

(** [interface FileSearchItem extends SearchItem] *)
Record FileSearchItem : Type := {
  file_base :> SearchItemBase;
  file_uri : Uri;
  file_relativePath : option string;
}.

(** [interface SymbolSearchItem extends SearchItem] *)
Record SymbolSearchItem : Type := {
  symbol_base :> SearchItemBase;
  symbol_uri : Uri;
  symbol_range : Range;
  symbol_symbolKind : Z;
  symbol_symbolGroup : option Z;
}.

(** An item as the coordinator and the adapters receive it: an object with
    the base properties and whichever variant properties it carries. *)
Record SearchItem : Type := {
  base :> SearchItemBase;
  uri : option Uri;
  relativePath : option string;
  command : option string;
  range : option Range;
  symbolKind : option Z;
  symbolGroup : option Z;
  lineText : option string;
  matchText : option string;
}.

Definition of_file (f : FileSearchItem) : SearchItem :=
  {| base := file_base f;
     uri := Some (file_uri f);
     relativePath := file_relativePath f;
     command := None; range := None; symbolKind := None; symbolGroup := None;
     lineText := None; matchText := None |}.

Definition of_symbol (s : SymbolSearchItem) : SearchItem :=
  {| base := symbol_base s;
     uri := Some (symbol_uri s);
     relativePath := None; command := None;
     range := Some (symbol_range s);
     symbolKind := Some (symbol_symbolKind s);
     symbolGroup := symbol_symbolGroup s;
     lineText := None; matchText := None |}.

Definition set_score (b : SearchItemBase) (s : option number) : SearchItemBase :=
  {| id := id b; label := label b; description := description b;
     detail := detail b; type := type b; iconPath := iconPath b;
     action := action b; score := s; activityScore := activityScore b;
     priority := priority b |}.

Definition set_activityScore (b : SearchItemBase) (a : option number) : SearchItemBase :=
  {| id := id b; label := label b; description := description b;
     detail := detail b; type := type b; iconPath := iconPath b;
     action := action b; score := score b; activityScore := a;
     priority := priority b |}.

Definition set_priority (b : SearchItemBase) (p : option number) : SearchItemBase :=
  {| id := id b; label := label b; description := description b;
     detail := detail b; type := type b; iconPath := iconPath b;
     action := action b; score := score b; activityScore := activityScore b;
     priority := p |}.

Definition with_base (i : SearchItem) (b : SearchItemBase) : SearchItem :=
  {| base := b; uri := uri i; relativePath := relativePath i;
     command := command i; range := range i; symbolKind := symbolKind i;
     symbolGroup := symbolGroup i; lineText := lineText i;
     matchText := matchText i |}.

(** [item.score = s] *)
Definition assign_score (i : SearchItem) (s : number) : SearchItem :=
  with_base i (set_score i (Some s)).

(** [item.activityScore = ts] *)
Definition assign_activityScore (i : SearchItem) (ts : number) : SearchItem :=
  with_base i (set_activityScore i (Some ts)).

End Items.

(** ** [cache/types.ts] *)

Record ManifestEntry : Type := {
  manifest_uri : string;
  manifest_mtime : number;
}.

Record SerializedFileItem : Type := {
  sf_id : string;
  sf_label : string;
  sf_description : string;
  sf_detail : string;
  sf_type : string;
  sf_uri : string;
}.

Record SerializedRange : Type := {
  sr_start : Position;
  sr_end : Position;
}.

Record SerializedSymbolItem : Type := {
  ss_id : string;
  ss_label : string;
  ss_description : string;
  ss_detail : string;
  ss_type : string;
  ss_uri : string;
  ss_range : SerializedRange;
  ss_symbolKind : Z;
  ss_symbolGroup : option Z;
  ss_priority : option number;
}.

Record FileIndexCache : Type := {
  fic_version : number;
  fic_workspaceFingerprint : string;
  fic_manifest : list ManifestEntry;
  fic_items : list SerializedFileItem;
}.

Record DocumentSymbolsFileEntry : Type := {
  dsf_mtime : number;
  dsf_symbols : list SerializedSymbolItem;
}.

Record DocumentSymbolsCache : Type := {
  dsc_version : number;
  dsc_workspaceFingerprint : string;
  dsc_files : option (gmap string DocumentSymbolsFileEntry);
}.

Record WorkspaceSymbolsCache : Type := {
  wsc_version : number;
  wsc_workspaceFingerprint : string;
  wsc_manifest : option (list ManifestEntry);
  wsc_items : option (list SerializedSymbolItem);
}.

(** ** [cache/storage.ts] *)

Definition CACHE_VERSION : number := of_Z 1.

(** ** An insertion-ordered [Map<string, V>] *)

Module JsMap.
Section JsMap.
Context {A : Type}.

Definition t : Type := list (string * A).

Definition empty : t := [].

Fixpoint get (m : t) (k : string) : option A :=
  match m with
  | [] => None
  | (k', v) :: m' => if String.eqb k' k then Some v else get m' k
  end.

Definition has (m : t) (k : string) : bool :=
  match get m k with Some _ => true | None => false end.

(** [m.set(k, v)]: an existing key keeps its place, a new one goes last. *)
Fixpoint set (m : t) (k : string) (v : A) : t :=
  match m with
  | [] => [(k, v)]
  | (k', v') :: m' =>
      if String.eqb k' k then (k', v) :: m' else (k', v') :: set m' k v
  end.

Definition keys (m : t) : list string := List.map fst m.

(** [Array.from(m.values())] *)
Definition values (m : t) : list A := List.map snd m.
End JsMap.
Arguments t : clear implicits.
End JsMap.

(** ** [core/search-service.ts] *)

Module SearchService.
Section WithVscode.
Context {V : Vscode}.

(** *** Deduplication *)

Definition getDeduplicationKey (item : SearchItem) : string :=
  let normalizedLabel := JsString.replace_trailing_parens (label item) in
  match uri item, range item with
  | Some u, Some r =>
      let prefix :=
        if String.eqb (type item) SearchItemType.Class then "class" else "symbol" in
      prefix ++ ":" ++ normalizedLabel ++ ":" ++ Uri_toString u ++ ":"
        ++ JsString.of_nat (line (Range_start r)) ++ ":"
        ++ JsString.of_nat (character (Range_start r))
  | _, _ =>
      match String.eqb (type item) SearchItemType.File, uri item with
      | true, Some u => "file:" ++ Uri_toString u
      | _, _ =>
          match String.eqb (type item) SearchItemType.Command, command item with
          | true, Some c => "command:" ++ c
          | _, _ =>
              type item ++ ":" ++ normalizedLabel ++ ":"
                ++ JsString.join ":" (JsString.slice1 (JsString.split ":" (id item)))
          end
      end
  end.

(** The loop body shared by [mergeBatch], the final merge of [refreshIndex]
    and [updateIndexFromProviders]. *)
Definition mergeItem (deduplicationMap : JsMap.t SearchItem) (item : SearchItem)
  : JsMap.t SearchItem :=
  let dedupeKey := getDeduplicationKey item in
  if negb (JsMap.has deduplicationMap dedupeKey)
  then JsMap.set deduplicationMap dedupeKey item
  else deduplicationMap.

Definition mergeBatch (deduplicationMap : JsMap.t SearchItem) (batch : list SearchItem)
  : JsMap.t SearchItem :=
  fold_left mergeItem batch deduplicationMap.

(** One merge pass: the map starts empty and receives, in their order of
    arrival, the streamed batches and the final lists of the providers;
    [allItems] is then read off the map. *)
Definition mergePass (arrivals : list (list SearchItem)) : list SearchItem :=
  JsMap.values (fold_left mergeBatch arrivals JsMap.empty).

(** [updateIndexFromProviders]: [provided] lists, in registration order,
    what [getItems] of each provider returned, or [None] where it threw. *)
Definition updateIndexFromProviders_merge (provided : list (option (list SearchItem)))
  : list SearchItem :=
  mergePass (List.map (fun r => match r with Some items => items | None => [] end)
                      provided).

Definition applyPersistedActivityScores
           (persistedActivityScores : gmap string number)
           (allItems : list SearchItem) : list SearchItem :=
  List.map (fun item =>
              match persistedActivityScores !! getDeduplicationKey item with
              | Some ts => assign_activityScore item ts
              | None => item
              end) allItems.

(** *** Ranking *)

Definition SCORE_EPSILON : number := Finite (1 # 1000000000).

Definition has_activity (i : SearchItem) : number :=
  match activityScore i with Some _ => of_Z 1 | None => of_Z 0 end.

Definition score_or_neg_infinity (i : SearchItem) : number :=
  match score i with Some s => s | None => NegInfinity end.

(** The tail of the comparator, reached when activity does not decide:
    scores first, priorities when the scores are within [SCORE_EPSILON]. *)
Definition by_score_then_priority (a b : SearchItem) : number :=
  let scoreA := score_or_neg_infinity a in
  let scoreB := score_or_neg_infinity b in
  if gt (abs (sub scoreA scoreB)) SCORE_EPSILON
  then sub scoreB scoreA
  else
    let priorityA := or_default (priority a) (of_Z 50) in
    let priorityB := or_default (priority b) (of_Z 50) in
    sub priorityB priorityA.

(** The comparator passed to [results.sort]. *)
Definition compareResults (a b : SearchItem) : number :=
  let hasActivityA := has_activity a in
  let hasActivityB := has_activity b in
  if negb (strict_eq hasActivityB hasActivityA)
  then sub hasActivityB hasActivityA
  else if strict_eq hasActivityA (of_Z 1) && strict_eq hasActivityB (of_Z 1)
  then
    let tsA := nullish (activityScore a) (of_Z 0) in
    let tsB := nullish (activityScore b) (of_Z 0) in
    if negb (strict_eq tsB tsA) then sub tsB tsA else by_score_then_priority a b
  else by_score_then_priority a b.

(** [Array.prototype.sort] is stable, and places [a] after [b] when the
    comparator is positive on [(a, b)] (NaN counts as 0).  A stable
    insertion realises it; where the comparator orders the items strictly,
    the sorted arrangement is the only one without an inversion, whatever
    the algorithm. *)
Fixpoint sort_insert {A : Type} (cmp : A -> A -> number) (x : A) (l : list A) : list A :=
  match l with
  | [] => [x]
  | y :: l' => if is_positive (cmp x y) then y :: sort_insert cmp x l' else x :: l
  end.

Definition Array_sort {A : Type} (cmp : A -> A -> number) (l : list A) : list A :=
  fold_right (sort_insert cmp) [] l.

Definition sortResultsByPriority (results : list SearchItem) : list SearchItem :=
  Array_sort compareResults results.

(** *** Recency boosting *)

Definition oneHour : number := of_Z (60 * 60 * 1000).

(** [Math.max(0, 1 - (age / oneHour))] with [age = now - timestamp] *)
Definition recencyScore (now timestamp : number) : number :=
  let age := sub now timestamp in
  max (of_Z 0) (sub (of_Z 1) (div age oneHour)).

Definition is_symbol_or_class (i : SearchItem) : bool :=
  String.eqb (type i) SearchItemType.Symbol || String.eqb (type i) SearchItemType.Class.

(** First part of the loop body: the boost tied to the item's file. *)
Definition boostByFile (activityWeight now : number)
           (recentlyModifiedFiles : gmap string number) (item : SearchItem) : SearchItem :=
  match String.eqb (type item) SearchItemType.File, uri item with
  | true, Some u =>
      match recentlyModifiedFiles !! Uri_toString u with
      | Some timestamp =>
          if truthy timestamp then
            let boost := add (of_Z 1) (mul (recencyScore now timestamp) activityWeight) in
            match score item with
            | Some s => assign_score item (mul s boost)
            | None => item
            end
          else item
      | None => item
      end
  | _, _ =>
      match is_symbol_or_class item, uri item with
      | true, Some u =>
          match recentlyModifiedFiles !! Uri_toString u, score item with
          | Some timestamp, Some s =>
              if truthy timestamp then
                let boost :=
                  add (of_Z 1)
                      (mul (mul (recencyScore now timestamp) activityWeight)
                           (of_Q (8 # 10))) in
                assign_score item (mul s boost)
              else item
          | _, _ => item
          end
      | _, _ => item
      end
  end.

(** Second part of the loop body: the boost tied to the item's own
    [activityScore]. *)
Definition boostByActivity (activityWeight now : number) (item : SearchItem) : SearchItem :=
  match is_symbol_or_class item, activityScore item with
  | true, Some timestamp =>
      let boost :=
        add (of_Z 1)
            (mul (mul (recencyScore now timestamp) activityWeight) (of_Q (15 # 10))) in
      match score item with
      | Some s =>
          assign_score item
            (add (mul s boost) (mul (recencyScore now timestamp) (of_Q (4 # 10))))
      | None => item
      end
  | _, _ => item
  end.

Definition boostItem (activityWeight now : number)
           (recentlyModifiedFiles : gmap string number) (item : SearchItem) : SearchItem :=
  boostByActivity activityWeight now
    (boostByFile activityWeight now recentlyModifiedFiles item).

(** The items of [results] are distinct objects, each visited once. *)
Definition boostRecentlyModifiedItems (activityWeight now : number)
           (recentlyModifiedFiles : gmap string number)
           (results : list SearchItem) : list SearchItem :=
  List.map (boostItem activityWeight now recentlyModifiedFiles) results.

End WithVscode.
End SearchService.

(** ** Cache validation shared by the providers *)

(** [new Map(entries)] when the map is only looked up: a later entry for a key
    replaces an earlier one. *)
Definition Map_of_entries {A : Type} (entries : list (string * A)) : gmap string A :=
  fold_left (fun m e => <[ fst e := snd e ]> m) entries ∅.

(** [!cache || cache.version !== CACHE_VERSION ||
     cache.workspaceFingerprint !== fingerprint] *)
Definition cache_rejected (cache : option (number * string)) (fingerprint : string) : bool :=
  match cache with
  | None => true
  | Some (version, workspaceFingerprint) =>
      negb (strict_eq version CACHE_VERSION)
      || negb (String.eqb workspaceFingerprint fingerprint)
  end.

(** ** [providers/file-provider.ts] *)

Module FileSearchProvider.
Section WithVscode.
Context {V : Vscode}.

Record WorkspaceFolder : Type := {
  folder_uri : Uri;
  folder_name : string;
}.

Definition is_path_separator (c : ascii) : bool :=
  Ascii.eqb c "/" || Ascii.eqb c "\".

(** [path.split(/[\/\\]/).pop() || ''] *)
Definition fileNameOf (fsPath : string) : string :=
  match JsString.pop (JsString.split_by is_path_separator fsPath) with
  | Some name => name
  | None => ""
  end.

Definition getFileIcon (fileName : string) : IconPath :=
  let extension :=
    match JsString.pop (JsString.split "." fileName) with
    | Some e => JsString.toLowerCase e
    | None => ""
    end in
  let ext (e : string) := String.eqb extension e in
  if ext "js" || ext "jsx" || ext "ts" || ext "tsx" then ThemeIcon "file-code"
  else if ext "json" then ThemeIcon "file-json"
  else if ext "md" then ThemeIcon "markdown"
  else if ext "html" || ext "htm" then ThemeIcon "html"
  else if ext "css" || ext "scss" || ext "sass" || ext "less" then ThemeIcon "file-css"
  else if ext "xml" then ThemeIcon "file-xml"
  else if ext "py" then ThemeIcon "python"
  else if ext "cs" then ThemeIcon "c-sharp"
  else if ext "java" then ThemeIcon "java"
  else if ext "c" || ext "cpp" || ext "h" || ext "hpp" || ext "php" || ext "go"
          || ext "rb" || ext "rust" || ext "rs" then ThemeIcon "file-code"
  else if ext "sh" || ext "bash" then ThemeIcon "terminal"
  else if ext "yaml" || ext "yml" then ThemeIcon "file-yaml"
  else if ext "toml" || ext "sql" then ThemeIcon "file-text"
  else if ext "ps1" then ThemeIcon "terminal-powershell"
  else if ext "git" || ext "gitignore" || ext "gitattributes" then ThemeIcon "git"
  else ThemeIcon "file".

(** The item [processFileBatch] pushes for one file. *)
Definition fileItemOf (uri : Uri) (workspaceFolder : WorkspaceFolder) : FileSearchItem :=
  let workspacePath := Uri_fsPath (folder_uri workspaceFolder) in
  let relativePath :=
    if JsString.startsWith (Uri_fsPath uri) workspacePath then
      let rel := JsString.substring_from (String.length workspacePath) (Uri_fsPath uri) in
      if JsString.startsWith rel "/" || JsString.startsWith rel "\"
      then JsString.substring_from 1 rel
      else rel
    else Uri_fsPath uri in
  let fileName := fileNameOf (Uri_fsPath uri) in
  {| file_base :=
       {| id := "file:" ++ Uri_toString uri;
          label := fileName;
          description := relativePath;
          detail := Uri_fsPath uri;
          type := SearchItemType.File;
          iconPath := Some (getFileIcon fileName);
          action := ShowTextDocument uri;
          score := None; activityScore := None; priority := None |};
     file_uri := uri;
     file_relativePath := None |}.

Definition processFileBatch (files : list Uri) (workspaceFolder : WorkspaceFolder)
           (fileItems : list FileSearchItem) : list FileSearchItem :=
  fileItems ++ List.map (fun uri => fileItemOf uri workspaceFolder) files.

Definition serializeFileItem (item : FileSearchItem) : SerializedFileItem :=
  {| sf_id := id item;
     sf_label := label item;
     sf_description := description item;
     sf_detail := detail item;
     sf_type := "file";
     sf_uri := Uri_toString (file_uri item) |}.

Definition deserializeFileItem (s : SerializedFileItem) : FileSearchItem :=
  let uri := Uri_parse (sf_uri s) in
  let fileName := fileNameOf (Uri_fsPath uri) in
  {| file_base :=
       {| id := sf_id s;
          label := sf_label s;
          description := sf_description s;
          detail := sf_detail s;
          type := SearchItemType.File;
          iconPath := Some (getFileIcon fileName);
          action := ShowTextDocument uri;
          score := None; activityScore := None; priority := None |};
     file_uri := uri;
     file_relativePath := None |}.

(** [groupUrisByFolder]: a [Map] keyed by the folder objects, here by their
    positions in [workspaceFolders], in order of first use. *)
Fixpoint group_push (m : list (nat * list Uri)) (k : nat) (uri : Uri)
  : list (nat * list Uri) :=
  match m with
  | [] => [(k, [uri])]
  | (k', l) :: m' =>
      if Nat.eqb k' k then (k', l ++ [uri]) :: m' else (k', l) :: group_push m' k uri
  end.

Fixpoint find_folder (folders : list WorkspaceFolder) (uri : Uri) (k : nat) : option nat :=
  match folders with
  | [] => None
  | f :: fs =>
      if JsString.startsWith (Uri_toString uri) (Uri_toString (folder_uri f))
      then Some k
      else find_folder fs uri (S k)
  end.

Definition groupUrisByFolder (workspaceFolders : list WorkspaceFolder) (uris : list Uri)
  : list (nat * list Uri) :=
  fold_left (fun m uri =>
               match find_folder workspaceFolders uri 0 with
               | Some k => group_push m k uri
               | None => m
               end) uris [].

(** The partition loop of [refreshFromCacheOrFull]: the items taken from
    the cache and the files left to index. *)
Definition file_partition_step
           (cachedMtimeByUri : gmap string number)
           (cachedItemByUri : gmap string SerializedFileItem)
           (acc : list FileSearchItem * list Uri) (entry : Uri * number)
  : list FileSearchItem * list Uri :=
  let '(unchanged, toIndex) := acc in
  let '(uri, mtime) := entry in
  let uriStr := Uri_toString uri in
  match cachedMtimeByUri !! uriStr with
  | Some cachedMtime =>
      if strict_eq cachedMtime mtime then
        match cachedItemByUri !! uriStr with
        | Some serialized => (unchanged ++ [deserializeFileItem serialized], toIndex)
        | None => (unchanged, toIndex ++ [uri])
        end
      else (unchanged, toIndex ++ [uri])
  | None => (unchanged, toIndex ++ [uri])
  end.

Definition file_partition (cache : FileIndexCache) (currentEntries : list (Uri * number))
  : list FileSearchItem * list Uri :=
  let cachedMtimeByUri :=
    Map_of_entries (List.map (fun e => (manifest_uri e, manifest_mtime e)) (fic_manifest cache)) in
  let cachedItemByUri :=
    Map_of_entries (List.map (fun i => (sf_uri i, i)) (fic_items cache)) in
  fold_left (file_partition_step cachedMtimeByUri cachedItemByUri) currentEntries ([], []).

Definition compareByMtime (mtimeMap : gmap string number) (a b : FileSearchItem) : number :=
  let mtimeA := nullish (mtimeMap !! Uri_toString (file_uri a)) (of_Z 0) in
  let mtimeB := nullish (mtimeMap !! Uri_toString (file_uri b)) (of_Z 0) in
  sub mtimeB mtimeA.

(** [refreshFromCacheOrFull].  [cache] is what [readCache] returned,
    [currentEntries] what [findFiles] and [stat] report for the workspace.
    The result is the value returned together with [this.fileItems]. *)
Definition refreshFromCacheOrFull
           (storageUri : option Uri) (cache : option FileIndexCache)
           (fingerprint : string) (workspaceFolders : list WorkspaceFolder)
           (currentEntries : list (Uri * number))
           (fileItems : list FileSearchItem)
  : bool * list FileSearchItem :=
  match storageUri with
  | None => (false, fileItems)
  | Some _ =>
      if cache_rejected
           (option_map (fun c => (fic_version c, fic_workspaceFingerprint c)) cache)
           fingerprint
      then (false, fileItems)
      else
        match cache with
        | None => (false, fileItems)
        | Some cache =>
            let '(unchanged, toIndex) := file_partition cache currentEntries in
            let byFolder := groupUrisByFolder workspaceFolders toIndex in
            let indexed :=
              fold_left (fun items g =>
                           match nth_error workspaceFolders (fst g) with
                           | Some folder => processFileBatch (snd g) folder items
                           | None => items
                           end) byFolder unchanged in
            let mtimeMap :=
              Map_of_entries (List.map (fun e => (Uri_toString (fst e), snd e)) currentEntries) in
            (true, SearchService.Array_sort (compareByMtime mtimeMap) indexed)
        end
  end.

End WithVscode.
End FileSearchProvider.

(** ** Symbol items in the caches (both symbol providers) *)

Section SymbolItems.
Context {V : Vscode}.

Definition getSymbolIcon (kind : Z) : IconPath :=
  match kind with
  | 0%Z => ThemeIcon "file"
  | 1%Z => ThemeIcon "package"
  | 2%Z => ThemeIcon "symbol-namespace"
  | 3%Z => ThemeIcon "package"
  | 4%Z => ThemeIcon "symbol-class"
  | 5%Z => ThemeIcon "symbol-method"
  | 6%Z => ThemeIcon "symbol-property"
  | 7%Z => ThemeIcon "symbol-field"
  | 8%Z => ThemeIcon "symbol-constructor"
  | 9%Z => ThemeIcon "symbol-enum"
  | 10%Z => ThemeIcon "symbol-interface"
  | 11%Z => ThemeIcon "symbol-method"
  | 12%Z => ThemeIcon "symbol-variable"
  | 13%Z => ThemeIcon "symbol-constant"
  | 14%Z => ThemeIcon "symbol-string"
  | 15%Z => ThemeIcon "symbol-numeric"
  | 16%Z => ThemeIcon "symbol-boolean"
  | 17%Z => ThemeIcon "symbol-array"
  | 18%Z => ThemeIcon "symbol-object"
  | 19%Z => ThemeIcon "symbol-key"
  | 20%Z => ThemeIcon "symbol-null"
  | 21%Z => ThemeIcon "symbol-enum-member"
  | 22%Z => ThemeIcon "symbol-struct"
  | 23%Z => ThemeIcon "symbol-event"
  | 24%Z => ThemeIcon "symbol-operator"
  | 25%Z => ThemeIcon "symbol-parameter"
  | _ => ThemeIcon "symbol-misc"
  end.

(** [serializeSymbolItem], the same in both providers. *)
Definition serializeSymbolItem (item : SymbolSearchItem) : SerializedSymbolItem :=
  {| ss_id := id item;
     ss_label := label item;
     ss_description := description item;
     ss_detail := detail item;
     ss_type := type item;
     ss_uri := Uri_toString (symbol_uri item);
     ss_range :=
       {| sr_start := {| line := line (Range_start (symbol_range item));
                         character := character (Range_start (symbol_range item)) |};
          sr_end := {| line := line (Range_end (symbol_range item));
                       character := character (Range_end (symbol_range item)) |} |};
     ss_symbolKind := symbol_symbolKind item;
     ss_symbolGroup := symbol_symbolGroup item;
     ss_priority := priority item |}.

(** [deserializeSymbolItem] up to the choice of the type tag, which is
    where the two providers differ. *)
Definition deserializeSymbolItemAs (type : SearchItemType) (s : SerializedSymbolItem)
  : SymbolSearchItem :=
  let uri := Uri_parse (ss_uri s) in
  let range := Range_new (line (sr_start (ss_range s))) (character (sr_start (ss_range s)))
                         (line (sr_end (ss_range s))) (character (sr_end (ss_range s))) in
  {| symbol_base :=
       {| id := ss_id s;
          label := ss_label s;
          description := ss_description s;
          detail := ss_detail s;
          type := type;
          iconPath := Some (getSymbolIcon (ss_symbolKind s));
          action := RevealRange uri range;
          score := None; activityScore := None;
          priority := ss_priority s |};
     symbol_uri := uri;
     symbol_range := range;
     symbol_symbolKind := ss_symbolKind s;
     symbol_symbolGroup := ss_symbolGroup s |}.

End SymbolItems.

(** ** [providers/symbol-provider.ts] *)

Module SymbolSearchProvider.
Section WithVscode.
Context {V : Vscode}.

(** [type: s.type as SymbolSearchItem['type']]: the cast checks nothing. *)
Definition deserializeSymbolItem (s : SerializedSymbolItem) : SymbolSearchItem :=
  deserializeSymbolItemAs (ss_type s) s.

(** The loop over [currentManifest]: every current file must be in the
    cached manifest with the same mtime. *)
Definition manifest_matches (cachedMtimeByUri : gmap string number)
           (currentManifest : list ManifestEntry) : bool :=
  forallb (fun e =>
             match cachedMtimeByUri !! manifest_uri e with
             | Some cached => strict_eq cached (manifest_mtime e)
             | None => false
             end) currentManifest.

(** [tryLoadFromCache]: [None] is the answer [false]; [Some items] is the
    answer [true] with [this.symbolItems = items]. *)
Definition tryLoadFromCache
           (storageUri : option Uri) (cache : option WorkspaceSymbolsCache)
           (fingerprint : string) (currentManifest : list ManifestEntry)
  : option (list SymbolSearchItem) :=
  match storageUri with
  | None => None
  | Some _ =>
      if cache_rejected
           (option_map (fun c => (wsc_version c, wsc_workspaceFingerprint c)) cache)
           fingerprint
      then None
      else
        match cache with
        | None => None
        | Some cache =>
            let cachedManifest := default [] (wsc_manifest cache) in
            if negb (Nat.eqb (length currentManifest) (length cachedManifest)) then None
            else
              let cachedMtimeByUri :=
                Map_of_entries
                  (List.map (fun e => (manifest_uri e, manifest_mtime e)) cachedManifest) in
              if manifest_matches cachedMtimeByUri currentManifest
              then Some (List.map deserializeSymbolItem (default [] (wsc_items cache)))
              else None
        end
  end.

End WithVscode.
End SymbolSearchProvider.

(** ** [providers/document-symbol-provider.ts] *)

Module DocumentSymbolProvider.
Section WithVscode.
Context {V : Vscode}.

(** The type is coerced to symbol or class, whatever the cache holds. *)
Definition deserializeSymbolItem (s : SerializedSymbolItem) : SymbolSearchItem :=
  let type :=
    if String.eqb (ss_type s) "class" then SearchItemType.Class else SearchItemType.Symbol in
  deserializeSymbolItemAs type s.

(** The partition loop of [refreshFromCacheOrFull]: the cached symbols that
    are reused, the number of files they come from, and the files to index. *)
Definition partition_step (cachedFiles : gmap string DocumentSymbolsFileEntry)
           (acc : list SymbolSearchItem * nat * list (Uri * number))
           (entry : Uri * number)
  : list SymbolSearchItem * nat * list (Uri * number) :=
  let '(symbolItems, fromCache, toIndex) := acc in
  let '(uri, mtime) := entry in
  match cachedFiles !! Uri_toString uri with
  | Some e =>
      if strict_eq (dsf_mtime e) mtime
      then (symbolItems ++ List.map deserializeSymbolItem (dsf_symbols e),
            S fromCache, toIndex)
      else (symbolItems, fromCache, toIndex ++ [(uri, mtime)])
  | None => (symbolItems, fromCache, toIndex ++ [(uri, mtime)])
  end.

Definition partition (cachedFiles : gmap string DocumentSymbolsFileEntry)
           (currentEntries : list (Uri * number))
           (symbolItems : list SymbolSearchItem)
  : list SymbolSearchItem * nat * list (Uri * number) :=
  fold_left (partition_step cachedFiles) currentEntries (symbolItems, 0, []).

(** The indexing loop over [toIndex].  [shouldExclude] is
    [ExclusionPatterns.shouldExclude]; [indexDocument uri] is what
    [processSymbols] appends for the answer of the editor's
    document-symbol query on [uri] (nothing when the query fails or
    answers nothing).  The batches of 20 decide only when [onBatch] and
    [saveCache] run, not what [symbolItems] ends as. *)
Definition index_files (shouldExclude : Uri -> bool)
           (indexDocument : Uri -> list SymbolSearchItem)
           (toIndex : list (Uri * number)) (symbolItems : list SymbolSearchItem)
  : list SymbolSearchItem :=
  fold_left (fun items e =>
               if shouldExclude (fst e) then items
               else items ++ indexDocument (fst e)) toIndex symbolItems.

(** [refreshFromCacheOrFull]: the value returned and [this.symbolItems]. *)
Definition refreshFromCacheOrFull
           (shouldExclude : Uri -> bool)
           (indexDocument : Uri -> list SymbolSearchItem)
           (storageUri : option Uri) (cache : option DocumentSymbolsCache)
           (fingerprint : string) (currentEntries : list (Uri * number))
           (symbolItems : list SymbolSearchItem)
  : bool * list SymbolSearchItem :=
  match storageUri with
  | None => (false, symbolItems)
  | Some _ =>
      if cache_rejected
           (option_map (fun c => (dsc_version c, dsc_workspaceFingerprint c)) cache)
           fingerprint
      then (false, symbolItems)
      else
        match cache with
        | None => (false, symbolItems)
        | Some cache =>
            let cachedFiles := default ∅ (dsc_files cache) in
            let '(fromCacheItems, _, toIndex) :=
              partition cachedFiles currentEntries symbolItems in
            (true, index_files shouldExclude indexDocument toIndex fromCacheItems)
        end
  end.

End WithVscode.
End DocumentSymbolProvider.

(** ** [search/fuzzysort-adapter.ts] and [search/fuzzaldrin-adapter.ts] *)

Module FuzzySearcher.
Section WithVscode.
Context {V : Vscode}.

Definition MAX_SAFE_INTEGER : Z := 2 ^ 53 - 1.

(** [a.slice(0, end)] for an integer [end]: a negative [end] counts from
    the back. *)
Definition slice0 {A : Type} (a : list A) (end_ : Z) : list A :=
  let len := Z.of_nat (length a) in
  let final := if (end_ <? 0)%Z then Z.max (len + end_) 0 else Z.min end_ len in
  firstn (Z.to_nat final) a.

(** [`${item.label} ${item.description || ''} ${item.detail || ''}`] *)
Definition searchText (item : SearchItem) : string :=
  label item ++ " " ++ description item ++ " " ++ detail item.

(** The items are objects shared with the caller: [item.score = s] on the
    object at position [i] of [items]. *)
Definition write_scores (scored : list (nat * number)) (items : list SearchItem)
  : list SearchItem :=
  fold_left (fun its r => alter (fun it => assign_score it (snd r)) (fst r) its)
            scored items.

(** What [search] yields: the array it returns and the state in which it
    leaves the objects of [items]. *)
Record Outcome : Type := {
  returned : list SearchItem;
  items_after : list SearchItem;
}.

Definition scored_search (effectiveLimit : Z) (scored : list (nat * number))
           (items : list SearchItem) : Outcome :=
  let items' := write_scores scored items in
  let foundItems := omap (fun r => items' !! fst r) scored in
  {| returned := slice0 foundItems effectiveLimit; items_after := items' |}.

(** [FuzzysortAdapter.search].  [go query targets limit] stands for
    [fuzzysort.go]: the positions of the matching targets with their raw
    scores. *)
Definition Fuzzysort_search
           (go : JsString.code_units -> list string -> option Z -> list (nat * number))
           (items : list SearchItem) (query : JsString.code_units) (limit : option Z)
  : Outcome :=
  let effectiveLimit := default MAX_SAFE_INTEGER limit in
  if negb (JsString.truthy_units (JsString.trim query))
  then {| returned := slice0 items effectiveLimit; items_after := items |}
  else
    let targets := List.map searchText items in
    let goLimit :=
      if (effectiveLimit =? MAX_SAFE_INTEGER)%Z then None
      else Some (effectiveLimit * 2)%Z in
    let results := go query targets goLimit in
    let scored :=
      List.map (fun r =>
                  (fst r, div (max (of_Z 0) (add (of_Z 1000) (snd r))) (of_Z 1000)))
               results in
    scored_search effectiveLimit scored items.

(** [FuzzaldrinAdapter.search].  [filter] and [score_of] stand for
    [fuzzaldrinPlus.filter] (positions of the candidates kept) and
    [fuzzaldrinPlus.score]. *)
Definition Fuzzaldrin_search
           (filter : list string -> JsString.code_units -> option Z -> list nat)
           (score_of : string -> JsString.code_units -> number)
           (items : list SearchItem) (query : JsString.code_units) (limit : option Z)
  : Outcome :=
  let effectiveLimit := default MAX_SAFE_INTEGER limit in
  if negb (JsString.truthy_units (JsString.trim query))
  then {| returned := slice0 items effectiveLimit; items_after := items |}
  else
    let searchableItems := List.map searchText items in
    let maxResults :=
      if (effectiveLimit =? MAX_SAFE_INTEGER)%Z then None
      else Some (effectiveLimit * 2)%Z in
    let results := filter searchableItems query maxResults in
    let scored :=
      List.map (fun i =>
                  (i, div (score_of (nth i searchableItems "") query) (of_Z 100)))
               results in
    scored_search effectiveLimit scored items.

End WithVscode.
End FuzzySearcher.

(** ** [SearchService.refreshIndex] as a cooperative task

    One thread runs jobs to completion; a call of [refreshIndex] runs until
    its first [await], and the rest of it runs when the awaited promise
    settles.  A promise's reactions run in the order in which they were
    registered.  [doRefresh] is taken as a unit: it is started, stays in
    flight, and its promise is fulfilled at some later point. *)

Module RefreshIndex.

(** Where a caller of [refreshIndex] is suspended. *)
Inductive Continuation : Type :=
| AwaitShared       (** [await this.refreshPromise; return] of a non-forced call *)
| AwaitBeforeForced (** [await this.refreshPromise] of a forced call *)
| AwaitOwn          (** [await this.refreshPromise] inside [try], before [finally] *).

Record Reaction : Type := {
  on_promise : nat;
  caller : nat;
  continuation : Continuation;
}.

Record State : Type := {
  refreshPromise : option nat;
(** the [doRefresh] runs that were started and have not finished *)
in_flight : list nat;
reactions : list Reaction;
next_promise : nat;
next_caller : nat;
(** [doRefresh] runs started so far *)
passes : nat;
(** callers whose [refreshIndex] promise resolved, with the refresh whose
    completion resumed them *)
resolved : list (nat * nat);
}.

Definition initial : State :=
  {| refreshPromise := None; in_flight := []; reactions := [];
     next_promise := 0; next_caller := 0; passes := 0; resolved := [] |}.

(** [this.refreshPromise = doRefresh(); try { await this.refreshPromise }] *)
Definition start (c : nat) (s : State) : State :=
  let p := next_promise s in
  {| refreshPromise := Some p;
     in_flight := in_flight s ++ [p];
     reactions := reactions s ++ [{| on_promise := p; caller := c; continuation := AwaitOwn |}];
     next_promise := S p;
     next_caller := next_caller s;
     passes := S (passes s);
     resolved := resolved s |}.

Definition suspend (p c : nat) (k : Continuation) (s : State) : State :=
  {| refreshPromise := refreshPromise s;
     in_flight := in_flight s;
     reactions := reactions s ++ [{| on_promise := p; caller := c; continuation := k |}];
     next_promise := next_promise s;
     next_caller := next_caller s;
     passes := passes s;
     resolved := resolved s |}.

Definition clear_promise (s : State) : State :=
  {| refreshPromise := None;
     in_flight := in_flight s;
     reactions := reactions s;
     next_promise := next_promise s;
     next_caller := next_caller s;
     passes := passes s;
     resolved := resolved s |}.

Definition resolve (c p : nat) (s : State) : State :=
  {| refreshPromise := refreshPromise s;
     in_flight := in_flight s;
     reactions := reactions s;
     next_promise := next_promise s;
     next_caller := next_caller s;
     passes := passes s;
     resolved := resolved s ++ [(c, p)] |}.

Definition fresh_caller (s : State) : State :=
  {| refreshPromise := refreshPromise s;
     in_flight := in_flight s;
     reactions := reactions s;
     next_promise := next_promise s;
     next_caller := S (next_caller s);
     passes := passes s;
     resolved := resolved s |}.

(** A call of [refreshIndex(force)], up to its first [await]. *)
Definition call (force : bool) (s : State) : State :=
  let c := next_caller s in
  let s := fresh_caller s in
  match refreshPromise s with
  | Some p =>
      if negb force then suspend p c AwaitShared s
      else suspend p c AwaitBeforeForced s
  | None => start c s
  end.

(** The rest of a call, when the promise it awaits is fulfilled. *)
Definition resume (r : Reaction) (s : State) : State :=
  match continuation r with
  | AwaitShared => resolve (caller r) (on_promise r) s
  | AwaitBeforeForced => start (caller r) (clear_promise s)
  | AwaitOwn => resolve (caller r) (on_promise r) (clear_promise s)
  end.

Definition waits_on (p : nat) (r : Reaction) : bool := Nat.eqb (on_promise r) p.

(** The refresh [p] finishes: its promise is fulfilled and the reactions
    registered on it run, first registered first. *)
Definition settle (p : nat) (s : State) : State :=
  if existsb (Nat.eqb p) (in_flight s) then
    let woken := List.filter (waits_on p) (reactions s) in
    let s' :=
      {| refreshPromise := refreshPromise s;
         in_flight := List.filter (fun q => negb (Nat.eqb q p)) (in_flight s);
         reactions := List.filter (fun r => negb (waits_on p r)) (reactions s);
         next_promise := next_promise s;
         next_caller := next_caller s;
         passes := passes s;
         resolved := resolved s |} in
    fold_left (fun st r => resume r st) woken s'
  else s.

Inductive Event : Type :=
| Call (force : bool)
| Settle (p : nat).

Definition step (s : State) (e : Event) : State :=
  match e with
  | Call force => call force s
  | Settle p => settle p s
  end.

Definition run (trace : list Event) : State := fold_left step trace initial.

Definition is_forced_call (e : Event) : bool :=
  match e with Call true => true | _ => false end.

End RefreshIndex.

(** * The rest of the coordinator and of the providers *)

From Stdlib Require Import Sorted.
From Stdlib Require OrderedTypeEx.
From stdpp Require sorting.

(** ** More of [Map] and of objects used as maps *)

(** [m.delete(k)] *)
Fixpoint JsMap_delete {A : Type} (m : JsMap.t A) (k : string) : JsMap.t A :=
  match m with
  | [] => []
  | (k', v) :: m' => if String.eqb k' k then m' else (k', v) :: JsMap_delete m' k
  end.

(** [Object.fromEntries(entries)] and [new Map(entries)] *)
Definition JsMap_fromEntries {A : Type} (entries : list (string * A)) : JsMap.t A :=
  fold_left (fun m e => JsMap.set m (fst e) (snd e)) entries JsMap.empty.


(** ** [core/search-service.ts]: usage, recency and deferred updates *)

Module ServiceActivity.
Section WithVscode.
Context {V : Vscode}.
Import SearchService.

(** *** [recordItemUsed] *)

Definition is_text_symbol_or_class (i : SearchItem) : bool :=
  String.eqb (type i) SearchItemType.TextMatch
  || String.eqb (type i) SearchItemType.Symbol
  || String.eqb (type i) SearchItemType.Class.

(** The state [recordItemUsed] leaves: the selected item, the index, the
    persisted timestamps, and how many indexed items were stamped. *)
Record Used : Type := {
  used_item : SearchItem;
  used_allItems : list SearchItem;
  used_persisted : JsMap.t number;
  updatedCount : nat;
}.

(** One turn of the loop over [allItems].  An indexed item that is the
    selected object itself has the selected key, so the first two branches
    of the source do the same thing and are one branch here. *)
Definition recordItemUsed_step (now : number) (item : SearchItem)
           (acc : list SearchItem * JsMap.t number * nat) (indexed : SearchItem)
  : list SearchItem * JsMap.t number * nat :=
  let '(done, persisted, count) := acc in
  let key := getDeduplicationKey item in
  let normalizedLabel := JsString.replace_trailing_parens (label item) in
  let stamp :=
    (done ++ [assign_activityScore indexed now],
     JsMap.set persisted
               (getDeduplicationKey (assign_activityScore indexed now)) now,
     S count) in
  if String.eqb (getDeduplicationKey indexed) key then stamp
  else if is_text_symbol_or_class item
          && is_symbol_or_class indexed
          && String.eqb (JsString.replace_trailing_parens (label indexed)) normalizedLabel
  then stamp
  else (done ++ [indexed], persisted, count).

Definition recordItemUsed (now : number) (item : SearchItem)
           (allItems : list SearchItem) (persistedActivityScores : JsMap.t number)
  : Used :=
  let item := assign_activityScore item now in
  let '(allItems', persisted', count) :=
    fold_left (recordItemUsed_step now item) allItems ([], persistedActivityScores, 0) in
  {| used_item := item; used_allItems := allItems';
     used_persisted := persisted'; updatedCount := count |}.

(** [if (updatedCount > 0)]: a save of the activity scores is scheduled. *)
Definition save_scheduled (u : Used) : bool := Nat.ltb 0 (updatedCount u).

(** *** [saveActivityScores] and [loadActivityScores] *)

Record ActivityScoresCache : Type := {
  asc_version : number;
  asc_workspaceFingerprint : option string;
  asc_entries : option (JsMap.t number);
}.

Definition MAX_PERSISTED_ACTIVITY_ENTRIES : nat := 500.

(** [(a, b) => b[1] - a[1]] *)
Definition byTimestampDescending (a b : string * number) : number := sub (snd b) (snd a).

(** The entries that are kept: all of them up to the limit, beyond it the
    first [limit] of the entries sorted by timestamp, newest first.  The
    keys are deduplication keys, none of which is an array index, so that
    the object lists its entries in the order they were added. *)
Definition keepMostRecent (limit : nat) (entries : JsMap.t number) : JsMap.t number :=
  if Nat.ltb limit (length entries)
  then JsMap_fromEntries (firstn limit (Array_sort byTimestampDescending entries))
  else entries.

(** [saveActivityScores]: nothing without a storage location; otherwise
    [this.persistedActivityScores] afterwards and the payload written. *)
Definition saveActivityScores (storageUri : option Uri) (fingerprint : string)
           (persistedActivityScores : JsMap.t number)
  : option (JsMap.t number * ActivityScoresCache) :=
  match storageUri with
  | None => None
  | Some _ =>
      let entries := keepMostRecent MAX_PERSISTED_ACTIVITY_ENTRIES persistedActivityScores in
      Some (entries,
            {| asc_version := CACHE_VERSION;
               asc_workspaceFingerprint := Some fingerprint;
               asc_entries := Some entries |})
  end.

(** [loadActivityScores]: [this.persistedActivityScores] afterwards.
    [cache] is what [readCache] returned. *)
Definition loadActivityScores (storageUri : option Uri)
           (cache : option ActivityScoresCache) (fingerprint : string)
           (persistedActivityScores : JsMap.t number) : JsMap.t number :=
  match storageUri, cache with
  | Some _, Some cache =>
      if negb (strict_eq (asc_version cache) CACHE_VERSION) then persistedActivityScores
      else
        match asc_workspaceFingerprint cache with
        | Some cached =>
            if negb (String.eqb cached fingerprint) then persistedActivityScores
            else default JsMap.empty (asc_entries cache)
        | None => default JsMap.empty (asc_entries cache)
        end
  | _, _ => persistedActivityScores
  end.

(** *** [trackDocumentActivity] *)

(** [(a, b) => a[1] - b[1]] *)
Definition byTimestampAscending (a b : string * number) : number := sub (snd a) (snd b).

(** The body that the debouncer runs: [uri] is [uri.toString()], [now] is
    [Date.now()]. *)
Definition trackDocumentActivity (recentlyModifiedFiles : JsMap.t number)
           (uri : string) (now : number) : JsMap.t number :=
  let files := JsMap.set recentlyModifiedFiles uri now in
  if Nat.ltb 20 (length files)
  then
    match Array_sort byTimestampAscending files with
    | oldest :: _ => JsMap_delete files (fst oldest)
    | [] => files
    end
  else files.

End WithVscode.
End ServiceActivity.

Module ServiceUpdates.

(** The part of the service that decides when [updateIndexFromProviders]
    runs. *)
Record State : Type := {
  searchUIActive : bool;
  pendingIndexUpdate : bool;
(** calls of [updateIndexFromProviders] so far *)
updates : nat;
}.

Definition initial : State :=
  {| searchUIActive := false; pendingIndexUpdate := false; updates := 0 |}.

(** The callback that [scheduleIndexUpdate] hands to the debouncer. *)
Definition indexUpdateDue (s : State) : State :=
  if searchUIActive s
  then {| searchUIActive := searchUIActive s; pendingIndexUpdate := true;
          updates := updates s |}
  else {| searchUIActive := searchUIActive s;
          pendingIndexUpdate := pendingIndexUpdate s;
          updates := S (updates s) |}.

Definition setSearchUIActive (active : bool) (s : State) : State :=
  if negb active && pendingIndexUpdate s
  then {| searchUIActive := active; pendingIndexUpdate := false;
          updates := S (updates s) |}
  else {| searchUIActive := active; pendingIndexUpdate := pendingIndexUpdate s;
          updates := updates s |}.

Inductive Event : Type :=
| UpdateDue
| SetActive (active : bool).

Definition step (s : State) (e : Event) : State :=
  match e with
  | UpdateDue => indexUpdateDue s
  | SetActive active => setSearchUIActive active s
  end.

Definition run (trace : list Event) (s : State) : State := fold_left step trace s.

End ServiceUpdates.

Module ServiceSearch.
Section WithVscode.
Context {V : Vscode}.
Import SearchService.

Record IndexingConfig : Type := {
  includeFiles : bool;
  includeSymbols : bool;
  includeCommands : bool;
  includeText : bool;
}.

(** [registerProviders]: the names under which providers are registered,
    in the order of registration. *)
Definition registerProviders (indexing : IndexingConfig) : list string :=
  (if includeFiles indexing then ["files"] else [])
    ++ (if includeSymbols indexing then ["symbols"; "docSymbols"] else [])
    ++ (if includeCommands indexing then ["commands"] else [])
    ++ (if includeText indexing then ["text"] else []).

(** [updateIndexFromProviders]: [getItems name] is what the provider
    registered as [name] returns, [None] if it throws. *)
Definition updateIndexFromProviders (indexing : IndexingConfig)
           (getItems : string -> option (list SearchItem))
           (persistedActivityScores : gmap string number) : list SearchItem :=
  applyPersistedActivityScores
    persistedActivityScores
    (updateIndexFromProviders_merge (List.map getItems (registerProviders indexing))).

(** [search] on a query that is empty after [trim]: no text search and no
    fuzzy search; a copy of [allItems] is boosted, when activity is
    enabled, and sorted.  The boost writes to the items themselves, which
    are those of [allItems]; the sort reorders the copy only.  The result
    is the array returned and [allItems] afterwards; [allItems] is the
    index as it is once the refresh that an empty index sets off is over. *)
Definition search_blank (activityEnabled : bool) (activityWeight now : number)
           (recentlyModifiedFiles : gmap string number) (allItems : list SearchItem)
  : list SearchItem * list SearchItem :=
  let boosted :=
    if activityEnabled
    then boostRecentlyModifiedItems activityWeight now recentlyModifiedFiles allItems
    else allItems in
  (sortResultsByPriority boosted, boosted).

End WithVscode.
End ServiceSearch.

(** ** Building symbol items: [providers/symbol-provider.ts] and
       [providers/document-symbol-provider.ts] *)

(** [getSymbolPriority], the same in both providers. *)
Definition getSymbolPriority (kind : Z) : number :=
  match kind with
  | 4%Z | 10%Z | 9%Z | 22%Z => of_Z 100
  | 5%Z | 11%Z | 8%Z => of_Z 90
  | 6%Z | 7%Z | 21%Z => of_Z 70
  | 13%Z => of_Z 60
  | 12%Z => of_Z 40
  | _ => of_Z 50
  end.

(** [getSymbolKindName], the same in both providers. *)
Definition getSymbolKindName (kind : Z) : string :=
  match kind with
  | 0%Z => "File"
  | 1%Z => "Module"
  | 2%Z => "Namespace"
  | 3%Z => "Package"
  | 4%Z => "Class"
  | 5%Z => "Method"
  | 6%Z => "Property"
  | 7%Z => "Field"
  | 8%Z => "Constructor"
  | 9%Z => "Enum"
  | 10%Z => "Interface"
  | 11%Z => "Function"
  | 12%Z => "Variable"
  | 13%Z => "Constant"
  | 14%Z => "String"
  | 15%Z => "Number"
  | 16%Z => "Boolean"
  | 17%Z => "Array"
  | 18%Z => "Object"
  | 19%Z => "Key"
  | 20%Z => "Null"
  | 21%Z => "EnumMember"
  | 22%Z => "Struct"
  | 23%Z => "Event"
  | 24%Z => "Operator"
  | 25%Z => "TypeParameter"
  | _ => "Symbol"
  end.

(** [`${getSymbolKindName(kind)}${container ? ` - ${container}` : ''}`] *)
Definition symbolDescription (kind : Z) (containerName : string) : string :=
  getSymbolKindName kind
    ++ (if JsString.truthy containerName then " - " ++ containerName else "").

(** [`symbol:${name}:${uri.toString()}:${line}:${character}`] *)
Definition symbolIdOf {V : Vscode} (name : string) (uri : Uri) (range : Range) : string :=
  "symbol:" ++ name ++ ":" ++ Uri_toString uri ++ ":"
    ++ JsString.of_nat (line (Range_start range)) ++ ":"
    ++ JsString.of_nat (character (Range_start range)).

(** The object literal that both providers build for a symbol; [reveal] is
    the range that the action selects. *)
Definition symbolItemFor {V : Vscode} (name : string) (kind : Z) (containerName : string)
           (uri : Uri) (range reveal : Range) : SymbolSearchItem :=
  let symbolGroup := mapSymbolKindToGroup kind in
  let isClass := (symbolGroup =? SymbolKindGroup.Class)%Z in
  let priority := getSymbolPriority kind in
  {| symbol_base :=
       {| id := symbolIdOf name uri range;
          label := name;
          description := symbolDescription kind containerName;
          detail := Uri_fsPath uri;
          type := if isClass then SearchItemType.Class else SearchItemType.Symbol;
          iconPath := Some (getSymbolIcon kind);
          action := RevealRange uri reveal;
          score := None; activityScore := None;
          priority := Some priority |};
     symbol_uri := uri;
     symbol_range := range;
     symbol_symbolKind := kind;
     symbol_symbolGroup := Some symbolGroup |}.

(** *** Workspace symbols *)

Module WorkspaceSymbols.
Section WithVscode.
Context {V : Vscode}.

(** [vscode.SymbolInformation] *)
Record SymbolInformation : Type := {
  si_name : string;
  si_kind : Z;
  si_containerName : string;
  si_uri : Uri;
  si_range : Range;
}.

Definition getSymbolId (symbol : SymbolInformation) : string :=
  symbolIdOf (si_name symbol) (si_uri symbol) (si_range symbol).

Definition convertToSearchItem (symbol : SymbolInformation) : SymbolSearchItem :=
  symbolItemFor (si_name symbol) (si_kind symbol) (si_containerName symbol)
                (si_uri symbol) (si_range symbol) (si_range symbol).

Definition queryPatterns : list string :=
  ["*"; "a*"; "b*"; "c*"; "d*"; "e*"; "f*"; "g*"; "h*"; "i*";
   "j*"; "k*"; "l*"; "m*"; "n*"; "o*"; "p*"; "q*"; "r*"; "s*";
   "t*"; "u*"; "v*"; "w*"; "x*"; "y*"; "z*"; "_*"; "$*"].

(** The body of the loop over the symbols of one query. *)
Definition addSymbol (acc : list SymbolInformation * gset string)
           (symbol : SymbolInformation) : list SymbolInformation * gset string :=
  let '(allSymbols, symbolIds) := acc in
  let id := getSymbolId symbol in
  if bool_decide (id ∈ symbolIds) then acc
  else (allSymbols ++ [symbol], {[ id ]} ∪ symbolIds).

(** [allSymbols] at the end of the loop over the patterns.
    [executeWorkspaceSymbolProvider pattern] is the answer of the editor,
    [None] when it is undefined. *)
Definition collectSymbols
           (executeWorkspaceSymbolProvider : string -> option (list SymbolInformation))
  : list SymbolInformation :=
  let basicSymbols := default [] (executeWorkspaceSymbolProvider "") in
  let symbolIds : gset string := list_to_set (List.map getSymbolId basicSymbols) in
  fst (fold_left
         (fun acc pattern =>
            fold_left addSymbol (default [] (executeWorkspaceSymbolProvider pattern)) acc)
         queryPatterns (basicSymbols, symbolIds)).

(** [fullRefresh]: [this.symbolItems] afterwards. *)
Definition fullRefresh
           (executeWorkspaceSymbolProvider : string -> option (list SymbolInformation))
           (shouldExclude : Uri -> bool) : list SymbolSearchItem :=
  let allSymbols := collectSymbols executeWorkspaceSymbolProvider in
  let filteredSymbols :=
    List.filter (fun symbol => negb (shouldExclude (si_uri symbol))) allSymbols in
  List.map convertToSearchItem filteredSymbols.

(** [saveCache]: the payload written, nothing without a storage
    location. *)
Definition saveCache (storageUri : option Uri) (fingerprint : string)
           (manifest : list ManifestEntry) (symbolItems : list SymbolSearchItem)
  : option WorkspaceSymbolsCache :=
  match storageUri with
  | None => None
  | Some _ =>
      Some {| wsc_version := CACHE_VERSION;
              wsc_workspaceFingerprint := fingerprint;
              wsc_manifest := Some manifest;
              wsc_items := Some (List.map serializeSymbolItem symbolItems) |}
  end.

(** [runRefreshInternal]: [this.symbolItems] afterwards and the payload
    that [saveCache] writes.  [cache] is what [readCache] returned,
    [currentManifest] the manifest that [tryLoadFromCache] computes and
    [savedManifest] the one that [saveCache] computes. *)
Definition runRefreshInternal
           (executeWorkspaceSymbolProvider : string -> option (list SymbolInformation))
           (shouldExclude : Uri -> bool) (force : bool)
           (storageUri : option Uri) (cache : option WorkspaceSymbolsCache)
           (fingerprint : string) (currentManifest savedManifest : list ManifestEntry)
  : list SymbolSearchItem * option WorkspaceSymbolsCache :=
  let symbolItems : list SymbolSearchItem := [] in
  let symbolItems :=
    if force || negb (bool_decide (is_Some storageUri))
    then fullRefresh executeWorkspaceSymbolProvider shouldExclude
    else
      match SymbolSearchProvider.tryLoadFromCache storageUri cache fingerprint
                                                  currentManifest with
      | Some fromCache => fromCache
      | None => fullRefresh executeWorkspaceSymbolProvider shouldExclude
      end in
  (symbolItems, saveCache storageUri fingerprint savedManifest symbolItems).

End WithVscode.
End WorkspaceSymbols.

(** *** Document symbols *)

Module DocumentSymbols.
Section WithVscode.
Context {V : Vscode}.

(** [vscode.DocumentSymbol] *)
#[warnings="-register-all"]
Inductive DocumentSymbol : Type :=
  mkDocumentSymbol {
      ds_name : string;
      ds_kind : Z;
      ds_range : Range;
      ds_selectionRange : Range;
      ds_children : list DocumentSymbol;
    }.

(** The object literal of [processSymbols]. *)
Definition symbolItemOf (uri : Uri) (currentContainer : string) (symbol : DocumentSymbol)
  : SymbolSearchItem :=
  symbolItemFor (ds_name symbol) (ds_kind symbol) currentContainer uri
                (ds_range symbol) (ds_selectionRange symbol).

(** A stack entry; the top of the stack is the head of the list. *)
Definition StackEntry : Type := (list DocumentSymbol * string)%type.

(** The body of the [for] loop over [currentSymbols]. *)
Definition visit (uri : Uri) (currentContainer : string)
           (acc : list StackEntry * list SymbolSearchItem) (symbol : DocumentSymbol)
  : list StackEntry * list SymbolSearchItem :=
  let '(stack, symbolItems) := acc in
  let symbolItems := symbolItems ++ [symbolItemOf uri currentContainer symbol] in
  match ds_children symbol with
  | [] => (stack, symbolItems)
  | _ :: _ => ((ds_children symbol, ds_name symbol) :: stack, symbolItems)
  end.

(** The [while] loop, run at most [fuel] times. *)
Fixpoint processSymbols_loop (fuel : nat) (uri : Uri) (stack : list StackEntry)
         (symbolItems : list SymbolSearchItem) : option (list SymbolSearchItem) :=
  match fuel with
  | O => None
  | S fuel =>
      match stack with
      | [] => Some symbolItems
      | (currentSymbols, currentContainer) :: stack =>
          let '(stack, symbolItems) :=
            fold_left (visit uri currentContainer) currentSymbols (stack, symbolItems) in
          processSymbols_loop fuel uri stack symbolItems
      end
  end.

(** The number of symbols of a tree and of a list of trees. *)
Fixpoint symbolCount (symbol : DocumentSymbol) : nat :=
  S ((fix counts (l : list DocumentSymbol) : nat :=
        match l with
        | [] => 0
        | child :: l' => symbolCount child + counts l'
        end) (ds_children symbol)).

Definition symbolCounts (symbols : list DocumentSymbol) : nat :=
  list_sum (List.map symbolCount symbols).

(** [processSymbols]: [this.symbolItems] afterwards.  The loop is entered
    once for the given symbols and once more for each symbol that has
    children. *)
Definition processSymbols (symbols : list DocumentSymbol) (uri : Uri)
           (containerName : string) (symbolItems : list SymbolSearchItem)
  : option (list SymbolSearchItem) :=
  processSymbols_loop (2 + symbolCounts symbols) uri [(symbols, containerName)]
                      symbolItems.

(** What one file contributes in [processFileBatch] and in the loop of
    [refreshFromCacheOrFull]: nothing when the query fails, is undefined or
    answers no symbol.  [executeDocumentSymbolProvider uri] is the answer
    of the editor, [None] when it fails or is undefined. *)
Definition indexDocument
           (executeDocumentSymbolProvider : Uri -> option (list DocumentSymbol))
           (uri : Uri) : list SymbolSearchItem :=
  match executeDocumentSymbolProvider uri with
  | Some (symbol :: symbols) =>
      default [] (processSymbols (symbol :: symbols) uri "" [])
  | _ => []
  end.

(** [processFileBatch]: [this.symbolItems] afterwards. *)
Definition processFileBatch (shouldExclude : Uri -> bool)
           (executeDocumentSymbolProvider : Uri -> option (list DocumentSymbol))
           (files : list Uri) (symbolItems : list SymbolSearchItem)
  : list SymbolSearchItem :=
  fold_left
    (fun symbolItems uri =>
       if shouldExclude uri then symbolItems
       else
         match executeDocumentSymbolProvider uri with
         | Some (symbol :: symbols) =>
             default symbolItems (processSymbols (symbol :: symbols) uri "" symbolItems)
         | _ => symbolItems
         end)
    files symbolItems.

(** The partition loop of [fullRefresh]. *)
Definition fullRefresh_step (shouldExclude : Uri -> bool)
           (cachedFiles : gmap string DocumentSymbolsFileEntry)
           (acc : list SymbolSearchItem * nat * list (Uri * number))
           (entry : Uri * number)
  : list SymbolSearchItem * nat * list (Uri * number) :=
  let '(symbolItems, fromCacheCount, toProcess) := acc in
  let '(uri, mtime) := entry in
  match cachedFiles !! Uri_toString uri with
  | Some e =>
      if strict_eq (dsf_mtime e) mtime
      then (symbolItems
              ++ List.map DocumentSymbolProvider.deserializeSymbolItem (dsf_symbols e),
            S fromCacheCount, toProcess)
      else if negb (shouldExclude uri)
           then (symbolItems, fromCacheCount, toProcess ++ [(uri, mtime)])
           else (symbolItems, fromCacheCount, toProcess)
  | None =>
      if negb (shouldExclude uri)
      then (symbolItems, fromCacheCount, toProcess ++ [(uri, mtime)])
      else (symbolItems, fromCacheCount, toProcess)
  end.

(** [fullRefresh], which [refresh] runs when it is forced, when there is
    no storage, and when [refreshFromCacheOrFull] answers [false]:
    [this.symbolItems] afterwards.  The batches of 20 decide only when
    [onBatch] and [saveCache] run. *)
Definition fullRefresh (shouldExclude : Uri -> bool)
           (executeDocumentSymbolProvider : Uri -> option (list DocumentSymbol))
           (storageUri : option Uri) (cache : option DocumentSymbolsCache)
           (fingerprint : string) (currentEntries : list (Uri * number))
           (symbolItems : list SymbolSearchItem) : list SymbolSearchItem :=
  let cachedFiles : gmap string DocumentSymbolsFileEntry :=
    match storageUri, cache with
    | Some _, Some cache =>
        if strict_eq (dsc_version cache) CACHE_VERSION
           && String.eqb (dsc_workspaceFingerprint cache) fingerprint
        then default ∅ (dsc_files cache)
        else ∅
    | _, _ => ∅
    end in
  let '(symbolItems, _, toProcess) :=
    fold_left (fullRefresh_step shouldExclude cachedFiles) currentEntries
              (symbolItems, 0, []) in
  processFileBatch shouldExclude executeDocumentSymbolProvider
                   (List.map fst toProcess) symbolItems.

(** [saveCache]: the payload written.  An entry is written for every
    current file, with the symbols that [symbolItems] holds for it. *)
Definition saveCache (fingerprint : string) (currentEntries : list (Uri * number))
           (symbolItems : list SymbolSearchItem) : DocumentSymbolsCache :=
  let uriToMtime :=
    Map_of_entries (List.map (fun e => (Uri_toString (fst e), snd e)) currentEntries) in
  let files :=
    fold_left
      (fun (files : gmap string DocumentSymbolsFileEntry) e =>
         let uriStr := Uri_toString (fst e) in
         let mtime := default (of_Z 0) (uriToMtime !! uriStr) in
         let items :=
           List.filter (fun item => String.eqb (Uri_toString (symbol_uri item)) uriStr)
                       symbolItems in
         <[ uriStr := {| dsf_mtime := mtime;
                         dsf_symbols := List.map serializeSymbolItem items |} ]> files)
      currentEntries ∅ in
  {| dsc_version := CACHE_VERSION;
     dsc_workspaceFingerprint := fingerprint;
     dsc_files := Some files |}.

(** [flushIncrementalCacheSave]: the payload written, [None] when nothing
    is written.  [dirty] holds the uris marked since the last save, [cache]
    is what [readCache] returned, [stat] is as in the file index, and
    [currentEntries] is what [saveCache] finds when the cache cannot be
    patched and is written anew. *)
Definition flushIncrementalCacheSave (storageUri : option Uri)
           (cache : option DocumentSymbolsCache) (fingerprint : string)
           (stat : Uri -> option number) (currentEntries : list (Uri * number))
           (dirty : list string) (symbolItems : list SymbolSearchItem)
  : option DocumentSymbolsCache :=
  match dirty, storageUri with
  | [], _ | _, None => None
  | _ :: _, Some _ =>
      match cache with
      | Some cache =>
          match dsc_files cache with
          | Some files =>
              if negb (strict_eq (dsc_version cache) CACHE_VERSION)
                 || negb (String.eqb (dsc_workspaceFingerprint cache) fingerprint)
              then Some (saveCache fingerprint currentEntries symbolItems)
              else
                let files :=
                  fold_left
                    (fun (files : gmap string DocumentSymbolsFileEntry) uriStr =>
                       match stat (Uri_parse uriStr) with
                       | Some mtime =>
                           let items :=
                             List.filter
                               (fun item =>
                                  String.eqb (Uri_toString (symbol_uri item)) uriStr)
                               symbolItems in
                           <[ uriStr := {| dsf_mtime := mtime;
                                           dsf_symbols :=
                                             List.map serializeSymbolItem items |} ]> files
                       | None => delete uriStr files
                       end)
                    dirty files in
                Some {| dsc_version := dsc_version cache;
                        dsc_workspaceFingerprint := dsc_workspaceFingerprint cache;
                        dsc_files := Some files |}
          | None => Some (saveCache fingerprint currentEntries symbolItems)
          end
      | None => Some (saveCache fingerprint currentEntries symbolItems)
      end
  end.

End WithVscode.
End DocumentSymbols.

(** *** Saves of documents

    [updateDocumentSymbols] is an [async] function that the save listener
    calls without waiting for it: a call runs up to its [await] when the
    document is saved, and the rest of it runs when the editor has answered.
    Other calls may begin, and other answers arrive, in between.  What is
    modelled is the provider between two refreshes. *)

Module DocumentUpdates.
Section WithVscode.
Context {V : Vscode}.
Import DocumentSymbols.

Record State : Type := {
  symbolItems : list SymbolSearchItem;
  dirtyDocSymbolUris : gset string;
(** the calls that wait for the editor, oldest first, each with its [uri] *)
awaiting : list Uri;
}.

Inductive Event : Type :=
| Saved (uri : Uri)
(** [onDidSaveTextDocument] fires for the document *)
| Answered (call : nat) (symbols : option (list DocumentSymbol))
(** the query of the waiting call at position [call] settles: [None]
    when it fails, [Some []] when the answer is undefined or empty *).

(** [updateDocumentSymbols] up to its [await]. *)
Definition updateDocumentSymbols (shouldExclude : Uri -> bool)
           (isSupportedLanguage : string -> bool) (uri : Uri) (s : State) : State :=
  if shouldExclude uri then s
  else if negb (isSupportedLanguage (Uri_fsPath uri)) then s
  else
    {| symbolItems :=
         List.filter (fun item =>
                        negb (String.eqb (Uri_toString (symbol_uri item))
                                         (Uri_toString uri)))
                     (symbolItems s);
       dirtyDocSymbolUris := dirtyDocSymbolUris s;
       awaiting := awaiting s ++ [uri] |}.

(** [updateDocumentSymbols] from its [await] on. *)
Definition resume (uri : Uri) (symbols : option (list DocumentSymbol)) (s : State)
  : State :=
  match symbols with
  | None => s
  | Some symbols =>
      {| symbolItems :=
           match symbols with
           | [] => symbolItems s
           | _ :: _ => default (symbolItems s)
                               (processSymbols symbols uri "" (symbolItems s))
           end;
         dirtyDocSymbolUris := {[ Uri_toString uri ]} ∪ dirtyDocSymbolUris s;
         awaiting := awaiting s |}
  end.

Definition step (shouldExclude : Uri -> bool) (isSupportedLanguage : string -> bool)
           (s : State) (e : Event) : State :=
  match e with
  | Saved uri => updateDocumentSymbols shouldExclude isSupportedLanguage uri s
  | Answered call symbols =>
      match nth_error (awaiting s) call with
      | Some uri =>
          resume uri symbols
                 {| symbolItems := symbolItems s;
                    dirtyDocSymbolUris := dirtyDocSymbolUris s;
                    awaiting := firstn call (awaiting s) ++ skipn (S call) (awaiting s) |}
      | None => s
      end
  end.

Definition run (shouldExclude : Uri -> bool) (isSupportedLanguage : string -> bool)
           (trace : list Event) (s : State) : State :=
  fold_left (step shouldExclude isSupportedLanguage) trace s.

End WithVscode.
End DocumentUpdates.

(** ** More of [providers/file-provider.ts] and of [cache/storage.ts] *)

Module FileIndex.
Section WithVscode.
Context {V : Vscode}.
Import FileSearchProvider.

(** [saveCache]: the payload written, nothing without a storage location.
    [stat uri] is the mtime that the file system reports, [None] when the
    call fails. *)
Definition saveCache (storageUri : option Uri) (fingerprint : string)
           (stat : Uri -> option number) (fileItems : list FileSearchItem)
  : option FileIndexCache :=
  match storageUri with
  | None => None
  | Some _ =>
      Some {| fic_version := CACHE_VERSION;
              fic_workspaceFingerprint := fingerprint;
              fic_manifest :=
                List.map (fun item =>
                            {| manifest_uri := Uri_toString (file_uri item);
                               manifest_mtime := default (of_Z 0) (stat (file_uri item)) |})
                         fileItems;
              fic_items := List.map serializeFileItem fileItems |}
  end.

End WithVscode.
End FileIndex.

(** The comparison that [Array.prototype.sort] uses when it is given none,
    on strings of one-byte characters. *)
Definition defaultCompare (a b : string) : number :=
  match String.compare a b with
  | Lt => of_Z (-1)
  | Eq => of_Z 0
  | Gt => of_Z 1
  end.

(** [getWorkspaceFingerprint]: [folders] holds the printed uris of the
    workspace folders, [None] when there is no workspace. *)
Definition getWorkspaceFingerprint (folders : option (list string)) : string :=
  match folders with
  | None | Some [] => ""
  | Some uris => JsString.join "|" (SearchService.Array_sort defaultCompare uris)
  end.

(** ** [ui/search-ui.ts]: the category filters *)

Module SearchUI.

(** [enum FilterCategory] *)
Inductive FilterCategory : Type :=
| All
| Classes
| Files
| Symbols
| Actions
| Text.

Definition FilterCategory_eqb (a b : FilterCategory) : bool :=
  match a, b with
  | All, All | Classes, Classes | Files, Files
  | Symbols, Symbols | Actions, Actions | Text, Text => true
  | _, _ => false
  end.

Definition FILTER_ORDER : list FilterCategory :=
  [All; Classes; Files; Symbols; Actions; Text].

Definition getEnabledFilterOrder (indexing : ServiceSearch.IndexingConfig)
  : list FilterCategory :=
  List.filter (fun f =>
                 match f with
                 | All => true
                 | Classes | Symbols => ServiceSearch.includeSymbols indexing
                 | Files => ServiceSearch.includeFiles indexing
                 | Actions => ServiceSearch.includeCommands indexing
                 | Text => ServiceSearch.includeText indexing
                 end) FILTER_ORDER.

(** [order.indexOf(f)]: [None] stands for [-1]. *)
Fixpoint indexOf (order : list FilterCategory) (f : FilterCategory) : option nat :=
  match order with
  | [] => None
  | g :: order' =>
      if FilterCategory_eqb g f then Some 0 else option_map S (indexOf order' f)
  end.

(** [cycleToNextFilter]: [this.activeFilter] afterwards, [None] if it were
    undefined. *)
Definition cycleToNextFilter (indexing : ServiceSearch.IndexingConfig)
           (activeFilter : FilterCategory) : option FilterCategory :=
  let order := getEnabledFilterOrder indexing in
  let nextIdx :=
    match indexOf order activeFilter with
    | None => 0
    | Some idx => (idx + 1) mod length order
    end in
  nth_error order nextIdx.

(** [cycleToPreviousFilter] *)
Definition cycleToPreviousFilter (indexing : ServiceSearch.IndexingConfig)
           (activeFilter : FilterCategory) : option FilterCategory :=
  let order := getEnabledFilterOrder indexing in
  let prevIdx :=
    match indexOf order activeFilter with
    | None | Some 0 => length order - 1
    | Some idx => idx - 1
    end in
  nth_error order prevIdx.

Section WithVscode.
Context {V : Vscode}.

(** The test of [applyCategoryFilter] on one item. *)
Definition shownUnder (activeFilter : FilterCategory) (item : SearchItem) : bool :=
  match activeFilter with
  | All => true
  | Classes => String.eqb (type item) SearchItemType.Class
  | Files => String.eqb (type item) SearchItemType.File
  | Symbols => String.eqb (type item) SearchItemType.Symbol
  | Actions => String.eqb (type item) SearchItemType.Command
  | Text => String.eqb (type item) SearchItemType.TextMatch
  end.

Definition applyCategoryFilter (activeFilter : FilterCategory)
           (items : list SearchItem) (maxResults : Z) : list SearchItem :=
  let filtered :=
    match activeFilter with
    | All => items
    | _ => List.filter (shownUnder activeFilter) items
    end in
  FuzzySearcher.slice0 filtered maxResults.

(** The row that is made active when the list is replaced, in
    [performSearch] and in [applyFilterOnly]; a row is given by the item
    that [createQuickPickItem] made it from, and none is a separator.  It
    is the first row with the id of
    the row that was active, else the first row; [None] when the list is
    empty and no row is made active. *)
Definition activeAfter (lastActiveOriginalItem : option SearchItem)
           (items : list SearchItem) : option SearchItem :=
  let firstSelectable := List.hd_error items in
  match lastActiveOriginalItem with
  | Some last =>
      match List.find (fun qi : SearchItem => String.eqb (id qi) (id last)) items with
      | Some match_ => Some match_
      | None => firstSelectable
      end
  | None => firstSelectable
  end.

End WithVscode.
End SearchUI.

(** * Vocabulary of the properties *)

Section RankingVocabulary.
Context {V : Vscode}.
Import SearchService.

(** [a] is placed before [b] whichever way round the sort compares them. *)
Definition ranks_above (a b : SearchItem) : Prop :=
  is_negative (compareResults a b) = true /\ is_positive (compareResults b a) = true.

(** Activity does not decide between [a] and [b]: neither has an
    [activityScore], or both have the same one. *)
Definition activity_ties (a b : SearchItem) : Prop :=
  (activityScore a = None /\ activityScore b = None)
  \/ (exists ta tb, activityScore a = Some ta /\ activityScore b = Some tb
                    /\ strict_eq ta tb = true).

(** [priority || 50] *)
Definition effective_priority (i : SearchItem) : number :=
  or_default (priority i) (of_Z 50).

(** [item.priority = p], or the property removed. *)
Definition with_priority (i : SearchItem) (p : option number) : SearchItem :=
  with_base i (set_priority i p).
End RankingVocabulary.

(** ** A concrete editor, for examples

    URIs are their printed form, [fsPath] drops the [file://] prefix, and a
    range is its two end points. *)

Definition TextVscode : Vscode :=
  {| Uri := string;
     Uri_toString := fun u => u;
     Uri_parse := fun s => s;
     Uri_fsPath := fun u =>
       if JsString.startsWith u "file://" then JsString.substring_from 7 u else u;
     Range := Position * Position;
     Range_new := fun sl sc el ec =>
       ({| line := sl; character := sc |}, {| line := el; character := ec |});
     Range_start := fst;
     Range_end := snd |}.

Module Examples.

(** An item with no variant property. *)
Definition plain (name : string) (type : SearchItemType)
           (score activityScore priority : option number) : @SearchItem TextVscode :=
  {| base := {| id := type ++ ":" ++ name; label := name; description := "";
                detail := ""; type := type; iconPath := None; action := NoAction;
                score := score; activityScore := activityScore;
                priority := priority |};
     uri := None; relativePath := None; command := None; range := None;
     symbolKind := None; symbolGroup := None; lineText := None; matchText := None |}.

Definition T1 : number := of_Z 1700000000000.
Definition T2 : number := of_Z 1700000060000.

Definition A := plain "A" SearchItemType.Command (Some (of_Q (9 # 10))) (Some T1) None.
Definition B := plain "B" SearchItemType.Command (Some (of_Q (1 # 10))) (Some T2) None.
Definition C := plain "C" SearchItemType.Command (Some (of_Q (99 # 100))) None None.

(** Scores [0.50000000001] and [0.5], priorities 100 and 50. *)
Definition P100 :=
  plain "p100" SearchItemType.Command (Some (of_Q (50000000001 # 100000000000)))
        None (Some (of_Z 100)).
Definition P50 :=
  plain "p50" SearchItemType.Command (Some (of_Q (5 # 10))) None (Some (of_Z 50)).
Definition P100' :=
  plain "p100" SearchItemType.Command (Some (of_Q (5 # 10))) None (Some (of_Z 100)).
Definition P50' :=
  plain "p50" SearchItemType.Command (Some (of_Q (50000000001 # 100000000000)))
        None (Some (of_Z 50)).

End Examples.

(** ** Deduplication *)

Section DedupVocabulary.
Context {V : Vscode}.
Import SearchService.

(** [x] occurs in [stream] with no item of the same key before it. *)
Definition first_of_its_key (stream : list SearchItem) (x : SearchItem) : Prop :=
  exists pre post,
    stream = pre ++ x :: post
    /\ forall y, In y pre -> getDeduplicationKey y <> getDeduplicationKey x.

(** First-seen-wins, said directly: the items of [stream], in order, whose
    key is neither in [seen] nor the key of an earlier item. *)
Fixpoint first_seen (seen : list string) (stream : list SearchItem) : list SearchItem :=
  match stream with
  | [] => []
  | x :: stream' =>
      if in_dec string_dec (getDeduplicationKey x) seen
      then first_seen seen stream'
      else x :: first_seen (getDeduplicationKey x :: seen) stream'
  end.

(** The two items agree on what the key of a ranged item is built from,
    the type tag apart. *)
Definition same_place (a b : SearchItem) : Prop :=
  exists ua ub ra rb,
    uri a = Some ua /\ uri b = Some ub /\ range a = Some ra /\ range b = Some rb
    /\ JsString.replace_trailing_parens (label a)
       = JsString.replace_trailing_parens (label b)
    /\ Uri_toString ua = Uri_toString ub
    /\ Range_start ra = Range_start rb.
End DedupVocabulary.

Module DedupExamples.

Definition at_origin : @Range TextVscode :=
  ({| line := 3; character := 4 |}, {| line := 9; character := 1 |}).

(** A ranged item in [file:///w/a.ts], with the given label and type. *)
Definition ranged (name : string) (type : SearchItemType) : @SearchItem TextVscode :=
  {| base := {| id := "symbol:" ++ name ++ ":file:///w/a.ts:3:4"; label := name;
                description := ""; detail := "/w/a.ts"; type := type;
                iconPath := None; action := NoAction;
                score := None; activityScore := None; priority := None |};
     uri := Some ("file:///w/a.ts" : @Uri TextVscode);
     relativePath := None; command := None;
     range := Some at_origin;
     symbolKind := Some SymbolKind.Class; symbolGroup := None;
     lineText := None; matchText := None |}.

Definition as_class := ranged "Widget" SearchItemType.Class.
Definition as_symbol := ranged "Widget" SearchItemType.Symbol.
Definition as_file := ranged "Widget" SearchItemType.File.
Definition as_method := ranged "render()" SearchItemType.Symbol.
Definition as_method' := ranged "render" SearchItemType.TextMatch.

End DedupExamples.

(** ** Recency boosting *)

Module BoostExamples.

Definition now : number := of_Z 1700003600000.
Definition an_hour_ago : number := of_Z 1700000000000.
Definition half_an_hour_ago : number := of_Z 1700001800000.

(** [recentlyModifiedFiles]: [a.ts] touched half an hour ago. *)
Definition recent : gmap string number :=
  {[ "file:///w/a.ts" := half_an_hour_ago ]}.

Definition item (type : SearchItemType) (uri : string)
           (score activityScore : option number) : @SearchItem TextVscode :=
  {| base := {| id := type ++ ":" ++ uri; label := "a.ts"; description := "";
                detail := ""; type := type; iconPath := None; action := NoAction;
                score := score; activityScore := activityScore; priority := None |};
     uri := Some (uri : @Uri TextVscode);
     relativePath := None; command := None;
     range := None; symbolKind := None; symbolGroup := None;
     lineText := None; matchText := None |}.

Definition file_a := item SearchItemType.File "file:///w/a.ts" (Some (of_Q (1 # 2))) None.
Definition symbol_a := item SearchItemType.Symbol "file:///w/a.ts" (Some (of_Q (1 # 2))) None.
Definition picked_b :=
  item SearchItemType.Class "file:///w/b.ts" (Some (of_Q (1 # 2))) (Some half_an_hour_ago).
Definition picked_a :=
  item SearchItemType.Symbol "file:///w/a.ts" (Some (of_Q (1 # 2))) (Some half_an_hour_ago).

End BoostExamples.

(** ** Cache payloads *)

Module CacheExamples.

Definition folder : @FileSearchProvider.WorkspaceFolder TextVscode :=
  {| FileSearchProvider.folder_uri := ("file:///w" : @Uri TextVscode);
     FileSearchProvider.folder_name := "w" |}.

(** A file item that was selected once and carries a priority. *)
Definition used_file : @FileSearchItem TextVscode :=
  {| file_base :=
       {| id := "file:file:///w/a.ts"; label := "a.ts"; description := "a.ts";
          detail := "/w/a.ts"; type := SearchItemType.File;
          iconPath := Some (ThemeIcon "file-code");
          action := ShowTextDocument ("file:///w/a.ts" : @Uri TextVscode);
          score := Some (of_Q (7 # 10));
          activityScore := Some (of_Z 1700000000000);
          priority := Some (of_Z 80) |};
     file_uri := ("file:///w/a.ts" : @Uri TextVscode);
     file_relativePath := Some "a.ts" |}.

(** A method that was selected once. *)
Definition used_symbol : @SymbolSearchItem TextVscode :=
  {| symbol_base :=
       {| id := "symbol:render:file:///w/a.ts:3:4"; label := "render";
          description := "Method - Widget"; detail := "/w/a.ts";
          type := SearchItemType.Symbol;
          iconPath := Some (ThemeIcon "symbol-method");
          action := RevealRange ("file:///w/a.ts" : @Uri TextVscode)
                                (DedupExamples.at_origin);
          score := Some (of_Q (7 # 10));
          activityScore := Some (of_Z 1700000000000);
          priority := Some (of_Z 90) |};
     symbol_uri := ("file:///w/a.ts" : @Uri TextVscode);
     symbol_range := DedupExamples.at_origin;
     symbol_symbolKind := SymbolKind.Method;
     symbol_symbolGroup := Some SymbolKindGroup.Function |}.

(** A cached entry whose type was written as [file]. *)
Definition mistyped : SerializedSymbolItem :=
  {| ss_id := "symbol:render:file:///w/a.ts:3:4"; ss_label := "render";
     ss_description := "Method"; ss_detail := "/w/a.ts"; ss_type := "file";
     ss_uri := "file:///w/a.ts";
     ss_range := {| sr_start := {| line := 3; character := 4 |};
                    sr_end := {| line := 9; character := 1 |} |};
     ss_symbolKind := SymbolKind.Method; ss_symbolGroup := None;
     ss_priority := Some (of_Z 90) |}.

End CacheExamples.

(** ** Queries *)

(** The query is empty or holds white space only. *)
Definition whitespace_only (query : JsString.code_units) : Prop :=
  forall c, In c query -> JsString.is_whitespace c = true.

Module QueryExamples.

Definition three : list (@SearchItem TextVscode) :=
  [Examples.A; Examples.B; Examples.C].

(** A matcher that would score every target. *)
Definition go_all (query : JsString.code_units) (targets : list string) (limit : option Z)
  : list (nat * number) :=
  List.map (fun i => (i, of_Z (-100))) (seq 0 (length targets)).

Definition filter_all (candidates : list string) (query : JsString.code_units)
           (maxResults : option Z) : list nat :=
  seq 0 (length candidates).

Definition score_one (text : string) (query : JsString.code_units) : number := of_Z 100.

(** A query of white space beyond ASCII: a blank, a tab, a no-break space,
    an ideographic space, a byte-order mark and a line separator. *)
Definition blanks : JsString.code_units := [32; 9; 160; 12288; 65279; 8232]%N.

End QueryExamples.

(** ** Refreshes in flight *)

Module RefreshVocabulary.
Import RefreshIndex.

(** No forced call occurs in the trace. *)
Definition unforced (trace : list Event) : Prop :=
  forall e, In e trace -> is_forced_call e = false.

(** The states in which at most one refresh runs and every suspended caller
    waits for it: nothing in flight and nobody waiting, or one refresh [p]
    in flight, held by [refreshPromise], awaited first by the caller that
    started it and then by callers that share it. *)
Definition single_flight (s : State) : Prop :=
  (refreshPromise s = None /\ in_flight s = [] /\ reactions s = [])
  \/ exists p c shared,
      refreshPromise s = Some p /\ in_flight s = [p]
      /\ reactions s
         = {| on_promise := p; caller := c; continuation := AwaitOwn |} :: shared
      /\ Forall (fun r => on_promise r = p /\ continuation r = AwaitShared) shared.

(** A first call, then two forced calls while its refresh is in flight, then
    the end of that refresh. *)
Definition two_forced_calls : list Event :=
  [Call false; Call true; Call true; Settle 0].

End RefreshVocabulary.

(** ** Cache validation *)

Section CacheVocabulary.
Context {V : Vscode}.

(** The cache carries the current version and the current fingerprint. *)
Definition accepted (version : number) (workspaceFingerprint fingerprint : string) : Prop :=
  strict_eq version CACHE_VERSION = true /\ workspaceFingerprint = fingerprint.

(** The mtime a manifest records for a uri (the last entry counts). *)
Definition cached_mtime (manifest : list ManifestEntry) (uri : string) : option number :=
  Map_of_entries (List.map (fun e => (manifest_uri e, manifest_mtime e)) manifest) !! uri.

(** The manifest records exactly this mtime for the file. *)
Definition unchanged_in (manifest : list ManifestEntry) (uri : string) (mtime : number)
  : bool :=
  match cached_mtime manifest uri with
  | Some cached => strict_eq cached mtime
  | None => false
  end.

(** File index: the serialized item that is reused for a current file, if
    its mtime is the cached one and the cache holds an item for it. *)
Definition file_reused (cache : FileIndexCache) (entry : Uri * number)
  : option SerializedFileItem :=
  if unchanged_in (fic_manifest cache) (Uri_toString (fst entry)) (snd entry)
  then Map_of_entries (List.map (fun i => (sf_uri i, i)) (fic_items cache))
       !! Uri_toString (fst entry)
  else None.

(** Document symbols: the serialized symbols that are reused for a current
    file, if its mtime is the cached one. *)
Definition symbols_reused (cachedFiles : gmap string DocumentSymbolsFileEntry)
           (entry : Uri * number) : option (list SerializedSymbolItem) :=
  match cachedFiles !! Uri_toString (fst entry) with
  | Some e => if strict_eq (dsf_mtime e) (snd entry) then Some (dsf_symbols e) else None
  | None => None
  end.

Definition is_none {A : Type} (o : option A) : bool :=
  match o with Some _ => false | None => true end.

End CacheVocabulary.

Module StaleExamples.

Definition a_ts : @Uri TextVscode := "file:///w/a.ts".
Definition b_ts : @Uri TextVscode := "file:///w/b.ts".

Definition cached_file (uri name : string) : SerializedFileItem :=
  {| sf_id := "file:" ++ uri; sf_label := name; sf_description := "from the cache";
     sf_detail := "/w/" ++ name; sf_type := "file"; sf_uri := uri |}.

(** A file-index cache of the current version and workspace, written when
    [a.ts] had mtime 100 and [b.ts] mtime 200. *)
Definition file_cache : FileIndexCache :=
  {| fic_version := of_Z 1;
     fic_workspaceFingerprint := "file:///w";
     fic_manifest := [ {| manifest_uri := a_ts; manifest_mtime := of_Z 100 |};
                       {| manifest_uri := b_ts; manifest_mtime := of_Z 200 |} ];
     fic_items := [ cached_file a_ts "a.ts"; cached_file b_ts "b.ts" ] |}.

(** Now [b.ts] has mtime 250; [a.ts] is as it was. *)
Definition current : list (@Uri TextVscode * number) :=
  [ (a_ts, of_Z 100); (b_ts, of_Z 250) ].

Definition current_manifest : list ManifestEntry :=
  [ {| manifest_uri := a_ts; manifest_mtime := of_Z 100 |};
    {| manifest_uri := b_ts; manifest_mtime := of_Z 250 |} ].


Definition cached_symbol (uri name : string) : SerializedSymbolItem :=
  {| ss_id := "symbol:" ++ name ++ ":" ++ uri ++ ":0:0"; ss_label := name;
     ss_description := "from the cache"; ss_detail := uri; ss_type := "symbol";
     ss_uri := uri;
     ss_range := {| sr_start := {| line := 0; character := 0 |};
                    sr_end := {| line := 1; character := 0 |} |};
     ss_symbolKind := SymbolKind.Function; ss_symbolGroup := None;
     ss_priority := Some (of_Z 90) |}.

Definition symbols_cache : WorkspaceSymbolsCache :=
  {| wsc_version := of_Z 1;
     wsc_workspaceFingerprint := "file:///w";
     wsc_manifest := Some (fic_manifest file_cache);
     wsc_items := Some [ cached_symbol a_ts "f"; cached_symbol b_ts "g" ] |}.

Definition document_cache : DocumentSymbolsCache :=
  {| dsc_version := of_Z 1;
     dsc_workspaceFingerprint := "file:///w";
     dsc_files :=
       Some (Map_of_entries
               [ (a_ts : string, {| dsf_mtime := of_Z 100;
                                    dsf_symbols := [cached_symbol a_ts "f"] |});
                 (b_ts : string, {| dsf_mtime := of_Z 200;
                                    dsf_symbols := [cached_symbol b_ts "g"] |}) ]) |}.

(** What the editor answers for a file that is indexed again. *)
Definition indexed_again (uri : @Uri TextVscode) : list (@SymbolSearchItem TextVscode) :=
  [ {| symbol_base :=
         {| id := "symbol:h:" ++ uri ++ ":5:0"; label := "h";
            description := "indexed again"; detail := uri;
            type := SearchItemType.Symbol; iconPath := None; action := NoAction;
            score := None; activityScore := None; priority := Some (of_Z 90) |};
       symbol_uri := uri;
       symbol_range := ({| line := 5; character := 0 |}, {| line := 6; character := 0 |});
       symbol_symbolKind := SymbolKind.Function;
       symbol_symbolGroup := None |} ].

End StaleExamples.

(** * Vocabulary of the further properties *)

(** The number is not NaN. *)
Definition is_number (x : number) : Prop := x <> NaN.

(** [x <= y] for numbers that are not NaN. *)
Definition at_most (x y : number) : Prop := gt x y = false.

(** [(a, b) => key(b) - key(a)]: larger keys first. *)
Definition descending {A : Type} (key : A -> number) (a b : A) : number :=
  sub (key b) (key a).

(** [(a, b) => key(a) - key(b)]: smaller keys first. *)
Definition ascending {A : Type} (key : A -> number) (a b : A) : number :=
  sub (key a) (key b).

Section ExtraVocabulary.
Context {V : Vscode}.
Import SearchService.

(** The item with its score removed: what a search may not change. *)
Definition unscored (i : SearchItem) : SearchItem := with_base i (set_score i None).

(** The indexed item is one that a selection of [item] stamps: it has the
    key of [item], or [item] is a text match, symbol or class and the indexed
    item is a symbol or class with the same label up to a trailing "()". *)
Definition related_to (item indexed : SearchItem) : bool :=
  String.eqb (getDeduplicationKey indexed) (getDeduplicationKey item)
  || (ServiceActivity.is_text_symbol_or_class item
      && is_symbol_or_class indexed
      && String.eqb (JsString.replace_trailing_parens (label indexed))
                    (JsString.replace_trailing_parens (label item))).

End ExtraVocabulary.

Module UsageExamples.

(** Every kind of provider is enabled. *)
Definition everything : ServiceSearch.IndexingConfig :=
  {| ServiceSearch.includeFiles := true; ServiceSearch.includeSymbols := true;
     ServiceSearch.includeCommands := true; ServiceSearch.includeText := true |}.

(** The workspace-symbol provider delivers two symbols, the document-symbol
    provider one of them again, the command provider fails. *)
Definition delivered (name : string) : option (list (@SearchItem TextVscode)) :=
  if String.eqb name "symbols" then Some [DedupExamples.as_method; DedupExamples.as_class]
  else if String.eqb name "docSymbols" then Some [DedupExamples.as_method]
  else if String.eqb name "commands" then None
  else Some [].

End UsageExamples.

Module ActivityExamples.

Definition storage : @Uri TextVscode := "file:///storage".
Definition workspace : string := "file:///w".

(** 501 remembered selections, [file:0] the oldest. *)
Definition remembered : JsMap.t number :=
  List.map (fun n => (("file:" ++ JsString.of_nat n)%string, of_Z (1700000000000 + Z.of_nat n)))
           (seq 0 501).

End ActivityExamples.

(** ** Recently used documents *)

(** [recentlyModifiedFiles] after the documents of [events] were tracked, each
    at its time, in this order, starting from the given map. *)
Definition tracked_from (recent : JsMap.t number) (events : list (string * number))
  : JsMap.t number :=
  fold_left (fun recent e => ServiceActivity.trackDocumentActivity recent (fst e) (snd e))
            events recent.

(** No stored timestamp is later than [now]. *)
Definition none_later (recent : JsMap.t number) (now : number) : Prop :=
  forall e, In e recent -> at_most (snd e) now.

Module RecencyExamples.

(** Twenty documents, [file:///w/0.ts] used first. *)
Definition twenty : JsMap.t number :=
  List.map (fun n => (("file:///w/" ++ JsString.of_nat n ++ ".ts")%string,
                      of_Z (1700000000000 + Z.of_nat n)))
           (seq 0 20).

End RecencyExamples.

(** ** Deferred updates *)

(** The quick pick stays open throughout the trace: no event hides it. *)
Definition stays_open (trace : list ServiceUpdates.Event) : Prop :=
  forall e, In e trace -> e <> ServiceUpdates.SetActive false.

(** ** Providers *)

(** What the provider registered as [name] delivers, nothing if it fails. *)
Definition delivers {V : Vscode} (getItems : string -> option (list SearchItem))
           (name : string) : list SearchItem :=
  default [] (getItems name).

(** ** Symbol trees *)

Section SymbolVocabulary.
Context {V : Vscode}.
Import DocumentSymbols.

(** One item for the symbol and one for each of its descendants, each with
    the name of its parent as container. *)
Fixpoint tree_items (uri : Uri) (container : string) (symbol : DocumentSymbol)
  : list SymbolSearchItem :=
  symbolItemOf uri container symbol
    :: (fix forest (l : list DocumentSymbol) : list SymbolSearchItem :=
          match l with
          | [] => []
          | child :: l' => tree_items uri (ds_name symbol) child ++ forest l'
          end) (ds_children symbol).

Definition forest_items (uri : Uri) (container : string) (symbols : list DocumentSymbol)
  : list SymbolSearchItem :=
  flat_map (tree_items uri container) symbols.

(** The entries that a pass over [symbols] pushes, in the order of the
    pushes. *)
Definition pushed (symbols : list DocumentSymbol) : list StackEntry :=
  flat_map (fun symbol =>
              match ds_children symbol with
              | [] => []
              | _ :: _ => [(ds_children symbol, ds_name symbol)]
              end) symbols.

(** The iterations that a stack still needs at most. *)
Definition stack_weight (stack : list StackEntry) : nat :=
  list_sum (List.map (fun e => S (symbolCounts (fst e))) stack).

(** A symbol item as the index holds it, fresh from a provider. *)
Definition built (name : string) (kind : Z) (containerName : string)
           (uri : Uri) (range reveal : Range) : SearchItem :=
  of_symbol (symbolItemFor name kind containerName uri range reveal).

End SymbolVocabulary.

(** ** Workspace symbols *)

Section WorkspaceSymbolVocabulary.
Context {V : Vscode}.
Import WorkspaceSymbols.

(** [x] occurs in [stream] with no symbol of the same identifier before
    it. *)
Definition first_with_its_id (stream : list SymbolInformation) (x : SymbolInformation)
  : Prop :=
  exists above below,
    stream = above ++ x :: below
    /\ forall y, In y above -> getSymbolId y <> getSymbolId x.

(** The symbols of [stream], in order, whose identifier is neither in [seen]
    nor the identifier of an earlier symbol of [stream]. *)
Fixpoint first_met (seen : list string) (stream : list SymbolInformation)
  : list SymbolInformation :=
  match stream with
  | [] => []
  | x :: stream' =>
      if in_dec string_dec (getSymbolId x) seen
      then first_met seen stream'
      else x :: first_met (getSymbolId x :: seen) stream'
  end.

End WorkspaceSymbolVocabulary.

Module SymbolExamples.
Import WorkspaceSymbols.

Definition at_line (n : nat) : @Range TextVscode :=
  ({| line := n; character := 0 |}, {| line := n; character := 6 |}).

Definition widget : @SymbolInformation TextVscode :=
  {| si_name := "Widget"; si_kind := SymbolKind.Class; si_containerName := "";
     si_uri := ("file:///w/a.ts" : @Uri TextVscode); si_range := at_line 3 |}.

Definition render : @SymbolInformation TextVscode :=
  {| si_name := "render"; si_kind := SymbolKind.Method; si_containerName := "Widget";
     si_uri := ("file:///w/a.ts" : @Uri TextVscode); si_range := at_line 5 |}.

(** The editor answers the empty pattern with one symbol, the pattern [r*]
    with that symbol and another, and the pattern [x*] with nothing at all. *)
Definition answers (pattern : string) : option (list SymbolInformation) :=
  if String.eqb pattern "" then Some [widget]
  else if String.eqb pattern "r*" then Some [render; widget]
  else if String.eqb pattern "x*" then None
  else Some [].

Definition nothing_excluded (uri : @Uri TextVscode) : bool := false.

(** A second symbol with the identifier of [render]: same name, file and
    start, another kind. *)
Definition render_again : @SymbolInformation TextVscode :=
  {| si_name := "render"; si_kind := SymbolKind.Function; si_containerName := "";
     si_uri := ("file:///w/a.ts" : @Uri TextVscode); si_range := at_line 5 |}.

(** An editor that answers the empty pattern with that identifier twice, and
    the pattern [r*] with it once more. *)
Definition repeated (pattern : string) : option (list SymbolInformation) :=
  if String.eqb pattern "" then Some [render; render_again]
  else if String.eqb pattern "r*" then Some [render_again; widget; render]
  else Some [].

End SymbolExamples.

(** The item belongs to the document. *)
Definition in_document {V : Vscode} (uri : Uri) (item : SymbolSearchItem) : bool :=
  String.eqb (Uri_toString (symbol_uri item)) (Uri_toString uri).

Module TreeExamples.
Import DocumentSymbols.

(** A class with two methods, one of which holds a local function. *)
Definition helper : @DocumentSymbol TextVscode :=
  {| ds_name := "helper"; ds_kind := SymbolKind.Function;
     ds_range := SymbolExamples.at_line 6; ds_selectionRange := SymbolExamples.at_line 6;
     ds_children := [] |}.

Definition render : @DocumentSymbol TextVscode :=
  {| ds_name := "render"; ds_kind := SymbolKind.Method;
     ds_range := SymbolExamples.at_line 5; ds_selectionRange := SymbolExamples.at_line 5;
     ds_children := [helper] |}.

Definition dispose : @DocumentSymbol TextVscode :=
  {| ds_name := "dispose"; ds_kind := SymbolKind.Method;
     ds_range := SymbolExamples.at_line 9; ds_selectionRange := SymbolExamples.at_line 9;
     ds_children := [] |}.

Definition widget : @DocumentSymbol TextVscode :=
  {| ds_name := "Widget"; ds_kind := SymbolKind.Class;
     ds_range := SymbolExamples.at_line 3; ds_selectionRange := SymbolExamples.at_line 3;
     ds_children := [render; dispose] |}.

(** The editor reports the class for every file. *)
Definition reported (uri : @Uri TextVscode) : option (list DocumentSymbol) :=
  Some [widget].

End TreeExamples.

(** ** The file index *)

Section FileVocabulary.
Context {V : Vscode}.
Import FileSearchProvider.

(** The workspace folder that a file is indexed under: the first one whose
    printed uri is a prefix of the file's. *)
Definition folder_of (workspaceFolders : list WorkspaceFolder) (uri : Uri) : option nat :=
  find_folder workspaceFolders uri 0.

Definition in_folder (workspaceFolders : list WorkspaceFolder) (k : nat) (uri : Uri) : bool :=
  match folder_of workspaceFolders uri with
  | Some j => Nat.eqb j k
  | None => false
  end.

(** The mtime that the sort of the file items goes by. *)
Definition listed_mtime (currentEntries : list (Uri * number)) (item : FileSearchItem)
  : number :=
  nullish (Map_of_entries (List.map (fun e => (Uri_toString (fst e), snd e)) currentEntries)
             !! Uri_toString (file_uri item))
          (of_Z 0).

End FileVocabulary.

Module FileExamples.
Import FileSearchProvider.

Definition w : @WorkspaceFolder TextVscode :=
  {| folder_uri := ("file:///w" : @Uri TextVscode); folder_name := "w" |}.

Definition mtimes (uri : @Uri TextVscode) : option number :=
  if String.eqb uri StaleExamples.a_ts then Some (of_Z 100)
  else if String.eqb uri StaleExamples.b_ts then Some (of_Z 250)
  else None.

Definition indexed : list (@FileSearchItem TextVscode) :=
  [fileItemOf StaleExamples.b_ts w; fileItemOf StaleExamples.a_ts w].

End FileExamples.

(** The entry that the incremental save writes for a document: its mtime
    and the symbols the index holds for it; none if the file is gone. *)
Definition patched_entry {V : Vscode} (stat : Uri -> option number)
           (symbolItems : list SymbolSearchItem) (uriStr : string)
  : option DocumentSymbolsFileEntry :=
  match stat (Uri_parse uriStr) with
  | Some mtime =>
      Some {| dsf_mtime := mtime;
              dsf_symbols :=
                List.map serializeSymbolItem
                         (List.filter
                            (fun item => String.eqb (Uri_toString (symbol_uri item)) uriStr)
                            symbolItems) |}
  | None => None
  end.


(** * Properties *)

(** ** Numbers *)
Section NumberFacts.

Lemma Qcompare_red_l (a b : Q) : Qcompare (Qred a) b = Qcompare a b.
Proof. now rewrite Qred_correct. Qed.

Lemma Qcompare_red_r (a b : Q) : Qcompare a (Qred b) = Qcompare a b.
Proof. now rewrite Qred_correct. Qed.

Lemma Qeq_bool_red_l (a b : Q) : Qeq_bool (Qred a) b = Qeq_bool a b.
Proof.
  destruct (Qeq_bool a b) eqn:E.
  - apply Qeq_bool_iff. rewrite Qred_correct. now apply Qeq_bool_iff.
  - destruct (Qeq_bool (Qred a) b) eqn:E'; [|reflexivity].
    apply Qeq_bool_iff in E'. rewrite Qred_correct in E'.
    apply Qeq_bool_iff in E'. congruence.
Qed.

Lemma Qcompare_minus_zero (a b : Q) : Qcompare (a - b) 0 = Qcompare a b.
Proof.
  destruct (Qcompare_spec a b) as [H|H|H].
  - rewrite <- Qeq_alt. lra.
  - rewrite <- Qlt_alt. lra.
  - rewrite <- Qgt_alt. lra.
Qed.

Lemma gt_Finite (a b : Q) : gt (Finite a) (Finite b) = true <-> (b < a)%Q.
Proof.
  unfold gt. rewrite Qgt_alt. destruct (Qcompare a b); intuition congruence.
Qed.

Lemma gt_Finite_false (a b : Q) : gt (Finite a) (Finite b) = false <-> (a <= b)%Q.
Proof.
  unfold gt. destruct (Qcompare_spec a b) as [H|H|H]; split; intros; try congruence; try lra.
Qed.

(** [x > y] makes [x - y] positive, [y - x] negative and [x !== y]. *)
Lemma gt_sub (x y : number) :
  gt x y = true ->
  is_positive (sub x y) = true /\ is_negative (sub y x) = true
  /\ strict_eq x y = false /\ strict_eq y x = false.
Proof.
  destruct x as [| | |a], y as [| | |b];
    try (cbn; intros; try discriminate; repeat split; reflexivity).
  intros H. apply gt_Finite in H.
  unfold is_positive, is_negative, lt, sub, strict_eq.
  rewrite !gt_Finite, !Qred_correct.
  repeat split; try lra.
  - destruct (Qeq_bool a b) eqn:E; [|reflexivity]. apply Qeq_bool_iff in E. lra.
  - destruct (Qeq_bool b a) eqn:E; [|reflexivity]. apply Qeq_bool_iff in E. lra.
Qed.

End NumberFacts.

(** ** Ranking *)
Section RankingFacts.
Context {V : Vscode}.
Import SearchService.

Lemma strict_eq_sym (x y : number) : strict_eq x y = strict_eq y x.
Proof.
  destruct x as [| | |a], y as [| | |b]; try reflexivity. cbn.
  destruct (Qeq_bool a b) eqn:E, (Qeq_bool b a) eqn:E'; try reflexivity.
  - apply Qeq_bool_iff in E. symmetry in E. apply Qeq_bool_iff in E. congruence.
  - apply Qeq_bool_iff in E'. symmetry in E'. apply Qeq_bool_iff in E'. congruence.
Qed.

Lemma abs_Finite_gt (q e : Q) :
  gt (abs (Finite q)) (Finite e) = true <-> (e < q \/ e < - q)%Q.
Proof.
  unfold abs, Qsign. destruct (Qcompare_spec q 0) as [H|H|H]; rewrite gt_Finite;
    rewrite ?Qred_correct; split; intros; try lra.
  all: destruct H0; lra || (try lra).
Qed.

(** A difference beyond the tolerance is seen from both sides. *)
Lemma gt_epsilon_sub (x y : number) :
  gt (sub x y) SCORE_EPSILON = true ->
  gt (abs (sub x y)) SCORE_EPSILON = true
  /\ gt (abs (sub y x)) SCORE_EPSILON = true
  /\ is_negative (sub y x) = true /\ is_positive (sub x y) = true.
Proof.
  destruct x as [| | |a], y as [| | |b];
    try (cbn; intros; try discriminate; repeat split; reflexivity).
  unfold sub, SCORE_EPSILON, is_negative, is_positive, lt.
  intros H. apply gt_Finite in H. rewrite Qred_correct in H.
  rewrite !abs_Finite_gt, !gt_Finite, !Qred_correct.
  repeat split; lra.
Qed.

Lemma abs_sub_sym (x y : number) : abs (sub x y) = abs (sub y x).
Proof.
  destruct x as [| | |a], y as [| | |b]; try reflexivity.
  unfold sub, abs, Qsign. rewrite !Qcompare_red_l, !Qcompare_minus_zero.
  rewrite <- (Qcompare_antisym a b).
  destruct (Qcompare_spec a b) as [H|H|H]; cbn; f_equal.
  - apply Qred_complete. lra.
  - apply Qred_complete. rewrite Qred_correct. lra.
  - apply Qred_complete. rewrite Qred_correct. lra.
Qed.

Lemma compareResults_activity_first (a b : SearchItem) (ta : number) :
  activityScore a = Some ta -> activityScore b = None -> ranks_above a b.
Proof.
  intros Ha Hb. unfold ranks_above, compareResults, has_activity.
  rewrite Ha, Hb. split; reflexivity.
Qed.

Lemma compareResults_recent_first (a b : SearchItem) (ta tb : number) :
  activityScore a = Some ta -> activityScore b = Some tb -> gt ta tb = true ->
  ranks_above a b.
Proof.
  intros Ha Hb Hgt. destruct (gt_sub _ _ Hgt) as (Hp & Hn & Hab & Hba).
  unfold ranks_above, compareResults, has_activity. rewrite Ha, Hb. cbn.
  rewrite Hab, Hba. cbn. split; assumption.
Qed.

Lemma compareResults_activity_ties (a b : SearchItem) :
  activity_ties a b ->
  compareResults a b = by_score_then_priority a b
  /\ compareResults b a = by_score_then_priority b a.
Proof.
  intros [[Ha Hb] | (ta & tb & Ha & Hb & Heq)];
    unfold compareResults, has_activity; rewrite Ha, Hb; cbn.
  - split; reflexivity.
  - rewrite (strict_eq_sym tb ta), Heq. cbn. split; reflexivity.
Qed.

Lemma by_score_higher_first (a b : SearchItem) :
  gt (sub (score_or_neg_infinity a) (score_or_neg_infinity b)) SCORE_EPSILON = true ->
  is_negative (by_score_then_priority a b) = true
  /\ is_positive (by_score_then_priority b a) = true.
Proof.
  intros H. destruct (gt_epsilon_sub _ _ H) as (H1 & H2 & H3 & H4).
  unfold by_score_then_priority. cbv zeta. rewrite H1, H2. split; assumption.
Qed.

Lemma by_score_within_epsilon (a b : SearchItem) :
  gt (abs (sub (score_or_neg_infinity a) (score_or_neg_infinity b))) SCORE_EPSILON = false ->
  by_score_then_priority a b = sub (effective_priority b) (effective_priority a)
  /\ by_score_then_priority b a = sub (effective_priority a) (effective_priority b).
Proof.
  intros H. unfold by_score_then_priority. cbv zeta.
  rewrite (abs_sub_sym (score_or_neg_infinity b)), H. split; reflexivity.
Qed.

End RankingFacts.

Section SortingFacts.
Context {V : Vscode}.
Import SearchService.

Lemma is_negative_not_positive (x : number) :
  is_negative x = true -> is_positive x = false.
Proof.
  destruct x as [| | |q]; try (cbn; congruence).
  unfold is_negative, is_positive, lt. rewrite gt_Finite, gt_Finite_false. lra.
Qed.

(** Three items that the comparator orders strictly are sorted into that
    order from any arrangement. *)
Lemma sort_three (x y z : SearchItem) (l : list SearchItem) :
  ranks_above x y -> ranks_above y z -> ranks_above x z ->
  l ≡ₚ [x; y; z] ->
  sortResultsByPriority l = [x; y; z].
Proof.
  intros [Hxy Hyx] [Hyz Hzy] [Hxz Hzx] Hl.
  apply is_negative_not_positive in Hxy, Hyz, Hxz.
  symmetry in Hl. apply permutations_Permutation in Hl.
  cbn in Hl.
  repeat (apply elem_of_cons in Hl as [-> | Hl]);
    try (unfold sortResultsByPriority, Array_sort; cbn;
         rewrite ?Hxy, ?Hyx, ?Hyz, ?Hzy, ?Hxz, ?Hzx; cbn;
         rewrite ?Hxy, ?Hyx, ?Hyz, ?Hzy, ?Hxz, ?Hzx; reflexivity).
  inversion Hl.
Qed.

(** The arrangement [x; y; z] is the only one of the three items in which
    no item is followed at once by one the comparator puts before it. *)
Lemma ordered_three_unique (x y z : SearchItem) (l : list SearchItem) :
  ranks_above x y -> ranks_above y z -> ranks_above x z ->
  l ≡ₚ [x; y; z] ->
  (forall pre a b post,
      l = pre ++ a :: b :: post -> is_positive (compareResults a b) = false) ->
  l = [x; y; z].
Proof.
  intros [_ Hyx] [_ Hzy] [_ Hzx] Hl Hord.
  symmetry in Hl. apply permutations_Permutation in Hl. cbn in Hl.
  repeat (apply elem_of_cons in Hl as [-> | Hl]); try reflexivity.
  - pose proof (Hord [] y x [z] eq_refl). congruence.
  - pose proof (Hord [] y z [x] eq_refl) as _.
    pose proof (Hord [y] z x [] eq_refl). congruence.
  - pose proof (Hord [x] z y [] eq_refl). congruence.
  - pose proof (Hord [] z x [y] eq_refl). congruence.
  - pose proof (Hord [] z y [x] eq_refl). congruence.
  - inversion Hl.
Qed.

Lemma sort_two (x y : SearchItem) (l : list SearchItem) :
  ranks_above x y -> l ≡ₚ [x; y] -> sortResultsByPriority l = [x; y].
Proof.
  intros [Hxy Hyx] Hl. apply is_negative_not_positive in Hxy.
  symmetry in Hl. apply permutations_Permutation in Hl. cbn in Hl.
  repeat (apply elem_of_cons in Hl as [-> | Hl]);
    try (unfold sortResultsByPriority, Array_sort; cbn;
         rewrite ?Hxy, ?Hyx; reflexivity).
  inversion Hl.
Qed.
End SortingFacts.

Section RankingClaims.
Context {V : Vscode}.
Import SearchService.

Lemma within_epsilon_Finite (qa qb : Q) :
  (qa - qb <= 1 # 1000000000)%Q -> (qb - qa <= 1 # 1000000000)%Q ->
  gt (abs (sub (Finite qa) (Finite qb))) SCORE_EPSILON = false.
Proof.
  intros H1 H2. unfold sub, SCORE_EPSILON.
  destruct (gt (abs (Finite (Qred (qa - qb)))) (Finite (1 # 1000000000))) eqn:E;
    [|reflexivity].
  apply abs_Finite_gt in E. rewrite Qred_correct in E. lra.
Qed.

Lemma ranks_above_by_priority (a b : SearchItem) :
  compareResults a b = sub (effective_priority b) (effective_priority a) ->
  compareResults b a = sub (effective_priority a) (effective_priority b) ->
  gt (effective_priority a) (effective_priority b) = true ->
  ranks_above a b.
Proof.
  intros Hab Hba Hgt. destruct (gt_sub _ _ Hgt) as (Hp & Hn & _).
  unfold ranks_above. rewrite Hab, Hba. split; assumption.
Qed.

(** C2.  The comparator of [sortResultsByPriority] places an item that has
    an [activityScore] before one that has none; of two items that have
    one, the one with the larger timestamp first; when activity does not
    decide, the item whose score (minus infinity when missing) is higher by
    more than the tolerance first; and when the scores are within the
    tolerance, the item with the higher priority ([priority || 50]) first.
    For A (activity T1, score 0.9), B (activity T2 > T1, score 0.1) and
    C (no activity, score 0.99), in any initial arrangement, the sorted
    order is B, A, C. *)
Theorem sortResultsByPriority_order :
  (forall (a b : SearchItem) (ta : number),
      activityScore a = Some ta -> activityScore b = None -> ranks_above a b)
  /\ (forall (a b : SearchItem) (ta tb : number),
         activityScore a = Some ta -> activityScore b = Some tb ->
         gt ta tb = true -> ranks_above a b)
  /\ (forall a b : SearchItem,
         activity_ties a b ->
         gt (sub (score_or_neg_infinity a) (score_or_neg_infinity b)) SCORE_EPSILON = true ->
         ranks_above a b)
  /\ (forall (a b : SearchItem) (s : number),
         activity_ties a b -> score a = Some s -> gt s NegInfinity = true ->
         score b = None -> ranks_above a b)
  /\ (forall a b : SearchItem,
         activity_ties a b ->
         gt (abs (sub (score_or_neg_infinity a) (score_or_neg_infinity b)))
            SCORE_EPSILON = false ->
         gt (effective_priority a) (effective_priority b) = true ->
         ranks_above a b)
  /\ (forall (a b c : SearchItem) (t1 t2 : number) (l : list SearchItem),
         activityScore a = Some t1 -> score a = Some (of_Q (9 # 10)) ->
         activityScore b = Some t2 -> score b = Some (of_Q (1 # 10)) ->
         gt t2 t1 = true ->
         activityScore c = None -> score c = Some (of_Q (99 # 100)) ->
         l ≡ₚ [a; b; c] ->
         sortResultsByPriority l = [b; a; c]).
Proof.
  split; [|split; [|split; [|split; [|split]]]].
  - exact compareResults_activity_first.
  - exact compareResults_recent_first.
  - intros a b Htie Hgt. destruct (compareResults_activity_ties a b Htie) as [Hab Hba].
    unfold ranks_above. rewrite Hab, Hba. now apply by_score_higher_first.
  - intros a b s Htie Hs Hfin Hb.
    destruct (compareResults_activity_ties a b Htie) as [Hab Hba].
    unfold ranks_above. rewrite Hab, Hba. apply by_score_higher_first.
    unfold score_or_neg_infinity. rewrite Hs, Hb.
    destruct s as [| | |q]; try discriminate; reflexivity.
  - intros a b Htie Hband Hgt.
    destruct (compareResults_activity_ties a b Htie) as [Hab Hba].
    destruct (by_score_within_epsilon a b Hband) as [Hab' Hba'].
    apply ranks_above_by_priority; congruence.
  - intros a b c t1 t2 l Ha Hsa Hb Hsb Hgt Hc Hsc Hl.
    apply sort_three.
    + eapply compareResults_recent_first; eassumption.
    + eapply compareResults_activity_first; eassumption.
    + eapply compareResults_activity_first; eassumption.
    + rewrite Hl. apply perm_swap.
Qed.

(** C4.  When neither item has an [activityScore] and their scores differ
    by at most 1e-9, the comparator is the difference of the priorities
    ([priority || 50]) and nothing else, so the higher priority goes first;
    scores 0.50000000001 and 0.5 (either way round) with priorities 100 and
    50 sort with the priority-100 item first. *)
Theorem sortResultsByPriority_epsilon_tie :
  (forall (a b : SearchItem) (qa qb : Q),
      activityScore a = None -> activityScore b = None ->
      score a = Some (Finite qa) -> score b = Some (Finite qb) ->
      (qa - qb <= 1 # 1000000000)%Q -> (qb - qa <= 1 # 1000000000)%Q ->
      compareResults a b = sub (effective_priority b) (effective_priority a)
      /\ (gt (effective_priority a) (effective_priority b) = true -> ranks_above a b))
  /\ (forall (a b : SearchItem) (l : list SearchItem),
         activityScore a = None -> activityScore b = None ->
         (score a = Some (of_Q (50000000001 # 100000000000))
          /\ score b = Some (of_Q (5 # 10))
          \/ score a = Some (of_Q (5 # 10))
             /\ score b = Some (of_Q (50000000001 # 100000000000))) ->
         priority a = Some (of_Z 100) -> priority b = Some (of_Z 50) ->
         l ≡ₚ [a; b] ->
         sortResultsByPriority l = [a; b]).
Proof.
  assert (Hgen : forall (a b : SearchItem) (qa qb : Q),
             activityScore a = None -> activityScore b = None ->
             score a = Some (Finite qa) -> score b = Some (Finite qb) ->
             (qa - qb <= 1 # 1000000000)%Q -> (qb - qa <= 1 # 1000000000)%Q ->
             compareResults a b = sub (effective_priority b) (effective_priority a)
             /\ compareResults b a = sub (effective_priority a) (effective_priority b)).
  { intros a b qa qb Ha Hb Hsa Hsb H1 H2.
    destruct (compareResults_activity_ties a b (or_introl (conj Ha Hb))) as [Hab Hba].
    rewrite Hab, Hba. apply by_score_within_epsilon.
    unfold score_or_neg_infinity. rewrite Hsa, Hsb.
    now apply within_epsilon_Finite. }
  split.
  - intros a b qa qb Ha Hb Hsa Hsb H1 H2.
    destruct (Hgen a b qa qb Ha Hb Hsa Hsb H1 H2) as [Hab Hba].
    split; [assumption|]. now apply ranks_above_by_priority.
  - intros a b l Ha Hb Hs Hpa Hpb Hl.
    apply sort_two; [|assumption].
    assert (Hprio : gt (effective_priority a) (effective_priority b) = true)
      by (unfold effective_priority; rewrite Hpa, Hpb; reflexivity).
    destruct Hs as [[Hsa Hsb] | [Hsa Hsb]].
    + destruct (Hgen a b _ _ Ha Hb Hsa Hsb) as [Hab Hba];
        [vm_compute; discriminate | vm_compute; discriminate |].
      now apply ranks_above_by_priority.
    + destruct (Hgen a b _ _ Ha Hb Hsa Hsb) as [Hab Hba];
        [vm_compute; discriminate | vm_compute; discriminate |].
      now apply ranks_above_by_priority.
Qed.

(** C10.  A priority of exactly 0 is compared as the default 50: replacing
    it by a missing priority, or by 50, changes no comparison, on either
    side of the comparator. *)
Theorem sortResultsByPriority_priority_zero :
  forall a b : SearchItem,
    compareResults (with_priority a (Some (of_Z 0))) b
    = compareResults (with_priority a None) b
    /\ compareResults b (with_priority a (Some (of_Z 0)))
       = compareResults b (with_priority a None)
    /\ compareResults (with_priority a (Some (of_Z 0))) b
       = compareResults (with_priority a (Some (of_Z 50))) b
    /\ compareResults b (with_priority a (Some (of_Z 0)))
       = compareResults b (with_priority a (Some (of_Z 50))).
Proof.
  intros a b. repeat split; reflexivity.
Qed.

End RankingClaims.

(** The comparator at work on the items of the examples. *)
Lemma sortResultsByPriority_order_witness :
  ranks_above Examples.A Examples.C
  /\ ranks_above Examples.B Examples.A
  /\ ranks_above Examples.C Examples.P100
  /\ ranks_above Examples.C (Examples.plain "D" SearchItemType.Command None None None)
  /\ ranks_above Examples.P100' Examples.P50
  /\ SearchService.sortResultsByPriority [Examples.C; Examples.A; Examples.B]
     = [Examples.B; Examples.A; Examples.C].
Proof.
  destruct (@sortResultsByPriority_order TextVscode) as (H1 & H2 & H3 & H4 & H5 & H6).
  split; [|split; [|split; [|split; [|split]]]].
  - apply (H1 Examples.A Examples.C Examples.T1); reflexivity.
  - apply (H2 Examples.B Examples.A Examples.T2 Examples.T1); reflexivity.
  - apply (H3 Examples.C Examples.P100).
    + left. split; reflexivity.
    + reflexivity.
  - apply (H4 Examples.C _ (of_Q (99 # 100))).
    + left. split; reflexivity.
    + reflexivity.
    + reflexivity.
    + reflexivity.
  - apply (H5 Examples.P100' Examples.P50).
    + left. split; reflexivity.
    + reflexivity.
    + reflexivity.
  - apply (H6 Examples.A Examples.B Examples.C Examples.T1 Examples.T2);
      try reflexivity.
    exact (Permutation_cons_append [Examples.A; Examples.B] Examples.C).
Defined.

(** With equal scores, an item of priority 0 is placed before one of
    priority 10: it is compared as 50. *)
Example priority_zero_outranks_ten :
  ranks_above (Examples.plain "zero" SearchItemType.Command (Some (of_Q (1 # 2))) None
                              (Some (of_Z 0)))
              (Examples.plain "ten" SearchItemType.Command (Some (of_Q (1 # 2))) None
                              (Some (of_Z 10))).
Proof. split; reflexivity. Qed.

Lemma sortResultsByPriority_epsilon_tie_witness :
  SearchService.compareResults Examples.P100 Examples.P50 = of_Z (-50)
  /\ SearchService.sortResultsByPriority [Examples.P50; Examples.P100]
     = [Examples.P100; Examples.P50]
  /\ SearchService.sortResultsByPriority [Examples.P50'; Examples.P100']
     = [Examples.P100'; Examples.P50'].
Proof.
  destruct (@sortResultsByPriority_epsilon_tie TextVscode) as [H1 H2].
  split; [|split].
  - assert (Hle1 : (Qred (50000000001 # 100000000000) - Qred (5 # 10)
                    <= 1 # 1000000000)%Q) by (vm_compute; discriminate).
    assert (Hle2 : (Qred (5 # 10) - Qred (50000000001 # 100000000000)
                    <= 1 # 1000000000)%Q) by (vm_compute; discriminate).
    destruct (H1 Examples.P100 Examples.P50 _ _ eq_refl eq_refl eq_refl eq_refl Hle1 Hle2)
      as [E _].
    rewrite E. reflexivity.
  - apply (H2 Examples.P100 Examples.P50); try reflexivity.
    + left. split; reflexivity.
    + apply perm_swap.
  - apply (H2 Examples.P100' Examples.P50'); try reflexivity.
    + right. split; reflexivity.
    + apply perm_swap.
Defined.

(** ** Deduplication *)

Section JsMapFacts.
Context {A : Type}.

Lemma JsMap_get_None (m : JsMap.t A) (k : string) :
  JsMap.get m k = None <-> ~ In k (JsMap.keys m).
Proof.
  induction m as [|[k' v] m IH]; cbn.
  - tauto.
  - destruct (String.eqb_spec k' k) as [->|Hne].
    + split; [discriminate | tauto].
    + rewrite IH. tauto.
Qed.

Lemma JsMap_has_true (m : JsMap.t A) (k : string) :
  JsMap.has m k = true <-> In k (JsMap.keys m).
Proof.
  unfold JsMap.has. destruct (JsMap.get m k) eqn:E.
  - split; [|reflexivity]. intros _.
    destruct (in_dec string_dec k (JsMap.keys m)) as [Hin|Hout]; [assumption|].
    apply JsMap_get_None in Hout. congruence.
  - apply JsMap_get_None in E. split; [discriminate | tauto].
Qed.

Lemma JsMap_set_fresh (m : JsMap.t A) (k : string) (v : A) :
  ~ In k (JsMap.keys m) -> JsMap.set m k v = m ++ [(k, v)].
Proof.
  induction m as [|[k' v'] m IH]; cbn; intros Hout.
  - reflexivity.
  - destruct (String.eqb_spec k' k) as [->|Hne]; [tauto|].
    rewrite IH by tauto. reflexivity.
Qed.
End JsMapFacts.

Section DedupFacts.
Context {V : Vscode}.
Import SearchService.

Lemma mergeItem_seen (m : JsMap.t SearchItem) (x : SearchItem) :
  In (getDeduplicationKey x) (JsMap.keys m) -> mergeItem m x = m.
Proof.
  intros Hin. unfold mergeItem. apply JsMap_has_true in Hin. now rewrite Hin.
Qed.

Lemma mergeItem_new (m : JsMap.t SearchItem) (x : SearchItem) :
  ~ In (getDeduplicationKey x) (JsMap.keys m) ->
  mergeItem m x = m ++ [(getDeduplicationKey x, x)].
Proof.
  intros Hout. unfold mergeItem.
  destruct (JsMap.has m (getDeduplicationKey x)) eqn:E.
  - apply JsMap_has_true in E. tauto.
  - cbn. now apply JsMap_set_fresh.
Qed.

Lemma mergeBatch_concat (arrivals : list (list SearchItem)) (m : JsMap.t SearchItem) :
  fold_left mergeBatch arrivals m = fold_left mergeItem (concat arrivals) m.
Proof.
  revert m. induction arrivals as [|batch arrivals IH]; intros m; cbn.
  - reflexivity.
  - rewrite fold_left_app. apply IH.
Qed.

Lemma first_seen_ext (seen seen' : list string) (stream : list SearchItem) :
  (forall k, In k seen <-> In k seen') -> first_seen seen stream = first_seen seen' stream.
Proof.
  revert seen seen'. induction stream as [|x stream IH]; intros seen seen' Hiff; cbn.
  - reflexivity.
  - destruct (in_dec string_dec (getDeduplicationKey x) seen) as [Hin|Hout],
             (in_dec string_dec (getDeduplicationKey x) seen') as [Hin'|Hout'].
    + now apply IH.
    + apply Hiff in Hin. tauto.
    + apply Hiff in Hin'. tauto.
    + f_equal. apply IH. intros k. cbn. rewrite Hiff. tauto.
Qed.

(** The merge loop computes first-seen-wins. *)
Lemma merge_first_seen (stream : list SearchItem) (m : JsMap.t SearchItem) :
  JsMap.values (fold_left mergeItem stream m)
  = JsMap.values m ++ first_seen (JsMap.keys m) stream.
Proof.
  revert m. induction stream as [|x stream IH]; intros m; cbn [fold_left first_seen].
  - now rewrite app_nil_r.
  - destruct (in_dec string_dec (getDeduplicationKey x) (JsMap.keys m)) as [Hin|Hout].
    + rewrite mergeItem_seen by assumption. apply IH.
    + rewrite mergeItem_new by assumption. rewrite IH.
      unfold JsMap.values, JsMap.keys. rewrite !map_app. cbn [List.map snd fst].
      rewrite <- app_assoc. cbn [app]. do 2 f_equal.
      apply first_seen_ext. intros k. rewrite in_app_iff. cbn. tauto.
Qed.

Lemma first_seen_keys_fresh (seen : list string) (stream : list SearchItem) (x : SearchItem) :
  In x (first_seen seen stream) -> ~ In (getDeduplicationKey x) seen.
Proof.
  revert seen. induction stream as [|y stream IH]; intros seen; cbn.
  - tauto.
  - destruct (in_dec string_dec (getDeduplicationKey y) seen) as [Hin|Hout].
    + apply IH.
    + intros [->|Hx]; [assumption|]. apply IH in Hx. cbn in Hx. tauto.
Qed.

Lemma first_seen_NoDup (seen : list string) (stream : list SearchItem) :
  List.NoDup (List.map getDeduplicationKey (first_seen seen stream)).
Proof.
  revert seen. induction stream as [|x stream IH]; intros seen; cbn.
  - constructor.
  - destruct (in_dec string_dec (getDeduplicationKey x) seen) as [Hin|Hout].
    + apply IH.
    + cbn. constructor; [|apply IH].
      intros Hdup. apply in_map_iff in Hdup as (y & Hk & Hy).
      apply first_seen_keys_fresh in Hy. cbn in Hy. rewrite Hk in Hy. tauto.
Qed.

Lemma first_seen_In (seen : list string) (stream : list SearchItem) (x : SearchItem) :
  In x (first_seen seen stream) <->
  ~ In (getDeduplicationKey x) seen /\ first_of_its_key stream x.
Proof.
  revert seen. induction stream as [|y stream IH]; intros seen; cbn.
  - split; [tauto|]. intros (_ & pre & post & Heq & _). now destruct pre.
  - destruct (in_dec string_dec (getDeduplicationKey y) seen) as [Hin|Hout].
    + rewrite IH. split.
      * intros (Hx & pre & post & -> & Hpre). split; [assumption|].
        exists (y :: pre), post. split; [reflexivity|].
        intros z [<-|Hz]; [congruence | now apply Hpre].
      * intros (Hx & pre & post & Heq & Hpre). split; [assumption|].
        destruct pre as [|z pre]; cbn in Heq; injection Heq as -> ->.
        -- tauto.
        -- exists pre, post. split; [reflexivity|]. intros w Hw. apply Hpre. now right.
    + cbn. rewrite IH. split.
      * intros [<-|(Hx & pre & post & -> & Hpre)].
        -- split; [assumption|]. exists [], stream. split; [reflexivity|]. intros ? [].
        -- cbn in Hx. split; [tauto|].
           exists (y :: pre), post. split; [reflexivity|].
           intros z [<-|Hz]; [intros E; apply Hx; now left | now apply Hpre].
      * intros (Hx & pre & post & Heq & Hpre).
        destruct pre as [|z pre]; cbn in Heq; injection Heq as -> ->.
        -- now left.
        -- right. split.
           ++ cbn. intros [E|Hin]; [|tauto]. apply (Hpre z); [now left | assumption].
           ++ exists pre, post. split; [reflexivity|]. intros w Hw. apply Hpre. now right.
Qed.

Lemma mergePass_first_seen (arrivals : list (list SearchItem)) :
  mergePass arrivals = first_seen [] (concat arrivals).
Proof.
  unfold mergePass. rewrite mergeBatch_concat, merge_first_seen. reflexivity.
Qed.

Lemma applyPersistedActivityScores_keys
      (persisted : gmap string number) (allItems : list SearchItem) :
  List.map getDeduplicationKey (applyPersistedActivityScores persisted allItems)
  = List.map getDeduplicationKey allItems.
Proof.
  unfold applyPersistedActivityScores. rewrite map_map. apply map_ext.
  intros item. destruct (persisted !! getDeduplicationKey item); reflexivity.
Qed.

Lemma same_place_key (a b : SearchItem) :
  same_place a b ->
  String.eqb (type a) SearchItemType.Class = String.eqb (type b) SearchItemType.Class ->
  getDeduplicationKey a = getDeduplicationKey b.
Proof.
  intros (ua & ub & ra & rb & Hua & Hub & Hra & Hrb & Hl & Hu & Hr) Ht.
  unfold getDeduplicationKey. rewrite Hua, Hub, Hra, Hrb, Hl, Hu, Hr, Ht. reflexivity.
Qed.

End DedupFacts.

Section DedupClaims.
Context {V : Vscode}.
Import SearchService.

(** C3, as the code has it.  After a merge pass (the streamed and final
    merges of [refreshIndex], in whatever order the batches arrive, or the
    merge of [updateIndexFromProviders]), and after the persisted activity
    scores are re-applied, no two items of the unified set have the same
    deduplication key, and the items kept are exactly the first ones seen
    for their keys.  Two items that have [uri] and [range] and agree on the
    normalized label, the uri and the start of the range have the same key
    when both or neither are typed [class], whatever their types otherwise;
    when exactly one of them is typed [class] their keys differ. *)
Theorem merge_pass_dedup :
  (forall (arrivals : list (list SearchItem)) (persisted : gmap string number),
      List.NoDup (List.map getDeduplicationKey (mergePass arrivals))
      /\ List.NoDup (List.map getDeduplicationKey
                              (applyPersistedActivityScores persisted (mergePass arrivals)))
      /\ forall x, In x (mergePass arrivals) <-> first_of_its_key (concat arrivals) x)
  /\ (forall (provided : list (option (list SearchItem))) (persisted : gmap string number),
         List.NoDup (List.map getDeduplicationKey
                              (applyPersistedActivityScores
                                 persisted (updateIndexFromProviders_merge provided))))
  /\ (forall a b : SearchItem,
         same_place a b ->
         (type a = SearchItemType.Class <-> type b = SearchItemType.Class) ->
         getDeduplicationKey a = getDeduplicationKey b)
  /\ (forall a b : SearchItem,
         same_place a b ->
         type a = SearchItemType.Class -> type b <> SearchItemType.Class ->
         getDeduplicationKey a <> getDeduplicationKey b).
Proof.
  split; [|split; [|split]].
  - intros arrivals persisted. rewrite applyPersistedActivityScores_keys.
    rewrite mergePass_first_seen. repeat split.
    + apply first_seen_NoDup.
    + apply first_seen_NoDup.
    + intros Hx. now apply first_seen_In in Hx.
    + intros Hx. apply first_seen_In. split; [intros []|assumption].
  - intros provided persisted. rewrite applyPersistedActivityScores_keys.
    unfold updateIndexFromProviders_merge. rewrite mergePass_first_seen.
    apply first_seen_NoDup.
  - intros a b Hsame Htype. apply same_place_key; [assumption|].
    destruct (String.eqb_spec (type a) SearchItemType.Class) as [Ha|Ha],
             (String.eqb_spec (type b) SearchItemType.Class) as [Hb|Hb];
      tauto.
  - intros a b (ua & ub & ra & rb & Hua & Hub & Hra & Hrb & _) Ha Hb.
    unfold getDeduplicationKey. rewrite Hua, Hub, Hra, Hrb.
    apply String.eqb_neq in Hb. rewrite Ha, Hb. cbn. discriminate.
Qed.

End DedupClaims.

(** A ranged item mislabelled [file], or found by text search, takes the key
    of the symbol at its place; the streamed merge keeps the first of them. *)
Lemma merge_pass_dedup_witness :
  SearchService.getDeduplicationKey DedupExamples.as_symbol
  = SearchService.getDeduplicationKey DedupExamples.as_file
  /\ SearchService.getDeduplicationKey DedupExamples.as_method
     = SearchService.getDeduplicationKey DedupExamples.as_method'
  /\ SearchService.getDeduplicationKey DedupExamples.as_class
     <> SearchService.getDeduplicationKey DedupExamples.as_file
  /\ (In DedupExamples.as_symbol
         (SearchService.mergePass
            [[DedupExamples.as_symbol]; [DedupExamples.as_file; DedupExamples.as_method]])
      /\ ~ In DedupExamples.as_file
           (SearchService.mergePass
              [[DedupExamples.as_symbol]; [DedupExamples.as_file; DedupExamples.as_method]])).
Proof.
  destruct (@merge_pass_dedup TextVscode) as (Hpass & _ & Hsame & Hdiff).
  assert (Hplace : forall n m t u,
             JsString.replace_trailing_parens n = JsString.replace_trailing_parens m ->
             same_place (DedupExamples.ranged n t) (DedupExamples.ranged m u)).
  { intros n m t u Hl. unfold same_place. cbn.
    exists "file:///w/a.ts", "file:///w/a.ts", DedupExamples.at_origin, DedupExamples.at_origin.
    repeat split; assumption. }
  split; [|split; [|split]].
  - apply Hsame; [apply Hplace; reflexivity|]. split; discriminate.
  - apply Hsame; [apply Hplace; reflexivity|]. split; discriminate.
  - apply Hdiff; [apply Hplace; reflexivity | reflexivity | discriminate].
  - destruct (Hpass [[DedupExamples.as_symbol]; [DedupExamples.as_file; DedupExamples.as_method]] ∅)
      as (_ & _ & Hfirst).
    split.
    + apply Hfirst. exists [], [DedupExamples.as_file; DedupExamples.as_method].
      split; [reflexivity|]. intros ? [].
    + intros Hin. apply Hfirst in Hin as (pre & post & Heq & Hpre).
      destruct pre as [|y pre]; [discriminate|].
      injection Heq as <- Heq. apply (Hpre DedupExamples.as_symbol); [now left|].
      reflexivity.
Defined.

(** C3 as stated fails: a [class] item and a [symbol] item at the same place,
    with the same label, have different keys, and a merge keeps both. *)
Lemma dedup_key_depends_on_class_tag :
  same_place DedupExamples.as_class DedupExamples.as_symbol
  /\ SearchService.getDeduplicationKey DedupExamples.as_class = "class:Widget:file:///w/a.ts:3:4"
  /\ SearchService.getDeduplicationKey DedupExamples.as_symbol = "symbol:Widget:file:///w/a.ts:3:4"
  /\ SearchService.getDeduplicationKey DedupExamples.as_class
     <> SearchService.getDeduplicationKey DedupExamples.as_symbol
  /\ SearchService.mergePass [[DedupExamples.as_class; DedupExamples.as_symbol]]
     = [DedupExamples.as_class; DedupExamples.as_symbol].
Proof.
  split; [|split; [|split; [|split]]].
  - unfold same_place. cbn.
    exists "file:///w/a.ts", "file:///w/a.ts", DedupExamples.at_origin, DedupExamples.at_origin.
    repeat split; reflexivity.
  - reflexivity.
  - reflexivity.
  - discriminate.
  - reflexivity.
Qed.

(** ** Recency boosting *)

Section BoostClaims.
Context {V : Vscode}.
Import SearchService.

Lemma type_eqb_true (i : SearchItem) (t : SearchItemType) :
  type i = t -> String.eqb (type i) t = true.
Proof. intros ->. apply String.eqb_refl. Qed.

Lemma recencyScore_hour_old (now timestamp : Q) :
  (now - timestamp == 3600000)%Q ->
  recencyScore (Finite now) (Finite timestamp) = of_Z 0.
Proof.
  intros Hage. unfold recencyScore, oneHour, of_Z, sub, div.
  change (Qeq_bool (inject_Z (60 * 60 * 1000)) 0) with false. cbv iota.
  unfold max.
  replace (gt _ _) with false; [reflexivity|].
  symmetry. apply gt_Finite_false. rewrite !Qred_correct, Hage.
  vm_compute. discriminate.
Qed.

Lemma recencyScore_just_now (now : Q) :
  recencyScore (Finite now) (Finite now) = of_Z 1.
Proof.
  unfold recencyScore, oneHour, of_Z, sub, div.
  change (Qeq_bool (inject_Z (60 * 60 * 1000)) 0) with false. cbv iota.
  assert (E : Qred (inject_Z 1 - Qred (Qred (now - now) / inject_Z (60 * 60 * 1000)))
              = inject_Z 1).
  { change (inject_Z 1) with (Qred (inject_Z 1)) at 2. apply Qred_complete.
    rewrite !Qred_correct. unfold Qdiv. ring. }
  rewrite E. reflexivity.
Qed.

(** C5.  [recencyScore] is [max(0, 1 - age / 1 hour)]: 0 for a timestamp
    exactly one hour old, 1 for one that is not old at all.  For an item
    with a numeric score [s]: a File item whose uri is in the
    recently-modified map (with a timestamp that is a time, hence truthy)
    ends with [s * (1 + recency * weight)]; a Symbol or Class item whose
    uri is in the map gets the factor [1 + recency * weight * 0.8]; a
    Symbol or Class item with its own [activityScore] gets, after that, the
    factor [1 + recency * weight * 1.5] and then the term [recency * 0.4]
    added, the recency being that of the [activityScore]. *)
Theorem boostRecentlyModifiedItems_boosts :
  (forall now timestamp : number,
      recencyScore now timestamp
      = max (of_Z 0) (sub (of_Z 1) (div (sub now timestamp) (of_Z 3600000))))
  /\ (forall now timestamp : Q,
         (now - timestamp == 3600000)%Q ->
         recencyScore (Finite now) (Finite timestamp) = of_Z 0)
  /\ (forall now : Q, recencyScore (Finite now) (Finite now) = of_Z 1)
  /\ (forall (weight now : number) (recent : gmap string number) (results : list SearchItem),
         boostRecentlyModifiedItems weight now recent results
         = List.map (boostItem weight now recent) results)
  /\ (forall (weight now : number) (recent : gmap string number)
             (item : SearchItem) (u : Uri) (timestamp s : number),
         type item = SearchItemType.File -> uri item = Some u ->
         recent !! Uri_toString u = Some timestamp -> truthy timestamp = true ->
         score item = Some s ->
         score (boostItem weight now recent item)
         = Some (mul s (add (of_Z 1) (mul (recencyScore now timestamp) weight))))
  /\ (forall (weight now : number) (recent : gmap string number)
             (item : SearchItem) (u : Uri) (timestamp s : number),
         type item = SearchItemType.Symbol \/ type item = SearchItemType.Class ->
         uri item = Some u ->
         recent !! Uri_toString u = Some timestamp -> truthy timestamp = true ->
         score item = Some s -> activityScore item = None ->
         score (boostItem weight now recent item)
         = Some (mul s (add (of_Z 1)
                            (mul (mul (recencyScore now timestamp) weight) (of_Q (8 # 10))))))
  /\ (forall (weight now : number) (recent : gmap string number)
             (item : SearchItem) (used s : number),
         type item = SearchItemType.Symbol \/ type item = SearchItemType.Class ->
         activityScore item = Some used ->
         score (boostByFile weight now recent item) = Some s ->
         score (boostItem weight now recent item)
         = Some (add (mul s (add (of_Z 1)
                                 (mul (mul (recencyScore now used) weight) (of_Q (15 # 10)))))
                     (mul (recencyScore now used) (of_Q (4 # 10))))).
Proof.
  split; [|split; [|split; [|split; [|split; [|split]]]]].
  - reflexivity.
  - exact recencyScore_hour_old.
  - exact recencyScore_just_now.
  - reflexivity.
  - intros weight now recent item u timestamp s Ht Hu Hr Htruthy Hs.
    unfold boostItem, boostByFile.
    rewrite (type_eqb_true _ _ Ht), Hu, Hr, Htruthy, Hs.
    unfold boostByActivity, is_symbol_or_class. cbn [assign_score with_base base type set_score].
    rewrite Ht. reflexivity.
  - intros weight now recent item u timestamp s Ht Hu Hr Htruthy Hs Hact.
    unfold boostItem, boostByFile.
    assert (Hfile : String.eqb (type item) SearchItemType.File = false)
      by (destruct Ht as [-> | ->]; reflexivity).
    assert (Hsym : is_symbol_or_class item = true)
      by (unfold is_symbol_or_class; destruct Ht as [-> | ->]; reflexivity).
    rewrite Hfile, Hsym, Hu, Hr, Htruthy, Hs.
    unfold boostByActivity.
    cbn [assign_score with_base base activityScore set_score]. rewrite Hact.
    destruct (is_symbol_or_class _); reflexivity.
  - intros weight now recent item used s Ht Hact Hs.
    unfold boostItem, boostByActivity.
    assert (Hkeep : forall i, is_symbol_or_class (boostByFile weight now recent i)
                              = is_symbol_or_class i
                              /\ activityScore (boostByFile weight now recent i)
                                 = activityScore i).
    { intros i.
      assert (Hcases : boostByFile weight now recent i = i
                       \/ exists s', boostByFile weight now recent i = assign_score i s').
      { unfold boostByFile.
        repeat match goal with
               | |- context [match ?x with _ => _ end] => destruct x
               end; eauto. }
      destruct Hcases as [-> | [s' ->]]; split; reflexivity. }
    destruct (Hkeep item) as [Hk1 Hk2]. rewrite Hk1, Hk2, Hact, Hs.
    assert (Hsym : is_symbol_or_class item = true)
      by (unfold is_symbol_or_class; destruct Ht as [-> | ->]; reflexivity).
    rewrite Hsym. reflexivity.
Qed.

End BoostClaims.

Lemma boostRecentlyModifiedItems_boosts_witness :
  SearchService.recencyScore BoostExamples.now BoostExamples.an_hour_ago = of_Z 0
  /\ score (SearchService.boostItem (of_Z 2) BoostExamples.now BoostExamples.recent
                                    BoostExamples.file_a)
     = Some (of_Z 1)
  /\ score (SearchService.boostItem (of_Z 2) BoostExamples.now BoostExamples.recent
                                    BoostExamples.symbol_a)
     = Some (of_Q (9 # 10))
  /\ score (SearchService.boostItem (of_Z 2) BoostExamples.now BoostExamples.recent
                                    BoostExamples.picked_b)
     = Some (of_Q (29 # 20))
  /\ score (SearchService.boostItem (of_Z 2) BoostExamples.now BoostExamples.recent
                                    BoostExamples.picked_a)
     = Some (of_Q (49 # 20)).
Proof.
  destruct (@boostRecentlyModifiedItems_boosts TextVscode)
    as (_ & Hhour & _ & _ & Hfile & Hsym & Hact).
  split; [|split; [|split; [|split]]].
  - apply (Hhour 1700003600000%Q 1700000000000%Q). reflexivity.
  - rewrite (Hfile (of_Z 2) BoostExamples.now BoostExamples.recent BoostExamples.file_a
                   "file:///w/a.ts" BoostExamples.half_an_hour_ago (of_Q (1 # 2)));
      reflexivity.
  - rewrite (Hsym (of_Z 2) BoostExamples.now BoostExamples.recent BoostExamples.symbol_a
                  "file:///w/a.ts" BoostExamples.half_an_hour_ago (of_Q (1 # 2)));
      try reflexivity.
    left. reflexivity.
  - rewrite (Hact (of_Z 2) BoostExamples.now BoostExamples.recent BoostExamples.picked_b
                  BoostExamples.half_an_hour_ago (of_Q (1 # 2)));
      try reflexivity.
    right. reflexivity.
  - rewrite (Hact (of_Z 2) BoostExamples.now BoostExamples.recent BoostExamples.picked_a
                  BoostExamples.half_an_hour_ago (of_Q (9 # 10)));
      try reflexivity.
    left. reflexivity.
Defined.

(** ** Cache serialization *)

Lemma TextVscode_laws : VscodeLaws TextVscode.
Proof.
  split.
  - reflexivity.
  - intros [[sl sc] [el ec]]. reflexivity.
Qed.

Section SerializationClaims.
Context {V : Vscode}.

(** C9.  Whatever type a cached document-symbol entry holds, the item
    deserialized from it is typed [symbol] or [class]: [class] when the
    entry says ["class"], [symbol] for anything else, never [file]. *)
Theorem deserializeSymbolItem_type :
  forall s : SerializedSymbolItem,
    (type (DocumentSymbolProvider.deserializeSymbolItem s) = SearchItemType.Symbol
     \/ type (DocumentSymbolProvider.deserializeSymbolItem s) = SearchItemType.Class)
    /\ type (DocumentSymbolProvider.deserializeSymbolItem s) <> SearchItemType.File
    /\ (ss_type s = "class" ->
        type (DocumentSymbolProvider.deserializeSymbolItem s) = SearchItemType.Class)
    /\ (ss_type s <> "class" ->
        type (DocumentSymbolProvider.deserializeSymbolItem s) = SearchItemType.Symbol).
Proof.
  intros s. unfold DocumentSymbolProvider.deserializeSymbolItem. cbn.
  destruct (String.eqb_spec (ss_type s) "class") as [E|E].
  - repeat split; try (right; reflexivity); try discriminate; tauto.
  - repeat split; try (left; reflexivity); try discriminate; tauto.
Qed.

(** Hence an item read back from the document-symbol cache never takes
    the key of a file, and a file item does. *)
Lemma provider_items_keys :
  (forall s : SerializedSymbolItem,
      let key := SearchService.getDeduplicationKey
                   (of_symbol (DocumentSymbolProvider.deserializeSymbolItem s)) in
      (exists rest, key = "symbol:" ++ rest)%string
      \/ (exists rest, key = "class:" ++ rest)%string)
  /\ (forall (uri : Uri) (folder : FileSearchProvider.WorkspaceFolder),
         SearchService.getDeduplicationKey (of_file (FileSearchProvider.fileItemOf uri folder))
         = ("file:" ++ Uri_toString uri)%string).
Proof.
  split.
  - intros s key. subst key.
    unfold DocumentSymbolProvider.deserializeSymbolItem, SearchService.getDeduplicationKey.
    cbn [of_symbol uri range base symbol_base symbol_uri symbol_range type
         deserializeSymbolItemAs].
    destruct (String.eqb (ss_type s) "class"); [right | left]; eexists; reflexivity.
  - reflexivity.
Qed.

Context {L : VscodeLaws V}.

(** C7, as the code has it.  Serializing and then deserializing a File
    item gives back its id, label, description, detail and uri, typed
    [file]; a Symbol or Class item comes back with its id, label,
    description, detail, type, uri, range, symbol kind, symbol group and
    priority, from either symbol provider.  In both cases [score] and
    [activityScore] are absent, the icon
    is rebuilt from the file name or the symbol kind, and the action is
    rebuilt from the uri (and range); a File item also loses
    [relativePath] and [priority].  A file item as [processFileBatch]
    builds it comes back unchanged. *)
Theorem cache_round_trip :
  (forall item : FileSearchItem,
      let item' := FileSearchProvider.deserializeFileItem
                     (FileSearchProvider.serializeFileItem item) in
      id item' = id item /\ label item' = label item
      /\ description item' = description item /\ detail item' = detail item
      /\ type item' = SearchItemType.File
      /\ file_uri item' = file_uri item
      /\ iconPath item'
         = Some (FileSearchProvider.getFileIcon
                   (FileSearchProvider.fileNameOf (Uri_fsPath (file_uri item))))
      /\ action item' = ShowTextDocument (file_uri item)
      /\ score item' = None /\ activityScore item' = None
      /\ priority item' = None /\ file_relativePath item' = None)
  /\ (forall (uri : Uri) (folder : FileSearchProvider.WorkspaceFolder),
         FileSearchProvider.deserializeFileItem
           (FileSearchProvider.serializeFileItem (FileSearchProvider.fileItemOf uri folder))
         = FileSearchProvider.fileItemOf uri folder)
  /\ (forall item : SymbolSearchItem,
         type item = SearchItemType.Symbol \/ type item = SearchItemType.Class ->
         let item' := DocumentSymbolProvider.deserializeSymbolItem
                        (serializeSymbolItem item) in
         id item' = id item /\ label item' = label item
         /\ description item' = description item /\ detail item' = detail item
         /\ type item' = type item
         /\ symbol_uri item' = symbol_uri item
         /\ symbol_range item' = symbol_range item
         /\ symbol_symbolKind item' = symbol_symbolKind item
         /\ symbol_symbolGroup item' = symbol_symbolGroup item
         /\ priority item' = priority item
         /\ iconPath item' = Some (getSymbolIcon (symbol_symbolKind item))
         /\ action item' = RevealRange (symbol_uri item) (symbol_range item)
         /\ score item' = None /\ activityScore item' = None)
  /\ (forall item : SymbolSearchItem,
         type item = SearchItemType.Symbol \/ type item = SearchItemType.Class ->
         SymbolSearchProvider.deserializeSymbolItem (serializeSymbolItem item)
         = DocumentSymbolProvider.deserializeSymbolItem (serializeSymbolItem item)).
Proof.
  split; [|split; [|split]].
  - intros item. cbn. rewrite Uri_parse_toString. repeat split; reflexivity.
  - intros uri folder.
    unfold FileSearchProvider.deserializeFileItem, FileSearchProvider.serializeFileItem,
      FileSearchProvider.fileItemOf. cbn. rewrite Uri_parse_toString. reflexivity.
  - intros item Htype. cbn. rewrite Uri_parse_toString, Range_new_eta.
    repeat split; try reflexivity.
    destruct Htype as [-> | ->]; reflexivity.
  - intros item Htype.
    unfold SymbolSearchProvider.deserializeSymbolItem,
      DocumentSymbolProvider.deserializeSymbolItem. cbn [serializeSymbolItem ss_type].
    destruct Htype as [-> | ->]; reflexivity.
Qed.

End SerializationClaims.

Lemma deserializeSymbolItem_type_witness :
  type (DocumentSymbolProvider.deserializeSymbolItem (V := TextVscode) CacheExamples.mistyped)
  = SearchItemType.Symbol.
Proof.
  destruct (@deserializeSymbolItem_type TextVscode CacheExamples.mistyped)
    as (_ & _ & _ & Hother).
  apply Hother. discriminate.
Defined.

Lemma cache_round_trip_witness :
  symbol_range (DocumentSymbolProvider.deserializeSymbolItem (V := TextVscode)
                  (serializeSymbolItem CacheExamples.used_symbol))
  = DedupExamples.at_origin
  /\ priority (DocumentSymbolProvider.deserializeSymbolItem (V := TextVscode)
                 (serializeSymbolItem CacheExamples.used_symbol))
     = Some (of_Z 90)
  /\ FileSearchProvider.deserializeFileItem (V := TextVscode)
       (FileSearchProvider.serializeFileItem
          (FileSearchProvider.fileItemOf ("file:///w/src/a.ts" : @Uri TextVscode)
                                         CacheExamples.folder))
     = FileSearchProvider.fileItemOf ("file:///w/src/a.ts" : @Uri TextVscode)
                                     CacheExamples.folder.
Proof.
  destruct (@cache_round_trip TextVscode TextVscode_laws) as (_ & Hfresh & Hsym & _).
  split; [|split].
  - apply (Hsym CacheExamples.used_symbol). left. reflexivity.
  - apply (Hsym CacheExamples.used_symbol). left. reflexivity.
  - apply Hfresh.
Defined.

(** C7 as stated fails on [activityScore] (and, for files, on [priority] and
    [relativePath]): they are not transient, and the round trip drops them. *)
Lemma round_trip_drops_activityScore :
  activityScore CacheExamples.used_symbol = Some (of_Z 1700000000000)
  /\ activityScore (DocumentSymbolProvider.deserializeSymbolItem (V := TextVscode)
                      (serializeSymbolItem CacheExamples.used_symbol)) = None
  /\ activityScore (SymbolSearchProvider.deserializeSymbolItem (V := TextVscode)
                      (serializeSymbolItem CacheExamples.used_symbol)) = None
  /\ activityScore CacheExamples.used_file = Some (of_Z 1700000000000)
  /\ activityScore (FileSearchProvider.deserializeFileItem (V := TextVscode)
                      (FileSearchProvider.serializeFileItem CacheExamples.used_file)) = None
  /\ priority CacheExamples.used_file = Some (of_Z 80)
  /\ priority (FileSearchProvider.deserializeFileItem (V := TextVscode)
                 (FileSearchProvider.serializeFileItem CacheExamples.used_file)) = None
  /\ file_relativePath CacheExamples.used_file = Some "a.ts"
  /\ file_relativePath (FileSearchProvider.deserializeFileItem (V := TextVscode)
                          (FileSearchProvider.serializeFileItem CacheExamples.used_file))
     = None.
Proof. repeat split; reflexivity. Qed.

(** ** Fuzzy-searcher adapters *)

Section AdapterClaims.
Context {V : Vscode}.
Import FuzzySearcher.

Lemma trimStart_whitespace (query : JsString.code_units) :
  whitespace_only query -> JsString.trimStart query = [].
Proof.
  induction query as [|c query IH]; intros Hws; cbn [JsString.trimStart].
  - reflexivity.
  - rewrite (Hws c) by (now left). apply IH. intros c' Hc'. apply Hws. now right.
Qed.

Lemma trim_whitespace (query : JsString.code_units) :
  whitespace_only query -> JsString.trim query = [].
Proof.
  intros Hws. unfold JsString.trim. now rewrite trimStart_whitespace.
Qed.

Lemma trimEnd_empty (query : JsString.code_units) :
  JsString.trimEnd query = [] -> whitespace_only query.
Proof.
  induction query as [|c query IH]; cbn [JsString.trimEnd]; [intros _ c []|].
  destruct (JsString.trimEnd query) as [|d t]; [|discriminate].
  destruct (JsString.is_whitespace c) eqn:Hc; [|discriminate].
  intros _ c' [<- | Hc']; [assumption | now apply IH].
Qed.

Lemma trimStart_keeps_first (query : JsString.code_units) :
  match JsString.trimStart query with
  | [] => whitespace_only query
  | c :: _ => JsString.is_whitespace c = false
  end.
Proof.
  induction query as [|c query IH]; cbn [JsString.trimStart]; [intros c []|].
  destruct (JsString.is_whitespace c) eqn:Hc; [|assumption].
  destruct (JsString.trimStart query) as [|d t]; [|assumption].
  intros c' [<- | Hc']; [assumption | now apply IH].
Qed.

(** [trim] leaves nothing of a query exactly when the query is empty or
    white space only. *)
Lemma trim_empty_iff (query : JsString.code_units) :
  JsString.trim query = [] <-> whitespace_only query.
Proof.
  split; [|apply trim_whitespace]. unfold JsString.trim. intros Hempty.
  pose proof (trimStart_keeps_first query) as Hstart.
  destruct (JsString.trimStart query) as [|c t]; [assumption|].
  apply trimEnd_empty in Hempty. rewrite (Hempty c) in Hstart by (now left).
  discriminate.
Qed.

Lemma slice0_all {A : Type} (a : list A) :
  (Z.of_nat (length a) <= MAX_SAFE_INTEGER)%Z -> slice0 a MAX_SAFE_INTEGER = a.
Proof.
  intros Hlen. unfold slice0. change (MAX_SAFE_INTEGER <? 0)%Z with false. cbv iota.
  rewrite Z.min_r by assumption. rewrite Nat2Z.id. apply firstn_all.
Qed.

Lemma slice0_firstn {A : Type} (a : list A) (n : Z) :
  (0 <= n)%Z -> slice0 a n = firstn (Z.to_nat n) a.
Proof.
  intros Hn. unfold slice0.
  destruct (Z.ltb_spec n 0) as [Hneg|_]; [lia|].
  destruct (Z.le_ge_cases n (Z.of_nat (length a))) as [Hle|Hge].
  - now rewrite Z.min_l.
  - rewrite Z.min_r by assumption. rewrite Nat2Z.id, firstn_all.
    symmetry. apply firstn_all2. lia.
Qed.

(** C8.  With a query that is empty or white space only (any of the
    characters that [trim] strips, the ones beyond ASCII included), both
    adapters return the first [limit] items of the input (all of them when
    no limit is given; an array holds fewer than 2^53 items) and leave
    every item as it was, scores included. *)
Theorem search_blank_query :
  forall (go : JsString.code_units -> list string -> option Z -> list (nat * number))
         (filter : list string -> JsString.code_units -> option Z -> list nat)
         (score_of : string -> JsString.code_units -> number)
         (items : list SearchItem) (query : JsString.code_units),
    whitespace_only query ->
    (Z.of_nat (length items) <= MAX_SAFE_INTEGER)%Z ->
    (returned (Fuzzysort_search go items query None) = items
     /\ items_after (Fuzzysort_search go items query None) = items
     /\ returned (Fuzzaldrin_search filter score_of items query None) = items
     /\ items_after (Fuzzaldrin_search filter score_of items query None) = items)
    /\ forall limit : Z,
        (0 <= limit)%Z ->
        returned (Fuzzysort_search go items query (Some limit))
        = firstn (Z.to_nat limit) items
        /\ items_after (Fuzzysort_search go items query (Some limit)) = items
        /\ returned (Fuzzaldrin_search filter score_of items query (Some limit))
           = firstn (Z.to_nat limit) items
        /\ items_after (Fuzzaldrin_search filter score_of items query (Some limit)) = items.
Proof.
  intros go filter score_of items query Hws Hlen.
  unfold Fuzzysort_search, Fuzzaldrin_search.
  rewrite (trim_whitespace query Hws). cbn [JsString.truthy_units negb returned items_after default].
  split.
  - rewrite slice0_all by assumption. repeat split; reflexivity.
  - intros limit Hlimit. rewrite slice0_firstn by assumption. repeat split; reflexivity.
Qed.

End AdapterClaims.

(** A query of a blank, a tab, a no-break space, an ideographic space, a
    byte-order mark and a line separator, and the empty query: the items
    come back as they are, although the matcher at hand would have scored
    all of them. *)
Lemma search_blank_query_witness :
  FuzzySearcher.returned (FuzzySearcher.Fuzzysort_search QueryExamples.go_all QueryExamples.three
              QueryExamples.blanks (Some 2%Z))
  = [Examples.A; Examples.B]
  /\ FuzzySearcher.items_after (FuzzySearcher.Fuzzysort_search
                    QueryExamples.go_all QueryExamples.three QueryExamples.blanks None)
     = QueryExamples.three
  /\ FuzzySearcher.items_after (FuzzySearcher.Fuzzaldrin_search
                    QueryExamples.filter_all QueryExamples.score_one QueryExamples.three
                    [] None)
     = QueryExamples.three.
Proof.
  assert (Hblank : whitespace_only QueryExamples.blanks).
  { intros c Hc. cbn in Hc. repeat (destruct Hc as [<- | Hc]; [reflexivity|]).
    contradiction. }
  assert (Hempty : whitespace_only []) by (intros c []).
  assert (Hlen : (Z.of_nat (length QueryExamples.three) <= FuzzySearcher.MAX_SAFE_INTEGER)%Z)
    by (vm_compute; discriminate).
  split; [|split].
  - destruct (@search_blank_query TextVscode QueryExamples.go_all QueryExamples.filter_all
                QueryExamples.score_one QueryExamples.three _ Hblank Hlen) as [_ Hlim].
    destruct (Hlim 2%Z ltac:(lia)) as (H & _). exact H.
  - destruct (@search_blank_query TextVscode QueryExamples.go_all QueryExamples.filter_all
                QueryExamples.score_one QueryExamples.three _ Hblank Hlen) as [Hall _].
    destruct Hall as (_ & H & _). exact H.
  - destruct (@search_blank_query TextVscode QueryExamples.go_all QueryExamples.filter_all
                QueryExamples.score_one QueryExamples.three _ Hempty Hlen) as [Hall _].
    destruct Hall as (_ & _ & _ & H). exact H.
Defined.

(** The same matcher on a real query does write scores, so the statement
    above is not vacuous. *)
Lemma search_query_scores :
  List.map (fun i : @SearchItem TextVscode => score i)
           (FuzzySearcher.items_after (FuzzySearcher.Fuzzysort_search QueryExamples.go_all QueryExamples.three
                           (JsString.units "a") None))
  = [Some (of_Q (9 # 10)); Some (of_Q (9 # 10)); Some (of_Q (9 # 10))].
Proof. reflexivity. Qed.

(** ** Refreshes in flight *)

Section RefreshFacts.
Import RefreshIndex RefreshVocabulary.

Lemma resume_shared (p : nat) (shared : list Reaction) (s : State) :
  Forall (fun r => on_promise r = p /\ continuation r = AwaitShared) shared ->
  let s' := fold_left (fun st r => resume r st) shared s in
  refreshPromise s' = refreshPromise s /\ in_flight s' = in_flight s
  /\ reactions s' = reactions s /\ passes s' = passes s
  /\ resolved s' = resolved s ++ List.map (fun r => (caller r, p)) shared.
Proof.
  intros Hshared. revert s. induction Hshared as [|r shared [Hp Hk] _ IH]; intros s; cbn.
  - rewrite app_nil_r. repeat split; reflexivity.
  - specialize (IH (resume r s)). cbn in IH.
    destruct IH as (H1 & H2 & H3 & H4 & H5).
    unfold resume in *. rewrite Hk in *. cbn in *.
    rewrite H1, H2, H3, H4, H5, Hp, <- app_assoc. repeat split; reflexivity.
Qed.

Lemma filter_waits_on_all (p : nat) (shared : list Reaction) :
  Forall (fun r => on_promise r = p /\ continuation r = AwaitShared) shared ->
  List.filter (waits_on p) shared = shared
  /\ List.filter (fun r => negb (waits_on p r)) shared = [].
Proof.
  induction 1 as [|r shared [Hp _] _ [IH1 IH2]]; cbn.
  - split; reflexivity.
  - assert (Hw : waits_on p r = true) by (unfold waits_on; rewrite Hp; apply Nat.eqb_refl).
    rewrite Hw. cbn. rewrite IH1, IH2. split; reflexivity.
Qed.

(** Non-forced calls and completions keep the refreshes single-flight. *)
Lemma step_single_flight (s : State) (e : Event) :
  is_forced_call e = false -> single_flight s -> single_flight (step s e).
Proof.
  intros He [(Hrp & Hfl & Hre) | (p & c & shared & Hrp & Hfl & Hre & Hshared)].
  - destruct e as [[|]|q]; try discriminate; cbn.
    + unfold call. cbn. rewrite Hrp. right.
      exists (next_promise s), (next_caller s), []. cbn. rewrite Hfl, Hre.
      repeat split; constructor.
    + left. unfold settle. rewrite Hfl. cbn. tauto.
  - destruct e as [[|]|q]; try discriminate; cbn.
    + unfold call. cbn. rewrite Hrp. cbn. right.
      exists p, c, (shared ++ [{| on_promise := p; caller := next_caller s;
                                  continuation := AwaitShared |}]).
      cbn. rewrite Hfl, Hre. repeat split; try assumption; try reflexivity.
      apply Forall_app. split; [assumption|]. repeat constructor.
    + unfold settle. rewrite Hfl. cbn [existsb orb].
      destruct (Nat.eqb_spec q p) as [->|Hne].
      * left. rewrite Hre. cbn [List.filter].
        assert (Hw : waits_on p {| on_promise := p; caller := c; continuation := AwaitOwn |}
                     = true) by apply Nat.eqb_refl.
        rewrite Hw. cbn [negb].
        destruct (filter_waits_on_all p shared Hshared) as [-> ->].
        cbn [fold_left resume continuation List.filter]. rewrite Nat.eqb_refl.
        cbn [negb orb].
        match goal with
        | |- context [fold_left _ shared ?s0] =>
            destruct (resume_shared p shared s0 Hshared) as (H1 & H2 & H3 & _)
        end.
        cbv zeta in H1, H2, H3. rewrite H1, H2, H3. cbn. tauto.
      * right. exists p, c, shared. tauto.
Qed.

Lemma run_single_flight (trace : list Event) :
  unforced trace -> single_flight (run trace).
Proof.
  unfold run. assert (Hinit : single_flight initial) by (left; cbn; tauto).
  revert Hinit. generalize initial as s.
  induction trace as [|e trace IH]; intros s Hs Hun; cbn.
  - assumption.
  - apply IH.
    + apply step_single_flight; [apply Hun; now left | assumption].
    + intros e' He'. apply Hun. now right.
Qed.

End RefreshFacts.

Section RefreshClaims.
Import RefreshIndex RefreshVocabulary.

(** Single flight without overlapping forced calls: as long as no call is
    forced, at most one refresh is in flight at any time, a call made while
    one is in flight starts no other, and two concurrent calls share one
    refresh and resolve when it completes; one forced call made during a
    refresh starts exactly one refresh after it. *)
Lemma refreshIndex_unforced_single_flight :
  (forall trace : list Event,
      unforced trace ->
      length (in_flight (run trace)) <= 1
      /\ (in_flight (run trace) <> [] ->
          passes (run (trace ++ [Call false])) = passes (run trace)
          /\ in_flight (run (trace ++ [Call false])) = in_flight (run trace)))
  /\ (passes (run [Call false; Call false]) = 1
      /\ in_flight (run [Call false; Call false]) = [0]
      /\ resolved (run [Call false; Call false; Settle 0]) = [(0, 0); (1, 0)]
      /\ in_flight (run [Call false; Call false; Settle 0]) = [])
  /\ (in_flight (run [Call false; Call true]) = [0]
      /\ in_flight (run [Call false; Call true; Settle 0]) = [1]
      /\ passes (run [Call false; Call true; Settle 0]) = 2).
Proof.
  split; [|split].
  - intros trace Hun. pose proof (run_single_flight trace Hun) as Hsf.
    destruct Hsf as [(Hrp & Hfl & Hre) | (p & c & shared & Hrp & Hfl & Hre & Hshared)].
    + rewrite Hfl. cbn. split; [lia | congruence].
    + rewrite Hfl. cbn. split; [lia|]. intros _.
      unfold run in *. rewrite fold_left_app. cbn. unfold call. cbn.
      rewrite Hrp. cbn. rewrite Hfl. split; reflexivity.
  - repeat split; reflexivity.
  - repeat split; reflexivity.
Qed.

(** C6 on the failing input.  With a refresh in flight, two forced calls
    both wait for it; when it completes each of them clears
    [refreshPromise] and starts a refresh of its own, so two full refreshes
    run at once.  When the first of them completes, [refreshPromise] is
    cleared although the second still runs, and a further non-forced call
    starts yet another refresh beside it. *)
Theorem refreshIndex_two_forced_calls_overlap :
  in_flight (run [Call false; Call true; Call true]) = [0]
  /\ in_flight (run two_forced_calls) = [1; 2]
  /\ passes (run two_forced_calls) = 3
  /\ ~ single_flight (run two_forced_calls)
  /\ refreshPromise (run (two_forced_calls ++ [Settle 1])) = None
  /\ in_flight (run (two_forced_calls ++ [Settle 1])) = [2]
  /\ in_flight (run (two_forced_calls ++ [Settle 1; Call false])) = [2; 3].
Proof.
  repeat split; try reflexivity.
  intros [(_ & Hfl & _) | (p & c & shared & _ & Hfl & _)]; discriminate.
Qed.

End RefreshClaims.

(** ** Cache validation *)

Section CacheFacts.
Context {V : Vscode}.


Lemma sort_insert_In {A : Type} (cmp : A -> A -> number) (x y : A) (l : list A) :
  In y (SearchService.sort_insert cmp x l) <-> y = x \/ In y l.
Proof.
  induction l as [|z l IH]; cbn.
  - intuition congruence.
  - destruct (is_positive (cmp x z)); cbn; rewrite ?IH; intuition congruence.
Qed.

Lemma Array_sort_In {A : Type} (cmp : A -> A -> number) (y : A) (l : list A) :
  In y (SearchService.Array_sort cmp l) <-> In y l.
Proof.
  unfold SearchService.Array_sort. induction l as [|x l IH]; cbn.
  - tauto.
  - rewrite sort_insert_In, IH. intuition congruence.
Qed.

Lemma file_partition_from (cache : FileIndexCache) (currentEntries : list (Uri * number))
      (unchanged : list FileSearchItem) (toIndex : list Uri) :
  fold_left
    (FileSearchProvider.file_partition_step
       (Map_of_entries (List.map (fun e => (manifest_uri e, manifest_mtime e))
                                 (fic_manifest cache)))
       (Map_of_entries (List.map (fun i => (sf_uri i, i)) (fic_items cache))))
    currentEntries (unchanged, toIndex)
  = (unchanged
       ++ omap (fun e => option_map FileSearchProvider.deserializeFileItem
                                    (file_reused cache e)) currentEntries,
     toIndex
       ++ List.map fst (List.filter (fun e => is_none (file_reused cache e)) currentEntries)).
Proof.
  revert unchanged toIndex.
  induction currentEntries as [|[uri mtime] rest IH]; intros unchanged toIndex.
  - cbn. now rewrite !app_nil_r.
  - cbn [fold_left].
    assert (Hstep :
              FileSearchProvider.file_partition_step
                (Map_of_entries (List.map (fun e => (manifest_uri e, manifest_mtime e))
                                          (fic_manifest cache)))
                (Map_of_entries (List.map (fun i => (sf_uri i, i)) (fic_items cache)))
                (unchanged, toIndex) (uri, mtime)
              = match file_reused cache (uri, mtime) with
                | Some serialized =>
                    (unchanged ++ [FileSearchProvider.deserializeFileItem serialized], toIndex)
                | None => (unchanged, toIndex ++ [uri])
                end).
    { unfold FileSearchProvider.file_partition_step, file_reused, unchanged_in, cached_mtime.
      cbn [fst snd].
      destruct (Map_of_entries _ !! Uri_toString uri) as [cachedMtime|]; [|reflexivity].
      destruct (strict_eq cachedMtime mtime); [|reflexivity].
      destruct (Map_of_entries _ !! Uri_toString uri); reflexivity. }
    rewrite Hstep. cbn [omap list_omap List.filter List.map].
    destruct (file_reused cache (uri, mtime)) as [serialized|]; rewrite IH; cbn;
      now rewrite <- ?app_assoc.
Qed.

Lemma file_partition_spec (cache : FileIndexCache) (currentEntries : list (Uri * number)) :
  FileSearchProvider.file_partition cache currentEntries
  = (omap (fun e => option_map FileSearchProvider.deserializeFileItem (file_reused cache e))
          currentEntries,
     List.map fst (List.filter (fun e => is_none (file_reused cache e)) currentEntries)).
Proof. unfold FileSearchProvider.file_partition. now rewrite file_partition_from. Qed.


Lemma document_partition_from (cachedFiles : gmap string DocumentSymbolsFileEntry)
      (currentEntries : list (Uri * number))
      (symbolItems : list SymbolSearchItem) (fromCache : nat) (toIndex : list (Uri * number)) :
  fold_left (DocumentSymbolProvider.partition_step cachedFiles) currentEntries
            (symbolItems, fromCache, toIndex)
  = (symbolItems
       ++ flat_map (fun e =>
                      match symbols_reused cachedFiles e with
                      | Some symbols =>
                          List.map DocumentSymbolProvider.deserializeSymbolItem symbols
                      | None => []
                      end) currentEntries,
     fromCache
       + length (List.filter (fun e => negb (is_none (symbols_reused cachedFiles e)))
                             currentEntries),
     toIndex ++ List.filter (fun e => is_none (symbols_reused cachedFiles e)) currentEntries).
Proof.
  revert symbolItems fromCache toIndex.
  induction currentEntries as [|[uri mtime] rest IH]; intros symbolItems fromCache toIndex.
  - cbn. now rewrite !app_nil_r, Nat.add_0_r.
  - cbn [fold_left].
    assert (Hstep :
              DocumentSymbolProvider.partition_step cachedFiles
                (symbolItems, fromCache, toIndex) (uri, mtime)
              = match symbols_reused cachedFiles (uri, mtime) with
                | Some symbols =>
                    (symbolItems
                       ++ List.map DocumentSymbolProvider.deserializeSymbolItem symbols,
                     S fromCache, toIndex)
                | None => (symbolItems, fromCache, toIndex ++ [(uri, mtime)])
                end).
    { unfold DocumentSymbolProvider.partition_step, symbols_reused. cbn [fst snd].
      destruct (cachedFiles !! Uri_toString uri) as [e|]; [|reflexivity].
      destruct (strict_eq (dsf_mtime e) mtime); reflexivity. }
    rewrite Hstep. cbn [flat_map List.filter].
    destruct (symbols_reused cachedFiles (uri, mtime)) as [symbols|]; rewrite IH; cbn;
      rewrite <- ?app_assoc; repeat f_equal; lia.
Qed.

Lemma index_files_spec (shouldExclude : Uri -> bool)
      (indexDocument : Uri -> list SymbolSearchItem)
      (toIndex : list (Uri * number)) (symbolItems : list SymbolSearchItem) :
  DocumentSymbolProvider.index_files shouldExclude indexDocument toIndex symbolItems
  = symbolItems
      ++ flat_map (fun e => indexDocument (fst e))
                  (List.filter (fun e => negb (shouldExclude (fst e))) toIndex).
Proof.
  unfold DocumentSymbolProvider.index_files. revert symbolItems.
  induction toIndex as [|e toIndex IH]; intros symbolItems; cbn.
  - now rewrite app_nil_r.
  - rewrite IH. destruct (shouldExclude (fst e)); cbn; now rewrite <- ?app_assoc.
Qed.

Lemma manifest_matches_spec (cachedManifest currentManifest : list ManifestEntry) :
  SymbolSearchProvider.manifest_matches
    (Map_of_entries (List.map (fun e => (manifest_uri e, manifest_mtime e)) cachedManifest))
    currentManifest = true
  <-> forall e, In e currentManifest ->
                unchanged_in cachedManifest (manifest_uri e) (manifest_mtime e) = true.
Proof.
  unfold SymbolSearchProvider.manifest_matches. rewrite forallb_forall. reflexivity.
Qed.

End CacheFacts.

Section CacheClaims.
Context {V : Vscode}.


End CacheClaims.


(** When nothing changed, the same refresh ends with the two cached symbols
    and asks the editor nothing. *)
Lemma workspace_symbols_cache_served :
  fst (WorkspaceSymbols.runRefreshInternal
         (V := TextVscode) SymbolExamples.answers SymbolExamples.nothing_excluded false
         (Some "file:///storage") (Some StaleExamples.symbols_cache) "file:///w"
         (fic_manifest StaleExamples.file_cache) (fic_manifest StaleExamples.file_cache))
  = List.map SymbolSearchProvider.deserializeSymbolItem
             [ StaleExamples.cached_symbol StaleExamples.a_ts "f";
               StaleExamples.cached_symbol StaleExamples.b_ts "g" ]
  /\ List.map (fun item : @SymbolSearchItem TextVscode => label item)
              (WorkspaceSymbols.fullRefresh SymbolExamples.answers
                                            SymbolExamples.nothing_excluded)
     = ["Widget"; "render"].
Proof. split; vm_compute; reflexivity. Qed.


(** * Further properties *)

(** ** Order of numbers and sorting *)

Section OrderFacts.

Lemma gt_irrefl (x : number) : gt x x = false.
Proof.
  destruct x as [| | |q]; try reflexivity. apply gt_Finite_false. lra.
Qed.

Lemma gt_asym (x y : number) : gt x y = true -> gt y x = false.
Proof.
  destruct x as [| | |a], y as [| | |b]; try (cbn; congruence).
  rewrite gt_Finite, gt_Finite_false. lra.
Qed.

Lemma at_most_trans (x y z : number) :
  is_number y -> at_most x y -> at_most y z -> at_most x z.
Proof.
  unfold is_number, at_most.
  destruct x as [| | |a], y as [| | |b], z as [| | |c];
    try (cbn; congruence); rewrite ?gt_Finite_false; try lra;
    intros; try congruence.
Qed.

Lemma at_most_total (x y : number) : at_most x y \/ at_most y x.
Proof.
  unfold at_most. destruct (gt x y) eqn:E; [right; now apply gt_asym | now left].
Qed.

(** [b - a > 0] only when [b > a]; the converse holds unless one is NaN. *)
Lemma is_positive_sub (x y : number) : is_positive (sub x y) = true -> gt x y = true.
Proof.
  destruct x as [| | |a], y as [| | |b]; try (cbn; congruence).
  unfold is_positive, sub. rewrite !gt_Finite, Qred_correct. lra.
Qed.

Lemma is_positive_sub_gt (x y : number) : gt x y = true -> is_positive (sub x y) = true.
Proof. intros H. now destruct (gt_sub _ _ H). Qed.

Lemma is_positive_sub_iff (x y : number) : is_positive (sub x y) = gt x y.
Proof.
  destruct (gt x y) eqn:E.
  - now apply is_positive_sub_gt.
  - destruct (is_positive (sub x y)) eqn:E'; [|reflexivity].
    apply is_positive_sub in E'. congruence.
Qed.

Lemma In_skipn {A : Type} (n : nat) (l : list A) (x : A) : In x (skipn n l) -> In x l.
Proof. intros H. rewrite <- (firstn_skipn n l). apply in_or_app. now right. Qed.

Lemma In_firstn {A : Type} (n : nat) (l : list A) (x : A) : In x (firstn n l) -> In x l.
Proof. intros H. rewrite <- (firstn_skipn n l). apply in_or_app. now left. Qed.

Lemma sort_insert_Permutation {A : Type} (cmp : A -> A -> number) (x : A) (l : list A) :
  SearchService.sort_insert cmp x l ≡ₚ x :: l.
Proof.
  induction l as [|y l IH]; cbn.
  - reflexivity.
  - destruct (is_positive (cmp x y)); [|reflexivity].
    rewrite IH. apply perm_swap.
Qed.

(** The sort neither drops nor repeats an element. *)
Lemma Array_sort_Permutation {A : Type} (cmp : A -> A -> number) (l : list A) :
  SearchService.Array_sort cmp l ≡ₚ l.
Proof.
  unfold SearchService.Array_sort. induction l as [|x l IH]; cbn.
  - reflexivity.
  - now rewrite sort_insert_Permutation, IH.
Qed.

Lemma Array_sort_length {A : Type} (cmp : A -> A -> number) (l : list A) :
  length (SearchService.Array_sort cmp l) = length l.
Proof. apply Permutation_length, Array_sort_Permutation. Qed.

Section ByKey.
Context {A : Type} (key : A -> number).

Lemma sort_insert_descending (x : A) (l : list A) :
  is_number (key x) -> Forall (fun y => is_number (key y)) l ->
  StronglySorted (fun a b => at_most (key b) (key a)) l ->
  StronglySorted (fun a b => at_most (key b) (key a))
                 (SearchService.sort_insert (descending key) x l).
Proof.
  intros Hx Hl Hs. induction Hs as [|y l Hs IH Hy]; cbn.
  - repeat constructor.
  - apply Forall_cons_iff in Hl as [Hny Hl].
    unfold descending at 1. rewrite is_positive_sub_iff.
    destruct (gt (key y) (key x)) eqn:E.
    + constructor; [now apply IH|].
      apply List.Forall_forall. intros z Hz. apply sort_insert_In in Hz as [-> | Hz].
      * now apply gt_asym.
      * rewrite List.Forall_forall in Hy. now apply Hy.
    + constructor.
      * now constructor.
      * constructor; [exact E|].
        apply List.Forall_forall. intros z Hz. rewrite List.Forall_forall in Hy.
        apply (at_most_trans _ (key y)); [assumption | now apply Hy | exact E].
Qed.

(** Sorted by a key that is never NaN, the list has its larger keys first. *)
Lemma Array_sort_descending (l : list A) :
  Forall (fun y => is_number (key y)) l ->
  StronglySorted (fun a b => at_most (key b) (key a))
                 (SearchService.Array_sort (descending key) l).
Proof.
  unfold SearchService.Array_sort. induction 1 as [|x l Hx Hl IH]; cbn.
  - constructor.
  - apply sort_insert_descending; [assumption| |assumption].
    apply List.Forall_forall. intros z Hz. apply Array_sort_In in Hz.
    rewrite List.Forall_forall in Hl. now apply Hl.
Qed.

(** Of a list with its larger keys first, the first [n] elements have keys
    at least as large as any of the others. *)
Lemma firstn_largest (n : nat) (l : list A) (kept dropped : A) :
  StronglySorted (fun a b => at_most (key b) (key a)) l ->
  In kept (firstn n l) -> In dropped (skipn n l) ->
  at_most (key dropped) (key kept).
Proof.
  intros Hs. revert n. induction Hs as [|x l Hs IH Hx]; intros n Hk Hd.
  - destruct n; contradiction.
  - destruct n as [|n]; [contradiction|]. cbn in Hk, Hd. destruct Hk as [<- | Hk].
    + rewrite List.Forall_forall in Hx. apply Hx. eapply In_skipn; eassumption.
    + now apply (IH n).
Qed.

Lemma sort_insert_ascending (x : A) (l : list A) :
  is_number (key x) -> Forall (fun y => is_number (key y)) l ->
  StronglySorted (fun a b => at_most (key a) (key b)) l ->
  StronglySorted (fun a b => at_most (key a) (key b))
                 (SearchService.sort_insert (ascending key) x l).
Proof.
  intros Hx Hl Hs. induction Hs as [|y l Hs IH Hy]; cbn.
  - repeat constructor.
  - apply Forall_cons_iff in Hl as [Hny Hl].
    unfold ascending at 1. rewrite is_positive_sub_iff.
    destruct (gt (key x) (key y)) eqn:E.
    + constructor; [now apply IH|].
      apply List.Forall_forall. intros z Hz. apply sort_insert_In in Hz as [-> | Hz].
      * now apply gt_asym.
      * rewrite List.Forall_forall in Hy. now apply Hy.
    + constructor.
      * now constructor.
      * constructor; [exact E|].
        apply List.Forall_forall. intros z Hz. rewrite List.Forall_forall in Hy.
        apply (at_most_trans _ (key y)); [assumption | exact E | now apply Hy].
Qed.

(** Sorted by a key that is never NaN, the list has its smaller keys first. *)
Lemma Array_sort_ascending (l : list A) :
  Forall (fun y => is_number (key y)) l ->
  StronglySorted (fun a b => at_most (key a) (key b))
                 (SearchService.Array_sort (ascending key) l).
Proof.
  unfold SearchService.Array_sort. induction 1 as [|x l Hx Hl IH]; cbn.
  - constructor.
  - apply sort_insert_ascending; [assumption| |assumption].
    apply List.Forall_forall. intros z Hz. apply Array_sort_In in Hz.
    rewrite List.Forall_forall in Hl. now apply Hl.
Qed.

(** The first element of the ascending sort has the least key. *)
Lemma Array_sort_ascending_head (l : list A) (h : A) (rest : list A) (e : A) :
  Forall (fun y => is_number (key y)) l ->
  SearchService.Array_sort (ascending key) l = h :: rest ->
  In e l -> at_most (key h) (key e).
Proof.
  intros Hl Hsort He. pose proof (Array_sort_ascending l Hl) as Hs.
  rewrite Hsort in Hs. apply StronglySorted_inv in Hs as [_ Hh].
  assert (Hin : In e (h :: rest)).
  { rewrite <- Hsort. eapply Permutation_in; [|exact He].
    symmetry. apply Array_sort_Permutation. }
  destruct Hin as [<- | Hin].
  - apply gt_irrefl.
  - rewrite List.Forall_forall in Hh. now apply Hh.
Qed.

(** An element appended last, and no smaller than the others, is not the
    first of the ascending sort. *)
Lemma Array_sort_ascending_last (l : list A) (z h : A) (rest : list A) :
  l <> [] -> (forall e, In e l -> at_most (key e) (key z)) ->
  SearchService.Array_sort (ascending key) (l ++ [z]) = h :: rest ->
  In h l.
Proof.
  intros Hne Hz Hsort. destruct l as [|x l]; [contradiction|].
  unfold SearchService.Array_sort in Hsort. cbn in Hsort.
  fold (SearchService.Array_sort (ascending key) (l ++ [z])) in Hsort.
  destruct (SearchService.Array_sort (ascending key) (l ++ [z])) as [|h' s] eqn:Es.
  - cbn in Hsort. injection Hsort as <- _. now left.
  - cbn in Hsort. unfold ascending at 1 in Hsort. rewrite is_positive_sub_iff in Hsort.
    destruct (gt (key x) (key h')) eqn:E.
    + injection Hsort as <- _.
      assert (Hin : In h' (l ++ [z])).
      { eapply Permutation_in; [apply Array_sort_Permutation|]. rewrite Es. now left. }
      apply in_app_or in Hin as [Hin | [<- | []]]; [now right|].
      rewrite (Hz x) in E by (now left). discriminate.
    + injection Hsort as <- _. now left.
Qed.

End ByKey.

End OrderFacts.

(** ** Maps in insertion order *)

Section JsMapMoreFacts.
Context {A : Type}.

Lemma JsMap_get_set_eq (m : JsMap.t A) (k : string) (v : A) :
  JsMap.get (JsMap.set m k v) k = Some v.
Proof.
  induction m as [|[k' v'] m IH]; cbn.
  - now rewrite String.eqb_refl.
  - destruct (String.eqb_spec k' k) as [->|Hne]; cbn.
    + now rewrite String.eqb_refl.
    + apply String.eqb_neq in Hne. now rewrite Hne.
Qed.

Lemma JsMap_get_set_ne (m : JsMap.t A) (k k' : string) (v : A) :
  k <> k' -> JsMap.get (JsMap.set m k v) k' = JsMap.get m k'.
Proof.
  intros Hne. induction m as [|[k0 v0] m IH]; cbn.
  - apply String.eqb_neq in Hne. now rewrite Hne.
  - destruct (String.eqb_spec k0 k) as [->|Hne0]; cbn.
    + apply String.eqb_neq in Hne. now rewrite Hne.
    + now rewrite IH.
Qed.

Lemma JsMap_keys_set (m : JsMap.t A) (k : string) (v : A) :
  JsMap.keys (JsMap.set m k v)
  = if in_dec string_dec k (JsMap.keys m) then JsMap.keys m else JsMap.keys m ++ [k].
Proof.
  destruct (in_dec string_dec k (JsMap.keys m)) as [Hin|Hout].
  - induction m as [|[k' v'] m IH]; [contradiction|]. cbn.
    destruct (String.eqb_spec k' k) as [->|Hne]; [reflexivity|]. cbn.
    f_equal. apply IH. destruct Hin; [contradiction | assumption].
  - rewrite JsMap_set_fresh by assumption. unfold JsMap.keys. now rewrite map_app.
Qed.

Lemma JsMap_set_NoDup (m : JsMap.t A) (k : string) (v : A) :
  List.NoDup (JsMap.keys m) -> List.NoDup (JsMap.keys (JsMap.set m k v)).
Proof.
  intros Hnd. rewrite JsMap_keys_set.
  destruct (in_dec string_dec k (JsMap.keys m)) as [Hin|Hout]; [assumption|].
  apply List.NoDup_app.
  - assumption.
  - constructor; [intros [] | constructor].
  - intros x Hx [<- | []]. contradiction.
Qed.

Lemma JsMap_set_length (m : JsMap.t A) (k : string) (v : A) :
  length (JsMap.set m k v)
  = if in_dec string_dec k (JsMap.keys m) then length m else S (length m).
Proof.
  destruct (in_dec string_dec k (JsMap.keys m)) as [Hin|Hout].
  - induction m as [|[k' v'] m IH]; [contradiction|]. cbn.
    destruct (String.eqb_spec k' k) as [->|Hne]; [reflexivity|]. cbn.
    f_equal. apply IH. destruct Hin; [contradiction | assumption].
  - rewrite JsMap_set_fresh by assumption. rewrite length_app. cbn. lia.
Qed.


Lemma JsMap_fromEntries_from (entries m : JsMap.t A) :
  List.NoDup (JsMap.keys (m ++ entries)) ->
  fold_left (fun m e => JsMap.set m (fst e) (snd e)) entries m = m ++ entries.
Proof.
  revert m. induction entries as [|[k v] entries IH]; intros m Hnd; cbn.
  - now rewrite app_nil_r.
  - rewrite JsMap_set_fresh.
    + rewrite IH; rewrite <- app_assoc; [reflexivity | assumption].
    + unfold JsMap.keys in Hnd. rewrite map_app in Hnd. cbn in Hnd.
      apply List.NoDup_remove_2 in Hnd. intros Hin. apply Hnd. apply in_or_app. now left.
Qed.

(** Entries with distinct keys make the object that lists them. *)
Lemma JsMap_fromEntries_NoDup (entries : JsMap.t A) :
  List.NoDup (JsMap.keys entries) -> JsMap_fromEntries entries = entries.
Proof. intros Hnd. unfold JsMap_fromEntries. now rewrite JsMap_fromEntries_from. Qed.

Lemma JsMap_delete_length (m : JsMap.t A) (k : string) :
  In k (JsMap.keys m) -> S (length (JsMap_delete m k)) = length m.
Proof.
  induction m as [|[k' v] m IH]; cbn; [contradiction|].
  destruct (String.eqb_spec k' k) as [->|Hne]; [reflexivity|].
  intros [Heq | Hin]; [contradiction|]. cbn. now rewrite IH.
Qed.

Lemma JsMap_delete_keys_incl (m : JsMap.t A) (k x : string) :
  In x (JsMap.keys (JsMap_delete m k)) -> In x (JsMap.keys m).
Proof.
  induction m as [|[k' v] m IH]; cbn; [tauto|].
  destruct (String.eqb_spec k' k) as [->|Hne]; cbn; tauto.
Qed.

Lemma JsMap_delete_NoDup (m : JsMap.t A) (k : string) :
  List.NoDup (JsMap.keys m) -> List.NoDup (JsMap.keys (JsMap_delete m k)).
Proof.
  induction m as [|[k' v] m IH]; cbn; [trivial|]. intros Hnd.
  apply List.NoDup_cons_iff in Hnd as [Hout Hnd].
  destruct (String.eqb_spec k' k) as [->|Hne]; [assumption|]. cbn.
  constructor; [|now apply IH]. intros Hin. apply Hout.
  eapply JsMap_delete_keys_incl. eassumption.
Qed.

Lemma JsMap_get_delete_ne (m : JsMap.t A) (k k' : string) :
  k <> k' -> JsMap.get (JsMap_delete m k) k' = JsMap.get m k'.
Proof.
  intros Hne. induction m as [|[k0 v0] m IH]; cbn; [reflexivity|].
  destruct (String.eqb_spec k0 k) as [->|Hne0]; cbn.
  - apply String.eqb_neq in Hne. now rewrite Hne.
  - now rewrite IH.
Qed.

End JsMapMoreFacts.

(** ** Usage *)

Section UsageFacts.
Context {V : Vscode}.
Import SearchService ServiceActivity.

Lemma recordItemUsed_step_related (now : number) (item indexed : SearchItem)
      (done : list SearchItem) (persisted : JsMap.t number) (count : nat) :
  recordItemUsed_step now item (done, persisted, count) indexed
  = if related_to item indexed
    then (done ++ [assign_activityScore indexed now],
          JsMap.set persisted (getDeduplicationKey indexed) now, S count)
    else (done ++ [indexed], persisted, count).
Proof.
  unfold recordItemUsed_step, related_to.
  destruct (String.eqb (getDeduplicationKey indexed) (getDeduplicationKey item));
    [reflexivity|].
  cbn [orb].
  destruct (is_text_symbol_or_class item && is_symbol_or_class indexed
            && String.eqb (JsString.replace_trailing_parens (label indexed))
                          (JsString.replace_trailing_parens (label item)));
    reflexivity.
Qed.

Lemma recordItemUsed_fold (now : number) (item : SearchItem) (allItems : list SearchItem)
      (done : list SearchItem) (persisted : JsMap.t number) (count : nat) :
  let '(done', persisted', count') :=
    fold_left (recordItemUsed_step now item) allItems (done, persisted, count) in
  done' = done ++ List.map (fun x => if related_to item x
                                     then assign_activityScore x now else x) allItems
  /\ count' = count + length (List.filter (related_to item) allItems)
  /\ forall k,
      JsMap.get persisted' k
      = if existsb (fun x => related_to item x && String.eqb (getDeduplicationKey x) k)
                   allItems
        then Some now else JsMap.get persisted k.
Proof.
  revert done persisted count.
  induction allItems as [|x allItems IH]; intros done persisted count.
  - cbn. rewrite app_nil_r, Nat.add_0_r. repeat split; reflexivity.
  - cbn [fold_left]. rewrite recordItemUsed_step_related.
    cbn [List.map List.filter existsb].
    destruct (related_to item x) eqn:Hrel.
    + specialize (IH (done ++ [assign_activityScore x now])
                     (JsMap.set persisted (getDeduplicationKey x) now) (S count)).
      destruct (fold_left _ allItems _) as [[done' persisted'] count'].
      destruct IH as (Hd & Hc & Hp). repeat split.
      * rewrite Hd, <- app_assoc. reflexivity.
      * rewrite Hc. cbn. lia.
      * intros k. rewrite Hp. cbn [andb].
        destruct (existsb _ allItems); [now rewrite orb_true_r|]. rewrite orb_false_r.
        destruct (String.eqb_spec (getDeduplicationKey x) k) as [<-|Hne].
        -- apply JsMap_get_set_eq.
        -- now apply JsMap_get_set_ne.
    + specialize (IH (done ++ [x]) persisted count).
      destruct (fold_left _ allItems _) as [[done' persisted'] count'].
      destruct IH as (Hd & Hc & Hp). repeat split.
      * rewrite Hd, <- app_assoc. reflexivity.
      * assumption.
      * intros k. rewrite Hp. reflexivity.
Qed.

Lemma persisted_untouched (now : number) (item : SearchItem) (allItems : list SearchItem)
      (done : list SearchItem) (persisted : JsMap.t number) (count : nat) :
  (forall x, In x allItems -> related_to item x = false) ->
  fold_left (recordItemUsed_step now item) allItems (done, persisted, count)
  = (done ++ allItems, persisted, count).
Proof.
  revert done. induction allItems as [|x allItems IH]; intros done Hnone; cbn [fold_left].
  - now rewrite app_nil_r.
  - rewrite recordItemUsed_step_related, (Hnone x) by (now left).
    rewrite IH by (intros y Hy; apply Hnone; now right).
    now rewrite <- app_assoc.
Qed.

(** [recordItemUsed] stamps the time of use on the indexed items that share
    the key of the selected item or, for a selected text match, symbol or
    class, that are symbols or classes of the same name, and on no other;
    it changes no deduplication key, so the index keeps its one item per
    key; it records the time under the key of every item it stamps, and
    counts them. *)
Theorem recordItemUsed_closed_form :
  forall (now : number) (item : SearchItem) (allItems : list SearchItem)
         (persisted : JsMap.t number),
    let u := recordItemUsed now item allItems persisted in
    activityScore (used_item u) = Some now
    /\ used_allItems u
       = List.map (fun x => if related_to item x then assign_activityScore x now else x)
                  allItems
    /\ List.map getDeduplicationKey (used_allItems u)
       = List.map getDeduplicationKey allItems
    /\ updatedCount u = length (List.filter (related_to item) allItems)
    /\ forall k,
        JsMap.get (used_persisted u) k
        = if existsb (fun x => related_to item x && String.eqb (getDeduplicationKey x) k)
                     allItems
          then Some now else JsMap.get persisted k.
Proof.
  intros now item allItems persisted. unfold recordItemUsed.
  pose proof (recordItemUsed_fold now (assign_activityScore item now) allItems
                                  [] persisted 0) as H.
  destruct (fold_left _ allItems _) as [[done' persisted'] count'].
  destruct H as (Hd & Hc & Hp). cbn [used_item used_allItems used_persisted updatedCount].
  split; [reflexivity|]. split; [exact Hd|]. split; [|split; [exact Hc | exact Hp]].
  rewrite Hd. cbn [app]. rewrite map_map. apply map_ext. intros x.
  destruct (related_to _ x); reflexivity.
Qed.


(** A selection that matches nothing in the index leaves no trace: when no
    indexed item has the key of the selected item or is a symbol or class of
    its name, [recordItemUsed] changes neither the index nor the persisted
    timestamps and schedules no save. *)
Theorem recordItemUsed_unrelated :
  forall (now : number) (item : SearchItem) (allItems : list SearchItem)
         (persisted : JsMap.t number),
    (forall x, In x allItems -> related_to item x = false) ->
    let u := recordItemUsed now item allItems persisted in
    used_persisted u = persisted /\ used_allItems u = allItems
    /\ save_scheduled u = false.
Proof.
  intros now item allItems persisted Hnone. unfold recordItemUsed.
  rewrite persisted_untouched by assumption. cbn. tauto.
Qed.

End UsageFacts.

Section UsageWitnesses.
Import SearchService ServiceActivity.


Lemma recordItemUsed_unrelated_witness :
  let u := recordItemUsed (V := TextVscode) BoostExamples.now DedupExamples.as_method'
                          [DedupExamples.as_class; BoostExamples.file_a]
                          [("file:file:///w/a.ts", BoostExamples.an_hour_ago)] in
  used_persisted u = [("file:file:///w/a.ts", BoostExamples.an_hour_ago)]
  /\ used_allItems u = [DedupExamples.as_class; BoostExamples.file_a]
  /\ save_scheduled u = false.
Proof.
  apply (recordItemUsed_unrelated
           (V := TextVscode) BoostExamples.now DedupExamples.as_method'
           [DedupExamples.as_class; BoostExamples.file_a]
           [("file:file:///w/a.ts", BoostExamples.an_hour_ago)]).
  intros x [<-|[<-|[]]]; reflexivity.
Defined.

End UsageWitnesses.
(** ** Persisted timestamps *)

Section PersistFacts.
Context {V : Vscode}.
Import SearchService ServiceActivity.

Lemma JsMap_get_In {A : Type} (m : JsMap.t A) (k : string) (v : A) :
  List.NoDup (JsMap.keys m) -> (JsMap.get m k = Some v <-> In (k, v) m).
Proof.
  induction m as [|[k' v'] m IH]; cbn; intros Hnd.
  - split; [discriminate | contradiction].
  - apply List.NoDup_cons_iff in Hnd as [Hout Hnd].
    destruct (String.eqb_spec k' k) as [->|Hne].
    + split.
      * intros [= ->]. now left.
      * intros [[= ->] | Hin]; [reflexivity|].
        exfalso. apply Hout. apply in_map_iff. now exists (k, v).
    + rewrite IH by assumption. split; [now right|].
      intros [[= -> _] | Hin]; [contradiction | assumption].
Qed.

Lemma NoDup_firstn {A : Type} (n : nat) (l : list A) :
  List.NoDup l -> List.NoDup (firstn n l).
Proof.
  intros Hnd. rewrite <- (firstn_skipn n l) in Hnd.
  eapply List.NoDup_app_remove_r. eassumption.
Qed.

Lemma sorted_keys_NoDup (cmp : string * number -> string * number -> number)
      (n : nat) (m : JsMap.t number) :
  List.NoDup (JsMap.keys m) -> List.NoDup (JsMap.keys (firstn n (Array_sort cmp m))).
Proof.
  intros Hnd. unfold JsMap.keys. rewrite <- firstn_map. apply NoDup_firstn.
  eapply Permutation_NoDup; [|exact Hnd].
  apply Permutation_map. symmetry. apply Array_sort_Permutation.
Qed.

Lemma keys_NoDup_entries {A : Type} (m : JsMap.t A) :
  List.NoDup (JsMap.keys m) -> List.NoDup m.
Proof. apply List.NoDup_map_inv. Qed.

(** What [keepMostRecent] keeps, for any limit. *)
Lemma keepMostRecent_spec (limit : nat) (entries : JsMap.t number) :
  List.NoDup (JsMap.keys entries) ->
  List.Forall (fun e => is_number (snd e)) entries ->
  let kept := keepMostRecent limit entries in
  length kept = Nat.min limit (length entries)
  /\ (length entries <= limit -> kept = entries)
  /\ List.NoDup (JsMap.keys kept)
  /\ (forall e, In e kept -> In e entries)
  /\ (forall e d, In e kept -> In d entries -> ~ In d kept -> at_most (snd d) (snd e)).
Proof.
  intros Hnd Hnum kept. subst kept. unfold keepMostRecent.
  destruct (Nat.ltb_spec limit (length entries)) as [Hlt|Hge].
  - rewrite JsMap_fromEntries_NoDup by (now apply sorted_keys_NoDup).
    assert (Hperm : Array_sort byTimestampDescending entries ≡ₚ entries)
      by apply Array_sort_Permutation.
    repeat split.
    + rewrite length_firstn, Array_sort_length. reflexivity.
    + lia.
    + now apply sorted_keys_NoDup.
    + intros e He. eapply Permutation_in; [exact Hperm|]. eapply In_firstn. exact He.
    + intros e d He Hd Hnot.
      apply (firstn_largest snd limit (Array_sort byTimestampDescending entries)).
      * apply (Array_sort_descending snd). exact Hnum.
      * exact He.
      * apply Permutation_sym in Hperm. apply (Permutation_in _ Hperm) in Hd.
        rewrite <- (firstn_skipn limit) in Hd. apply in_app_or in Hd as [Hd|Hd];
          [contradiction | exact Hd].
  - repeat split; try tauto; try lia.
Qed.

(** [saveActivityScores] writes at most 500 timestamps: all of them when
    there are no more than that, otherwise 500 of them, each one at least as
    recent as every one that is dropped; the same entries stay in memory and
    go into the payload, under the current version and fingerprint. *)
Theorem saveActivityScores_keeps_most_recent :
  forall (storageUri : Uri) (fingerprint : string) (persisted : JsMap.t number),
    List.NoDup (JsMap.keys persisted) ->
    List.Forall (fun e => is_number (snd e)) persisted ->
    exists kept,
      saveActivityScores (Some storageUri) fingerprint persisted
      = Some (kept, {| asc_version := CACHE_VERSION;
                       asc_workspaceFingerprint := Some fingerprint;
                       asc_entries := Some kept |})
      /\ length kept = Nat.min 500 (length persisted)
      /\ (length persisted <= 500 -> kept = persisted)
      /\ List.NoDup (JsMap.keys kept)
      /\ (forall k ts, JsMap.get kept k = Some ts -> JsMap.get persisted k = Some ts)
      /\ (forall e d, In e kept -> In d persisted -> ~ In d kept ->
                      at_most (snd d) (snd e)).
Proof.
  intros storageUri fingerprint persisted Hnd Hnum.
  destruct (keepMostRecent_spec MAX_PERSISTED_ACTIVITY_ENTRIES persisted Hnd Hnum)
    as (Hlen & Hsmall & Hkeys & Hin & Hrecent).
  exists (keepMostRecent MAX_PERSISTED_ACTIVITY_ENTRIES persisted).
  split; [reflexivity|]. split; [exact Hlen|]. split; [exact Hsmall|].
  split; [exact Hkeys|]. split; [|exact Hrecent].
  intros k ts Hget. apply JsMap_get_In; [assumption|].
  apply Hin. apply JsMap_get_In; assumption.
Qed.

(** What [saveActivityScores] writes, [loadActivityScores] reads back in the
    same workspace, replacing whatever was in memory; in a workspace with
    another fingerprint the payload is ignored and the memory kept. *)
Theorem activity_scores_round_trip :
  forall (storageUri : Uri) (fingerprint : string) (persisted inMemory : JsMap.t number)
         (kept : JsMap.t number) (payload : ActivityScoresCache),
    saveActivityScores (Some storageUri) fingerprint persisted = Some (kept, payload) ->
    loadActivityScores (Some storageUri) (Some payload) fingerprint inMemory = kept
    /\ forall other,
        other <> fingerprint ->
        loadActivityScores (Some storageUri) (Some payload) other inMemory = inMemory.
Proof.
  intros storageUri fingerprint persisted inMemory kept payload [= <- <-].
  unfold loadActivityScores. cbn. rewrite String.eqb_refl. split; [reflexivity|].
  intros other Hne. apply not_eq_sym, String.eqb_neq in Hne. now rewrite Hne.
Qed.

End PersistFacts.

Section PersistWitnesses.
Import SearchService ServiceActivity.

Lemma saveActivityScores_keeps_most_recent_witness :
  exists kept,
    fst <$> saveActivityScores (V := TextVscode) (Some ActivityExamples.storage)
                               ActivityExamples.workspace ActivityExamples.remembered
    = Some kept
    /\ length kept = 500.
Proof.
  destruct (saveActivityScores_keeps_most_recent
              (V := TextVscode) ActivityExamples.storage ActivityExamples.workspace
              ActivityExamples.remembered)
    as (kept & Hsave & Hlen & _).
  - apply NoDup_ListNoDup.
    apply (bool_decide_unpack (base.NoDup (JsMap.keys ActivityExamples.remembered))).
    vm_compute. exact I.
  - apply List.Forall_forall. intros e He.
    apply in_map_iff in He as (n & <- & _). discriminate.
  - exists kept. rewrite Hsave. split; [reflexivity | exact Hlen].
Defined.

Lemma activity_scores_round_trip_witness :
  loadActivityScores
    (V := TextVscode) (Some ActivityExamples.storage)
    (Some {| asc_version := CACHE_VERSION;
             asc_workspaceFingerprint := Some ActivityExamples.workspace;
             asc_entries := Some [("file:a", Examples.T1)] |})
    ActivityExamples.workspace [("file:b", Examples.T2)]
  = [("file:a", Examples.T1)].
Proof.
  apply (activity_scores_round_trip
           (V := TextVscode) ActivityExamples.storage ActivityExamples.workspace
           [("file:a", Examples.T1)] [("file:b", Examples.T2)]).
  reflexivity.
Defined.

End PersistWitnesses.
(** ** Recently used documents *)

Section RecencyFacts.
Import SearchService ServiceActivity.

Lemma JsMap_set_In {A : Type} (m : JsMap.t A) (k : string) (v : A) (d : string * A) :
  In d (JsMap.set m k v) -> d = (k, v) \/ In d m.
Proof.
  induction m as [|[k' v'] m IH]; cbn.
  - intros [<- | []]. now left.
  - destruct (String.eqb_spec k' k) as [->|Hne]; cbn.
    + intros [<- | Hin]; [now left | right; now right].
    + intros [<- | Hin]; [right; now left|].
      destruct (IH Hin); [now left | right; now right].
Qed.

Lemma JsMap_set_In_other {A : Type} (m : JsMap.t A) (k : string) (v : A)
      (d : string * A) :
  In d m -> fst d <> k -> In d (JsMap.set m k v).
Proof.
  induction m as [|[k' v'] m IH]; cbn; [contradiction|].
  intros [<- | Hin] Hne; cbn in *.
  - apply String.eqb_neq in Hne. rewrite Hne. now left.
  - destruct (String.eqb k' k); right; [assumption | now apply IH].
Qed.

Lemma JsMap_delete_In {A : Type} (m : JsMap.t A) (k : string) (d : string * A) :
  In d (JsMap_delete m k) -> In d m.
Proof.
  induction m as [|[k' v'] m IH]; cbn; [tauto|].
  destruct (String.eqb k' k); cbn; tauto.
Qed.

Lemma JsMap_delete_In_other {A : Type} (m : JsMap.t A) (k : string) (d : string * A) :
  In d m -> fst d <> k -> In d (JsMap_delete m k).
Proof.
  induction m as [|[k' v'] m IH]; cbn; [contradiction|].
  intros [<- | Hin] Hne; cbn in *.
  - apply String.eqb_neq in Hne. rewrite Hne. now left.
  - destruct (String.eqb k' k); [assumption | right; now apply IH].
Qed.

Lemma In_keys {A : Type} (m : JsMap.t A) (d : string * A) :
  In d m -> In (fst d) (JsMap.keys m).
Proof. intros H. apply in_map_iff. now exists d. Qed.

Lemma Array_sort_head_In {A : Type} (cmp : A -> A -> number) (l : list A)
      (h : A) (rest : list A) :
  Array_sort cmp l = h :: rest -> In h l.
Proof.
  intros Hs. eapply Permutation_in; [apply Array_sort_Permutation|].
  rewrite Hs. now left.
Qed.

(** One call keeps the map within its bound and its keys distinct. *)
Lemma trackDocumentActivity_invariant (recent : JsMap.t number) (uri : string)
      (now : number) :
  length recent <= 20 -> List.NoDup (JsMap.keys recent) ->
  length (trackDocumentActivity recent uri now) <= 20
  /\ List.NoDup (JsMap.keys (trackDocumentActivity recent uri now)).
Proof.
  intros Hlen Hnd. unfold trackDocumentActivity.
  pose proof (JsMap_set_length recent uri now) as Hset.
  pose proof (JsMap_set_NoDup recent uri now Hnd) as Hnd'.
  destruct (Nat.ltb_spec 20 (length (JsMap.set recent uri now))) as [Hlt|Hge].
  - destruct (Array_sort byTimestampAscending (JsMap.set recent uri now))
      as [|h rest] eqn:Es.
    + apply (f_equal (@length _)) in Es. rewrite Array_sort_length in Es.
      cbn in Es. lia.
    + apply Array_sort_head_In, In_keys in Es.
      pose proof (JsMap_delete_length _ _ Es) as Hdel.
      split; [|now apply JsMap_delete_NoDup].
      destruct (in_dec string_dec uri (JsMap.keys recent)); lia.
  - split; assumption.
Qed.

(** [recentlyModifiedFiles] never holds more than 20 documents, and holds
    none twice, however many documents are tracked. *)
Theorem trackDocumentActivity_bounded :
  forall (events : list (string * number)),
    length (tracked_from JsMap.empty events) <= 20
    /\ List.NoDup (JsMap.keys (tracked_from JsMap.empty events)).
Proof.
  intros events.
  assert (Hfrom : forall recent,
             length recent <= 20 -> List.NoDup (JsMap.keys recent) ->
             length (tracked_from recent events) <= 20
             /\ List.NoDup (JsMap.keys (tracked_from recent events))).
  { induction events as [|[uri now] events IH]; intros recent Hlen Hnd.
    - now split.
    - cbn. destruct (trackDocumentActivity_invariant recent uri now Hlen Hnd).
      now apply IH. }
  apply Hfrom; cbn; [lia | constructor].
Qed.

(** When no stored timestamp is later than [now], the document just tracked
    is in the map with the time [now], and every other document keeps its
    timestamp or is dropped; one that is dropped is no more recent than any
    that stays. *)
Theorem trackDocumentActivity_keeps_recent :
  forall (recent : JsMap.t number) (uri : string) (now : number),
    length recent <= 20 ->
    List.NoDup (JsMap.keys recent) ->
    List.Forall (fun e => is_number (snd e)) recent ->
    is_number now ->
    none_later recent now ->
    let files := trackDocumentActivity recent uri now in
    JsMap.get files uri = Some now
    /\ (forall d, In d files -> d = (uri, now) \/ In d recent)
    /\ (forall d, In d recent -> fst d <> uri ->
                  In d files \/ forall e, In e files -> at_most (snd d) (snd e)).
Proof.
  intros recent uri now Hlen Hnd Hnum Hnow Hlater files. subst files.
  unfold trackDocumentActivity.
  pose proof (JsMap_set_length recent uri now) as Hset.
  destruct (Nat.ltb_spec 20 (length (JsMap.set recent uri now))) as [Hlt|Hge].
  - destruct (in_dec string_dec uri (JsMap.keys recent)) as [Hin|Hout]; [lia|].
    rewrite JsMap_set_fresh in * by assumption.
    destruct (Array_sort byTimestampAscending (recent ++ [(uri, now)]))
      as [|h rest] eqn:Es.
    { apply (f_equal (@length _)) in Es. rewrite Array_sort_length, length_app in Es.
      cbn in Es. lia. }
    assert (Hh : In h recent).
    { apply (Array_sort_ascending_last snd recent (uri, now) h rest).
      - intros ->. cbn in Hlt. lia.
      - exact Hlater.
      - exact Es. }
    assert (Hkey : fst h <> uri).
    { intros Heq. apply Hout. rewrite <- Heq. now apply In_keys. }
    assert (Hall : List.Forall (fun e => is_number (snd e)) (recent ++ [(uri, now)])).
    { apply Forall_app. split; [assumption|]. now repeat constructor. }
    split; [|split].
    + rewrite JsMap_get_delete_ne by assumption.
      rewrite <- (JsMap_set_fresh recent uri now) by assumption.
      apply JsMap_get_set_eq.
    + intros d Hd. apply JsMap_delete_In in Hd.
      apply in_app_or in Hd as [Hd | [<- | []]]; [now right | now left].
    + intros d Hd Hne.
      destruct (string_dec (fst d) (fst h)) as [Heq|Hneq].
      * right. intros e He. apply JsMap_delete_In in He.
        assert (d = h) as ->.
        { destruct d as [kd vd], h as [kh vh]. cbn in Heq. subst kd.
          f_equal. apply (JsMap_get_In recent kh) in Hd, Hh; try assumption.
          congruence. }
        apply (Array_sort_ascending_head snd (recent ++ [(uri, now)]) h rest e);
          assumption.
      * left. apply JsMap_delete_In_other; [|assumption].
        apply in_or_app. now left.
  - split; [apply JsMap_get_set_eq|]. split.
    + intros d Hd. now apply JsMap_set_In.
    + intros d Hd Hne. left. now apply JsMap_set_In_other.
Qed.

Lemma trackDocumentActivity_keeps_recent_witness :
  let files := trackDocumentActivity RecencyExamples.twenty "file:///w/new.ts"
                                     BoostExamples.now in
  JsMap.get files "file:///w/new.ts" = Some BoostExamples.now
  /\ (forall d, In d files -> d = ("file:///w/new.ts", BoostExamples.now)
                              \/ In d RecencyExamples.twenty)
  /\ (forall d, In d RecencyExamples.twenty -> fst d <> "file:///w/new.ts" ->
                In d files \/ forall e, In e files -> at_most (snd d) (snd e)).
Proof.
  apply (trackDocumentActivity_keeps_recent
           RecencyExamples.twenty "file:///w/new.ts" BoostExamples.now).
  - vm_compute. lia.
  - apply NoDup_ListNoDup.
    apply (bool_decide_unpack (base.NoDup (JsMap.keys RecencyExamples.twenty))).
    vm_compute. exact I.
  - apply List.Forall_forall. intros e He.
    apply in_map_iff in He as (n & <- & _). discriminate.
  - discriminate.
  - intros e He. apply in_map_iff in He as (n & <- & Hn). apply gt_Finite_false.
    apply in_seq in Hn. unfold Qle, inject_Z. cbn [Qnum Qden]. lia.
Defined.

End RecencyFacts.
(** ** Deferred updates of the index *)

Section UpdateFacts.
Import ServiceUpdates.

Lemma run_app (t1 t2 : list Event) (s : State) : run (t1 ++ t2) s = run t2 (run t1 s).
Proof. apply fold_left_app. Qed.

(** While the quick pick stays open, no update runs, and one is pending as
    soon as one fell due. *)
Lemma run_while_open (trace : list Event) (s : State) :
  searchUIActive s = true -> stays_open trace ->
  searchUIActive (run trace s) = true
  /\ updates (run trace s) = updates s
  /\ pendingIndexUpdate (run trace s)
     = pendingIndexUpdate s || existsb (fun e => match e with UpdateDue => true | _ => false end)
                                       trace.
Proof.
  revert s. induction trace as [|e trace IH]; intros s Hactive Hopen.
  - cbn. now rewrite orb_false_r.
  - assert (Hrest : stays_open trace) by (intros e' He'; apply Hopen; now right).
    assert (He : e <> SetActive false) by (apply Hopen; now left).
    cbn [run fold_left]. fold (run trace (step s e)).
    destruct e as [|[|]]; [| |contradiction]; cbn [step existsb].
    + unfold indexUpdateDue. rewrite Hactive.
      destruct (IH {| searchUIActive := true; pendingIndexUpdate := true;
                      updates := updates s |} eq_refl Hrest) as (Ha & Hu & Hp).
      cbn in Hu, Hp. repeat split; [exact Ha | exact Hu |].
      rewrite Hp. cbn. now rewrite orb_true_r.
    + unfold setSearchUIActive. cbn [negb andb].
      destruct (IH {| searchUIActive := true; pendingIndexUpdate := pendingIndexUpdate s;
                      updates := updates s |} eq_refl Hrest) as (Ha & Hu & Hp).
      cbn in Hu, Hp. repeat split; [exact Ha | exact Hu | exact Hp].
Qed.

(** Updates that fall due while the quick pick is open are neither run nor
    lost: none runs while it stays open, however many fall due, and closing
    it runs exactly one and leaves none pending. *)
Theorem deferred_updates_run_once :
  forall (trace : list Event) (s : State),
    searchUIActive s = true ->
    stays_open trace ->
    In UpdateDue trace ->
    updates (run trace s) = updates s
    /\ updates (run (trace ++ [SetActive false]) s) = S (updates s)
    /\ pendingIndexUpdate (run (trace ++ [SetActive false]) s) = false.
Proof.
  intros trace s Hactive Hopen Hdue.
  destruct (run_while_open trace s Hactive Hopen) as (Ha & Hu & Hp).
  assert (Hpending : pendingIndexUpdate (run trace s) = true).
  { rewrite Hp. apply orb_true_iff. right. apply existsb_exists.
    exists UpdateDue. now split. }
  split; [exact Hu|]. rewrite run_app. cbn. unfold setSearchUIActive.
  rewrite Hpending. cbn. now rewrite Hu.
Qed.

Lemma deferred_updates_run_once_witness :
  updates (run [UpdateDue; SetActive true; UpdateDue]
               (setSearchUIActive true initial)) = 0
  /\ updates (run ([UpdateDue; SetActive true; UpdateDue] ++ [SetActive false])
                  (setSearchUIActive true initial)) = 1
  /\ pendingIndexUpdate (run ([UpdateDue; SetActive true; UpdateDue] ++ [SetActive false])
                             (setSearchUIActive true initial)) = false.
Proof.
  apply (deferred_updates_run_once [UpdateDue; SetActive true; UpdateDue]
                                   (setSearchUIActive true initial)).
  - reflexivity.
  - intros e [<- | [<- | [<- | []]]]; discriminate.
  - now left.
Defined.

(** Whatever happens, no update is left pending once the quick pick is
    hidden: an update is pending only while the quick pick is shown. *)
Theorem pending_only_while_open :
  forall (trace : list Event),
    pendingIndexUpdate (run trace initial) && negb (searchUIActive (run trace initial))
    = false.
Proof.
  intros trace.
  assert (Hfrom : forall s,
             pendingIndexUpdate s && negb (searchUIActive s) = false ->
             pendingIndexUpdate (run trace s) && negb (searchUIActive (run trace s))
             = false).
  { induction trace as [|e trace IH]; intros s Hs; [exact Hs|].
    cbn [run fold_left]. apply IH.
    destruct s as [active pending n]. cbn in Hs.
    destruct e as [|[|]], active, pending; cbn in *; congruence. }
  now apply Hfrom.
Qed.

End UpdateFacts.

(** ** Searching with an empty query, and the order of the providers *)

Section SearchFacts.
Context {V : Vscode}.
Import SearchService ServiceSearch.

Lemma unscored_assign_score (i : SearchItem) (s : number) :
  unscored (assign_score i s) = unscored i.
Proof. reflexivity. Qed.

Lemma unscored_boostItem (activityWeight now : number) (recent : gmap string number)
      (i : SearchItem) :
  unscored (boostItem activityWeight now recent i) = unscored i.
Proof.
  assert (Hfile : unscored (boostByFile activityWeight now recent i) = unscored i).
  { unfold boostByFile.
    repeat match goal with
           | |- context [match ?x with _ => _ end] => destruct x
           end; reflexivity. }
  unfold boostItem. rewrite <- Hfile.
  generalize (boostByFile activityWeight now recent i). intros j.
  unfold boostByActivity.
  repeat match goal with
         | |- context [match ?x with _ => _ end] => destruct x
         end; reflexivity.
Qed.

Lemma boostItem_no_score (activityWeight now : number) (recent : gmap string number)
      (i : SearchItem) :
  score i = None -> boostItem activityWeight now recent i = i.
Proof.
  intros Hs.
  assert (Hfile : boostByFile activityWeight now recent i = i).
  { unfold boostByFile. rewrite Hs.
    repeat match goal with
           | |- context [match ?x with _ => _ end] => destruct x
           end; reflexivity. }
  unfold boostItem. rewrite Hfile. unfold boostByActivity. rewrite Hs.
  repeat match goal with
         | |- context [match ?x with _ => _ end] => destruct x
         end; reflexivity.
Qed.

(** A search with an empty query returns every indexed item, each once, and
    changes nothing of an item but its score, neither in the result nor in
    the index, which keeps its order; an item that has no score, as in an
    index that no query has been run on, is not changed at all. *)
Theorem search_blank_returns_index :
  forall (activityEnabled : bool) (activityWeight now : number)
         (recent : gmap string number) (allItems : list SearchItem),
    let '(results, allItems') :=
      search_blank activityEnabled activityWeight now recent allItems in
    results ≡ₚ allItems'
    /\ List.Forall2
         (fun i i' : SearchItem =>
            unscored i' = unscored i
            /\ match score i with None => i' = i | Some _ => True end)
         allItems allItems'.
Proof.
  intros activityEnabled activityWeight now recent allItems. unfold search_blank.
  split; [apply Array_sort_Permutation|].
  destruct activityEnabled.
  - unfold boostRecentlyModifiedItems. induction allItems as [|i allItems IH]; cbn.
    + constructor.
    + constructor; [|exact IH]. split; [apply unscored_boostItem|].
      destruct (score i) eqn:Hs; [exact I|]. now apply boostItem_no_score.
  - induction allItems as [|i allItems IH]; constructor; [|exact IH].
    split; [reflexivity|]. now destruct (score i).
Qed.

Lemma first_of_its_key_app (l1 l2 : list SearchItem) (x w : SearchItem) :
  first_of_its_key (l1 ++ l2) x ->
  In w l1 -> getDeduplicationKey w = getDeduplicationKey x ->
  In x l1.
Proof.
  intros (pre & post & Heq & Hpre) Hw Hkey.
  apply app_eq_app in Heq as (l & [[Hl1 Hpost] | [Hpre' Hl2]]).
  - destruct l as [|y l].
    + rewrite app_nil_r in Hl1. subst l1. exfalso. now apply (Hpre w).
    + cbn in Hpost. injection Hpost as <- _. subst l1. apply in_or_app. right. now left.
  - subst pre. exfalso. apply (Hpre w); [|assumption]. apply in_or_app. now left.
Qed.

(** Workspace symbols take precedence over document symbols: when the
    workspace-symbol provider delivers an item of some key, the item that
    [updateIndexFromProviders] keeps under that key is one delivered by that
    provider or by the file provider, registered before it, with at most its
    persisted timestamp added; it never comes from a provider registered
    later. *)
Theorem earlier_provider_wins :
  forall (indexing : IndexingConfig) (getItems : string -> option (list SearchItem))
         (persisted : gmap string number) (x w : SearchItem),
    includeSymbols indexing = true ->
    In w (delivers getItems "symbols") ->
    getDeduplicationKey w = getDeduplicationKey x ->
    In x (updateIndexFromProviders indexing getItems persisted) ->
    exists y,
      (In y (delivers getItems "symbols")
       \/ (includeFiles indexing = true /\ In y (delivers getItems "files")))
      /\ (x = y \/ exists ts, persisted !! getDeduplicationKey y = Some ts
                              /\ x = assign_activityScore y ts).
Proof.
  intros indexing getItems persisted x w Hsym Hw Hkey Hx.
  unfold updateIndexFromProviders, applyPersistedActivityScores in Hx.
  apply in_map_iff in Hx as (y & Hxy & Hy).
  assert (Hykey : getDeduplicationKey y = getDeduplicationKey x).
  { subst x. now destruct (persisted !! getDeduplicationKey y). }
  exists y. split.
  - unfold updateIndexFromProviders_merge in Hy.
    rewrite mergePass_first_seen in Hy. apply first_seen_In in Hy as [_ Hy].
    unfold registerProviders in Hy. rewrite Hsym in Hy.
    rewrite !map_app, !concat_app in Hy. cbn [List.map concat] in Hy.
    change (match getItems "symbols" with Some items => items | None => [] end)
      with (delivers getItems "symbols") in Hy.
    destruct (includeFiles indexing).
    + cbn [List.map concat] in Hy.
      change (match getItems "files" with Some items => items | None => [] end)
        with (delivers getItems "files") in Hy.
      rewrite app_nil_r, <- !app_assoc in Hy. rewrite app_assoc in Hy.
      assert (Hin : In y (delivers getItems "files" ++ delivers getItems "symbols")).
      { apply (first_of_its_key_app _ _ y w Hy); [|congruence].
        apply in_or_app. now right. }
      apply in_app_or in Hin as [Hin | Hin]; [right; now split | now left].
    + cbn [List.map concat app] in Hy. rewrite <- !app_assoc in Hy.
      left. apply (first_of_its_key_app _ _ y w Hy); [assumption | congruence].
  - destruct (persisted !! getDeduplicationKey y) as [ts|] eqn:E.
    + right. exists ts. now split.
    + now left.
Qed.

End SearchFacts.

Section SearchWitnesses.
Import SearchService ServiceSearch.

Lemma earlier_provider_wins_witness :
  List.Forall
    (fun x =>
       getDeduplicationKey DedupExamples.as_method = getDeduplicationKey x ->
       exists y,
         (In y (delivers UsageExamples.delivered "symbols")
          \/ (includeFiles UsageExamples.everything = true
              /\ In y (delivers UsageExamples.delivered "files")))
         /\ (x = y \/ exists ts, (∅ : gmap string number) !! getDeduplicationKey y = Some ts
                                 /\ x = assign_activityScore y ts))
    (updateIndexFromProviders (V := TextVscode) UsageExamples.everything
                              UsageExamples.delivered ∅).
Proof.
  apply List.Forall_forall. intros x Hx Hkey.
  apply (earlier_provider_wins (V := TextVscode) UsageExamples.everything
                               UsageExamples.delivered ∅ x DedupExamples.as_method).
  - reflexivity.
  - now left.
  - exact Hkey.
  - exact Hx.
Defined.

End SearchWitnesses.
(** ** The fuzzy matchers on a query *)

Section MatchingFacts.
Context {V : Vscode}.
Import FuzzySearcher.

Lemma unscored_alter (s : number) (i : nat) (items : list SearchItem) :
  List.map unscored (alter (fun it => assign_score it s) i items)
  = List.map unscored items.
Proof.
  revert i. induction items as [|x items IH]; intros i; [reflexivity|].
  destruct i as [|i]; cbn; [reflexivity|]. f_equal. apply IH.
Qed.

Lemma write_scores_unscored (scored : list (nat * number)) (items : list SearchItem) :
  List.map unscored (write_scores scored items) = List.map unscored items.
Proof.
  unfold write_scores. revert items.
  induction scored as [|r scored IH]; intros items; cbn; [reflexivity|].
  rewrite IH. apply unscored_alter.
Qed.

Lemma write_scores_snoc (scored : list (nat * number)) (r : nat * number)
      (items : list SearchItem) :
  write_scores (scored ++ [r]) items
  = alter (fun it => assign_score it (snd r)) (fst r) (write_scores scored items).
Proof. unfold write_scores. now rewrite fold_left_app. Qed.

(** A position that was scored holds an item with one of its scores. *)
Lemma write_scores_lookup (scored : list (nat * number)) (items : list SearchItem)
      (i : nat) (x : SearchItem) :
  In i (List.map fst scored) ->
  write_scores scored items !! i = Some x ->
  exists s, In (i, s) scored /\ score x = Some s.
Proof.
  revert x. induction scored as [|r scored IH] using rev_ind; intros x Hi Hx;
    [contradiction|].
  rewrite write_scores_snoc in Hx. rewrite list_lookup_alter in Hx.
  destruct (decide (fst r = i)) as [Heq|Hne].
  - destruct (write_scores scored items !! fst r) as [y|]; [|discriminate].
    cbn in Hx. injection Hx as <-. exists (snd r). split; [|reflexivity].
    apply in_or_app. right. left. destruct r. cbn in *. now subst.
  - rewrite map_app in Hi. apply in_app_or in Hi as [Hi | [Hi | []]]; [|contradiction].
    destruct (IH x Hi Hx) as (s & Hs & Hscore). exists s. split; [|assumption].
    apply in_or_app. now left.
Qed.

Lemma slice0_incl {A : Type} (a : list A) (end_ : Z) (x : A) :
  In x (slice0 a end_) -> In x a.
Proof. apply In_firstn. Qed.

Lemma slice0_length {A : Type} (a : list A) (end_ : Z) :
  (0 <= end_)%Z -> length (slice0 a end_) <= Z.to_nat end_.
Proof.
  intros Hn. unfold slice0. destruct (Z.ltb_spec end_ 0); [lia|].
  rewrite length_firstn. lia.
Qed.

(** What [scored_search] returns comes from the scored positions. *)
Lemma scored_search_returned (effectiveLimit : Z) (scored : list (nat * number))
      (items : list SearchItem) (x : SearchItem) :
  In x (returned (scored_search effectiveLimit scored items)) ->
  In x (items_after (scored_search effectiveLimit scored items))
  /\ exists s, In s (List.map snd scored) /\ score x = Some s.
Proof.
  unfold scored_search. cbn [returned items_after]. intros Hx.
  apply slice0_incl, list_elem_of_In, list_elem_of_omap in Hx as ([i s0] & Hr & Hlook).
  cbn in Hlook. split.
  - apply list_elem_of_In. eapply list_elem_of_lookup_2. eassumption.
  - apply list_elem_of_In in Hr.
    destruct (write_scores_lookup scored items i x) as (s & Hs & Hscore);
      [apply in_map_iff; now exists (i, s0) | assumption |].
    exists s. split; [|assumption]. apply in_map_iff. now exists (i, s).
Qed.

(** Matching changes nothing of an item but its score, and returns items of
    the index itself, whichever library does it and whatever the library
    answers. *)
Theorem matchers_change_scores_only :
  forall (go : JsString.code_units -> list string -> option Z -> list (nat * number))
         (filter : list string -> JsString.code_units -> option Z -> list nat)
         (score_of : string -> JsString.code_units -> number)
         (items : list SearchItem) (query : JsString.code_units) (limit : option Z),
    (List.map unscored (items_after (Fuzzysort_search go items query limit))
     = List.map unscored items
     /\ incl (returned (Fuzzysort_search go items query limit))
             (items_after (Fuzzysort_search go items query limit)))
    /\ (List.map unscored
                 (items_after (Fuzzaldrin_search filter score_of items query limit))
        = List.map unscored items
        /\ incl (returned (Fuzzaldrin_search filter score_of items query limit))
                (items_after (Fuzzaldrin_search filter score_of items query limit))).
Proof.
  intros go filter score_of items query limit.
  unfold Fuzzysort_search, Fuzzaldrin_search.
  destruct (negb (JsString.truthy_units (JsString.trim query))); cbn [returned items_after].
  - repeat split; try reflexivity; intros x Hx; eapply slice0_incl; exact Hx.
  - repeat split; try apply write_scores_unscored;
      intros x Hx; now apply scored_search_returned in Hx.
Qed.

Lemma normalized_not_negative (raw : number) :
  at_most (of_Z 0) (div (max (of_Z 0) (add (of_Z 1000) raw)) (of_Z 1000)).
Proof.
  unfold at_most, of_Z. destruct raw as [| | |q]; try reflexivity.
  cbn [add max].
  destruct (gt (Finite (Qred (inject_Z 1000 + q))) (Finite (inject_Z 0))) eqn:E.
  - apply gt_Finite in E. rewrite Qred_correct in E.
    cbn [div]. change (Qeq_bool (inject_Z 1000) 0) with false. cbv iota.
    apply gt_Finite_false.
    rewrite !Qred_correct. apply Qle_shift_div_l; [reflexivity|].
    rewrite Qmult_0_l. apply Qlt_le_weak. exact E.
  - cbn [div]. change (Qeq_bool (inject_Z 1000) 0) with false. cbv iota.
    apply gt_Finite_false. rewrite Qred_correct. unfold Qle. cbn. lia.
Qed.

(** On a query that [trim] does not empty (one that holds a character other
    than the white space and line terminators of ECMAScript), every item
    returned carries a score; with fuzzysort that score is never negative,
    and with a limit that is not negative no more items are returned than
    the limit. *)
Theorem matches_carry_scores :
  forall (go : JsString.code_units -> list string -> option Z -> list (nat * number))
         (filter : list string -> JsString.code_units -> option Z -> list nat)
         (score_of : string -> JsString.code_units -> number)
         (items : list SearchItem) (query : JsString.code_units) (limit : Z),
    JsString.truthy_units (JsString.trim query) = true ->
    (0 <= limit)%Z ->
    (length (returned (Fuzzysort_search go items query (Some limit))) <= Z.to_nat limit
     /\ forall x, In x (returned (Fuzzysort_search go items query (Some limit))) ->
                  exists s, score x = Some s /\ at_most (of_Z 0) s)
    /\ (length (returned (Fuzzaldrin_search filter score_of items query (Some limit)))
        <= Z.to_nat limit
        /\ forall x,
            In x (returned (Fuzzaldrin_search filter score_of items query (Some limit))) ->
            exists s, score x = Some s).
Proof.
  intros go filter score_of items query limit Hquery Hlimit.
  unfold Fuzzysort_search, Fuzzaldrin_search. rewrite Hquery. cbn [negb default].
  split; split.
  - now apply slice0_length.
  - intros x Hx. apply scored_search_returned in Hx as (_ & s & Hs & Hscore).
    exists s. split; [assumption|]. rewrite map_map in Hs.
    apply in_map_iff in Hs as (r & <- & _). apply normalized_not_negative.
  - now apply slice0_length.
  - intros x Hx. apply scored_search_returned in Hx as (_ & s & _ & Hscore).
    now exists s.
Qed.

End MatchingFacts.

Section MatchingWitnesses.
Import FuzzySearcher.

Lemma matches_carry_scores_witness :
  List.Forall
    (fun x : @SearchItem TextVscode => exists s, score x = Some s /\ at_most (of_Z 0) s)
    (returned (Fuzzysort_search QueryExamples.go_all QueryExamples.three
                                (JsString.units " a") (Some 2%Z))).
Proof.
  apply List.Forall_forall.
  apply (matches_carry_scores (V := TextVscode) QueryExamples.go_all
                              QueryExamples.filter_all QueryExamples.score_one
                              QueryExamples.three (JsString.units " a") 2%Z);
    [reflexivity | lia].
Defined.

End MatchingWitnesses.
(** ** Symbol items *)

Section SymbolTreeFacts.
Context {V : Vscode}.
Import DocumentSymbols.

Lemma tree_items_eq (uri : Uri) (container : string) (symbol : DocumentSymbol) :
  tree_items uri container symbol
  = symbolItemOf uri container symbol
      :: forest_items uri (ds_name symbol) (ds_children symbol).
Proof.
  destruct symbol as [name kind range sel children]. reflexivity.
Qed.

Lemma symbolCount_eq (symbol : DocumentSymbol) :
  symbolCount symbol = S (symbolCounts (ds_children symbol)).
Proof.
  destruct symbol as [name kind range sel children]. cbn. f_equal.
  unfold symbolCounts. induction children as [|child children IH]; cbn; [reflexivity|].
  now rewrite IH.
Qed.

Lemma pushed_cons (symbol : DocumentSymbol) (symbols : list DocumentSymbol) :
  pushed (symbol :: symbols)
  = match ds_children symbol with
    | [] => []
    | _ :: _ => [(ds_children symbol, ds_name symbol)]
    end ++ pushed symbols.
Proof. reflexivity. Qed.

Lemma visit_fold (uri : Uri) (container : string) (symbols : list DocumentSymbol)
      (stack : list StackEntry) (symbolItems : list SymbolSearchItem) :
  fold_left (visit uri container) symbols (stack, symbolItems)
  = (rev (pushed symbols) ++ stack,
     symbolItems ++ List.map (symbolItemOf uri container) symbols).
Proof.
  revert stack symbolItems.
  induction symbols as [|symbol symbols IH]; intros stack symbolItems.
  - cbn. now rewrite app_nil_r.
  - cbn [fold_left].
    assert (Hvisit :
              visit uri container (stack, symbolItems) symbol
              = (match ds_children symbol with
                 | [] => stack
                 | _ :: _ => (ds_children symbol, ds_name symbol) :: stack
                 end,
                 symbolItems ++ [symbolItemOf uri container symbol])).
    { unfold visit. destruct (ds_children symbol); reflexivity. }
    rewrite Hvisit, IH, pushed_cons.
    destruct (ds_children symbol); cbn [app rev]; rewrite <- ?app_assoc; reflexivity.
Qed.

Lemma stack_weight_cons (e : StackEntry) (s : list StackEntry) :
  stack_weight (e :: s) = S (symbolCounts (fst e)) + stack_weight s.
Proof. reflexivity. Qed.

Lemma stack_weight_app (s1 s2 : list StackEntry) :
  stack_weight (s1 ++ s2) = stack_weight s1 + stack_weight s2.
Proof. unfold stack_weight. now rewrite map_app, list_sum_app. Qed.

Lemma stack_weight_rev (s : list StackEntry) : stack_weight (rev s) = stack_weight s.
Proof.
  induction s as [|e s IH]; [reflexivity|]. cbn [rev].
  rewrite stack_weight_app, IH, !stack_weight_cons.
  change (stack_weight []) with 0. lia.
Qed.

Lemma stack_weight_pushed (symbols : list DocumentSymbol) :
  stack_weight (pushed symbols) <= symbolCounts symbols.
Proof.
  induction symbols as [|symbol symbols IH]; [reflexivity|].
  rewrite pushed_cons, stack_weight_app.
  assert (Hcons : symbolCounts (symbol :: symbols)
                  = symbolCount symbol + symbolCounts symbols) by reflexivity.
  rewrite Hcons, symbolCount_eq.
  destruct (ds_children symbol) as [|child children].
  - change (stack_weight []) with 0. lia.
  - rewrite stack_weight_cons. change (stack_weight []) with 0. cbn [fst]. lia.
Qed.

Lemma pushed_items (uri : Uri) (symbols : list DocumentSymbol) :
  flat_map (fun e : StackEntry => forest_items uri (snd e) (fst e)) (pushed symbols)
  = flat_map (fun symbol => forest_items uri (ds_name symbol) (ds_children symbol))
             symbols.
Proof.
  induction symbols as [|symbol symbols IH]; [reflexivity|].
  rewrite pushed_cons, flat_map_app. cbn [flat_map]. f_equal; [|exact IH].
  destruct (ds_children symbol); cbn; now rewrite ?app_nil_r.
Qed.

Lemma forest_items_levels (uri : Uri) (container : string)
      (symbols : list DocumentSymbol) :
  forest_items uri container symbols
  ≡ₚ List.map (symbolItemOf uri container) symbols
      ++ flat_map (fun symbol => forest_items uri (ds_name symbol) (ds_children symbol))
                  symbols.
Proof.
  induction symbols as [|symbol symbols IH]; [reflexivity|].
  unfold forest_items. cbn [flat_map List.map]. fold (forest_items uri container symbols).
  rewrite tree_items_eq, IH. cbn. constructor.
  rewrite !app_assoc. apply Permutation_app_tail. apply Permutation_app_comm.
Qed.

Lemma symbolCounts_cons (symbol : DocumentSymbol) (symbols : list DocumentSymbol) :
  symbolCounts (symbol :: symbols) = symbolCount symbol + symbolCounts symbols.
Proof. reflexivity. Qed.

Lemma forest_items_cons (uri : Uri) (container : string) (symbol : DocumentSymbol)
      (symbols : list DocumentSymbol) :
  forest_items uri container (symbol :: symbols)
  = tree_items uri container symbol ++ forest_items uri container symbols.
Proof. reflexivity. Qed.

Lemma forest_items_length (uri : Uri) (container : string)
      (symbols : list DocumentSymbol) :
  length (forest_items uri container symbols) = symbolCounts symbols.
Proof.
  assert (Hsize : forall n symbols container,
             symbolCounts symbols <= n ->
             length (forest_items uri container symbols) = symbolCounts symbols).
  { clear symbols container. induction n as [|n IHn]; intros symbols container Hn.
    - destruct symbols as [|s symbols]; [reflexivity|].
      rewrite symbolCounts_cons, symbolCount_eq in Hn. lia.
    - induction symbols as [|s symbols IHl]; [reflexivity|].
      rewrite symbolCounts_cons, symbolCount_eq in *.
      rewrite forest_items_cons, length_app, tree_items_eq. cbn [length].
      rewrite IHl by lia. rewrite IHn by lia. reflexivity. }
  now apply (Hsize (symbolCounts symbols)).
Qed.

Lemma processSymbols_loop_step (uri : Uri) (fuel : nat) (symbols : list DocumentSymbol)
      (container : string) (stack : list StackEntry)
      (symbolItems : list SymbolSearchItem) :
  processSymbols_loop (S fuel) uri ((symbols, container) :: stack) symbolItems
  = processSymbols_loop fuel uri (rev (pushed symbols) ++ stack)
                        (symbolItems ++ List.map (symbolItemOf uri container) symbols).
Proof.
  change (processSymbols_loop (S fuel) uri ((symbols, container) :: stack) symbolItems)
    with (let '(stack', symbolItems') :=
            fold_left (visit uri container) symbols (stack, symbolItems) in
          processSymbols_loop fuel uri stack' symbolItems').
  now rewrite visit_fold.
Qed.

(** With fuel beyond the weight of the stack, the loop ends, having added
    the items of every tree on the stack. *)
Lemma processSymbols_loop_spec (uri : Uri) (fuel : nat) (stack : list StackEntry)
      (symbolItems : list SymbolSearchItem) :
  stack_weight stack < fuel ->
  exists out,
    processSymbols_loop fuel uri stack symbolItems = Some (symbolItems ++ out)
    /\ out ≡ₚ flat_map (fun e : StackEntry => forest_items uri (snd e) (fst e)) stack.
Proof.
  revert stack symbolItems.
  induction fuel as [|fuel IH]; intros stack symbolItems Hfuel; [lia|].
  destruct stack as [|[symbols container] stack].
  - exists []. now rewrite app_nil_r.
  - rewrite processSymbols_loop_step.
    destruct (IH (rev (pushed symbols) ++ stack)
                 (symbolItems ++ List.map (symbolItemOf uri container) symbols))
      as (out & Hout & Hperm).
    { rewrite stack_weight_app, stack_weight_rev.
      pose proof (stack_weight_pushed symbols).
      rewrite stack_weight_cons in Hfuel. cbn [fst] in Hfuel. lia. }
    exists (List.map (symbolItemOf uri container) symbols ++ out). split.
    + rewrite Hout. now rewrite app_assoc.
    + rewrite Hperm. cbn [flat_map fst snd]. rewrite flat_map_app.
      rewrite forest_items_levels, <- app_assoc. apply Permutation_app_head.
      apply Permutation_app_tail. rewrite <- pushed_items.
      apply Permutation_flat_map. symmetry. apply Permutation_rev.
Qed.

Lemma processSymbols_adds_forest (symbols : list DocumentSymbol) (uri : Uri)
      (containerName : string) (symbolItems : list SymbolSearchItem) :
  exists nested,
    processSymbols symbols uri containerName symbolItems
    = Some (symbolItems ++ List.map (symbolItemOf uri containerName) symbols ++ nested)
    /\ List.map (symbolItemOf uri containerName) symbols ++ nested
       ≡ₚ forest_items uri containerName symbols.
Proof.
  unfold processSymbols.
  change (2 + symbolCounts symbols) with (S (S (symbolCounts symbols))).
  rewrite processSymbols_loop_step, app_nil_r.
  destruct (processSymbols_loop_spec
              uri (S (symbolCounts symbols)) (rev (pushed symbols))
              (symbolItems ++ List.map (symbolItemOf uri containerName) symbols))
    as (nested & Hnested & Hperm).
  { rewrite stack_weight_rev. pose proof (stack_weight_pushed symbols). lia. }
  exists nested. split; [now rewrite Hnested, app_assoc|].
  rewrite forest_items_levels. apply Permutation_app_head.
  rewrite Hperm, <- pushed_items. apply Permutation_flat_map.
  apply Permutation_sym, Permutation_rev.
Qed.

(** [processSymbols] ends and adds one item for every symbol of the trees,
    nested ones included, each with its parent's name as container; the
    items of the given symbols come first, in their order. *)
Theorem processSymbols_visits_every_symbol :
  forall (symbols : list DocumentSymbol) (uri : Uri) (containerName : string)
         (symbolItems : list SymbolSearchItem),
    exists nested,
      processSymbols symbols uri containerName symbolItems
      = Some (symbolItems ++ List.map (symbolItemOf uri containerName) symbols ++ nested)
      /\ List.map (symbolItemOf uri containerName) symbols ++ nested
         ≡ₚ forest_items uri containerName symbols
      /\ length nested + length symbols = symbolCounts symbols.
Proof.
  intros symbols uri containerName symbolItems.
  destruct (processSymbols_adds_forest symbols uri containerName symbolItems)
    as (nested & Hrun & Hall).
  exists nested. split; [exact Hrun|]. split; [exact Hall|].
  apply Permutation_length in Hall. rewrite length_app, length_map in Hall.
  rewrite forest_items_length in Hall. lia.
Qed.

End SymbolTreeFacts.

Section SymbolRankFacts.
Context {V : Vscode}.
Import SearchService.

Lemma is_negative_sub_iff (x y : number) : is_negative (sub y x) = gt x y.
Proof.
  destruct (gt x y) eqn:E.
  - now destruct (gt_sub _ _ E) as (_ & H & _).
  - destruct x as [| | |a], y as [| | |b]; try reflexivity; try discriminate.
    unfold is_negative, lt, sub. apply gt_Finite_false in E. apply gt_Finite_false.
    rewrite Qred_correct. lra.
Qed.

Lemma getSymbolPriority_cases (kind : Z) :
  In (getSymbolPriority kind) [of_Z 100; of_Z 90; of_Z 70; of_Z 60; of_Z 40; of_Z 50].
Proof.
  destruct kind as [|p|p]; cbn; try tauto.
  do 5 (destruct p as [p|p|]; cbn; try tauto).
Qed.

Lemma getSymbolPriority_truthy (kind : Z) : truthy (getSymbolPriority kind) = true.
Proof.
  pose proof (getSymbolPriority_cases kind) as H. cbn in H.
  repeat (destruct H as [<- | H]; [reflexivity|]). contradiction.
Qed.

Lemma class_kind_priority (kind : Z) :
  (mapSymbolKindToGroup kind =? SymbolKindGroup.Class)%Z = true
  <-> getSymbolPriority kind = of_Z 100.
Proof.
  destruct kind as [|p|p]; try (cbv; split; intros; (reflexivity || discriminate)).
  do 5 (destruct p as [p|p|];
        try (cbv; split; intros; (reflexivity || discriminate))).
Qed.

Lemma compareResults_built (na nb ca cb : string) (ka kb : Z) (ua ub : Uri)
      (ra rb va vb : Range) :
  compareResults (built na ka ca ua ra va) (built nb kb cb ub rb vb)
  = sub (getSymbolPriority kb) (getSymbolPriority ka).
Proof.
  unfold compareResults, by_score_then_priority, built. cbn.
  now rewrite !getSymbolPriority_truthy.
Qed.

(** Of two symbol items fresh from a provider, the kind decides the rank:
    the item whose kind has the higher priority comes first.  A built item
    is typed class exactly when its priority is 100, the highest, so that
    classes, interfaces, structs and enums come before everything else; and
    no kind has a priority that the ranking would replace by its default. *)
Theorem built_symbols_rank_by_kind :
  forall (na nb ca cb : string) (ka kb : Z) (ua ub : Uri) (ra rb va vb : Range),
    let a := built na ka ca ua ra va in
    let b := built nb kb cb ub rb vb in
    (type a = SearchItemType.Class <-> priority a = Some (of_Z 100))
    /\ effective_priority a = getSymbolPriority ka
    /\ (ranks_above a b <-> gt (getSymbolPriority ka) (getSymbolPriority kb) = true)
    /\ (type a = SearchItemType.Class -> type b = SearchItemType.Symbol ->
        ranks_above a b).
Proof.
  intros na nb ca cb ka kb ua ub ra rb va vb a b.
  assert (Hclass : forall n k c u r v,
             type (built n k c u r v) = SearchItemType.Class
             <-> getSymbolPriority k = of_Z 100).
  { intros n k c u r v. rewrite <- class_kind_priority. cbn.
    destruct (mapSymbolKindToGroup k =? SymbolKindGroup.Class)%Z;
      split; (reflexivity || discriminate). }
  assert (Hrank : ranks_above a b
                  <-> gt (getSymbolPriority ka) (getSymbolPriority kb) = true).
  { unfold ranks_above. subst a b. rewrite !compareResults_built.
    rewrite is_negative_sub_iff, is_positive_sub_iff. tauto. }
  split; [|split; [|split]].
  - subst a. rewrite Hclass. cbn. split; [now intros -> | now intros [= ->]].
  - subst a. unfold effective_priority. cbn. now rewrite getSymbolPriority_truthy.
  - exact Hrank.
  - intros Ha Hb. apply Hrank. subst a b. apply Hclass in Ha. rewrite Ha.
    assert (Hnot : getSymbolPriority kb <> of_Z 100).
    { intros H. apply Hclass with (n := nb) (c := cb) (u := ub) (r := rb) (v := vb) in H.
      rewrite H in Hb. discriminate. }
    pose proof (getSymbolPriority_cases kb) as Hk. cbn in Hk.
    destruct Hk as [Hk | Hk]; [now symmetry in Hk|].
    repeat (destruct Hk as [<- | Hk]; [reflexivity|]). contradiction.
Qed.

End SymbolRankFacts.

Section SymbolRankWitnesses.

Lemma built_symbols_rank_by_kind_witness :
  ranks_above
    (built (V := TextVscode) "Widget" SymbolKind.Class "" "file:///w/a.ts"
           (SymbolExamples.at_line 3) (SymbolExamples.at_line 3))
    (built (V := TextVscode) "render" SymbolKind.Method "Widget" "file:///w/a.ts"
           (SymbolExamples.at_line 5) (SymbolExamples.at_line 5)).
Proof.
  apply (built_symbols_rank_by_kind
           (V := TextVscode) "Widget" "render" "" "Widget"
           SymbolKind.Class SymbolKind.Method "file:///w/a.ts" "file:///w/a.ts"
           (SymbolExamples.at_line 3) (SymbolExamples.at_line 5)
           (SymbolExamples.at_line 3) (SymbolExamples.at_line 5));
    reflexivity.
Defined.

End SymbolRankWitnesses.

(** ** Collecting the workspace symbols *)

Section WorkspaceSymbolFacts.
Context {V : Vscode}.
Import WorkspaceSymbols.

Lemma NoDup_map_filter {A B : Type} (f : A -> B) (p : A -> bool) (l : list A) :
  List.NoDup (List.map f l) -> List.NoDup (List.map f (List.filter p l)).
Proof.
  induction l as [|x l IH]; cbn; [trivial|]. intros Hnd.
  apply List.NoDup_cons_iff in Hnd as [Hout Hnd].
  destruct (p x); cbn; [|now apply IH].
  constructor; [|now apply IH]. intros Hin. apply Hout.
  apply in_map_iff in Hin as (y & Hy & Hin). apply filter_In in Hin as [Hin _].
  apply in_map_iff. now exists y.
Qed.

(** What [find] returns is the first element that passes the test. *)
Lemma find_first {A : Type} (p : A -> bool) (l : list A) (x : A) :
  List.find p l = Some x ->
  exists pre post, l = pre ++ x :: post /\ p x = true
                   /\ forall y, In y pre -> p y = false.
Proof.
  induction l as [|z l IH]; [discriminate|]. cbn [List.find].
  destruct (p z) eqn:Hz.
  - intros [= <-]. exists [], l. repeat split; [assumption | intros y []].
  - intros Hfind. destruct (IH Hfind) as (pre & post & -> & Hx & Hpre).
    exists (z :: pre), post. repeat split; [assumption|].
    intros y [<- | Hy]; [assumption | now apply Hpre].
Qed.

(** Some element of a list that has one with the key is the first with it. *)
Lemma first_with_key {A : Type} (key : A -> string) (l : list A) (x : A) :
  In x l ->
  exists kept above below,
    l = above ++ kept :: below /\ key kept = key x
    /\ forall y, In y above -> key y <> key x.
Proof.
  intros Hx.
  destruct (List.find (fun y => String.eqb (key y) (key x)) l) as [kept|] eqn:Hfind.
  - destruct (find_first _ _ _ Hfind) as (above & below & Hsplit & Hk & Habove).
    exists kept, above, below. split; [assumption|]. split; [now apply String.eqb_eq|].
    intros y Hy. apply String.eqb_neq. now apply Habove.
  - pose proof (find_none _ _ Hfind x Hx) as Hno. cbn in Hno.
    rewrite String.eqb_refl in Hno. discriminate.
Qed.

Lemma first_met_ext (seen seen' : list string) (stream : list SymbolInformation) :
  (forall k, In k seen <-> In k seen') -> first_met seen stream = first_met seen' stream.
Proof.
  revert seen seen'. induction stream as [|x stream IH]; intros seen seen' Hiff; cbn.
  - reflexivity.
  - destruct (in_dec string_dec (getSymbolId x) seen) as [Hin|Hout],
             (in_dec string_dec (getSymbolId x) seen') as [Hin'|Hout'].
    + now apply IH.
    + apply Hiff in Hin. tauto.
    + apply Hiff in Hin'. tauto.
    + f_equal. apply IH. intros k. cbn. rewrite Hiff. tauto.
Qed.

Lemma first_met_fresh (seen : list string) (stream : list SymbolInformation)
      (x : SymbolInformation) :
  In x (first_met seen stream) -> ~ In (getSymbolId x) seen.
Proof.
  revert seen. induction stream as [|y stream IH]; intros seen; cbn.
  - tauto.
  - destruct (in_dec string_dec (getSymbolId y) seen) as [Hin|Hout].
    + apply IH.
    + intros [->|Hx]; [assumption|]. apply IH in Hx. cbn in Hx. tauto.
Qed.

Lemma first_met_NoDup (seen : list string) (stream : list SymbolInformation) :
  List.NoDup (List.map getSymbolId (first_met seen stream)).
Proof.
  revert seen. induction stream as [|x stream IH]; intros seen; cbn.
  - constructor.
  - destruct (in_dec string_dec (getSymbolId x) seen) as [Hin|Hout].
    + apply IH.
    + cbn. constructor; [|apply IH].
      intros Hdup. apply in_map_iff in Hdup as (y & Hk & Hy).
      apply first_met_fresh in Hy. cbn in Hy. rewrite Hk in Hy. tauto.
Qed.

Lemma first_met_In (seen : list string) (stream : list SymbolInformation)
      (x : SymbolInformation) :
  In x (first_met seen stream) <->
  ~ In (getSymbolId x) seen /\ first_with_its_id stream x.
Proof.
  unfold first_with_its_id.
  revert seen. induction stream as [|y stream IH]; intros seen; cbn.
  - split; [tauto|]. intros (_ & above & below & Heq & _). now destruct above.
  - destruct (in_dec string_dec (getSymbolId y) seen) as [Hin|Hout].
    + rewrite IH. split.
      * intros (Hx & above & below & -> & Habove). split; [assumption|].
        exists (y :: above), below. split; [reflexivity|].
        intros z [<-|Hz]; [congruence | now apply Habove].
      * intros (Hx & above & below & Heq & Habove). split; [assumption|].
        destruct above as [|z above]; cbn in Heq; injection Heq as -> ->.
        -- tauto.
        -- exists above, below. split; [reflexivity|]. intros w Hw. apply Habove.
           now right.
    + cbn. rewrite IH. split.
      * intros [<-|(Hx & above & below & -> & Habove)].
        -- split; [assumption|]. exists [], stream. split; [reflexivity|]. intros ? [].
        -- cbn in Hx. split; [tauto|].
           exists (y :: above), below. split; [reflexivity|].
           intros z [<-|Hz]; [intros E; apply Hx; now left | now apply Habove].
      * intros (Hx & above & below & Heq & Habove).
        destruct above as [|z above]; cbn in Heq; injection Heq as -> ->.
        -- now left.
        -- right. split.
           ++ cbn. intros [E|Hin]; [|tauto]. apply (Habove z); [now left | assumption].
           ++ exists above, below. split; [reflexivity|]. intros w Hw. apply Habove.
              now right.
Qed.

Lemma first_met_app (seen : list string) (l1 l2 : list SymbolInformation) :
  first_met seen (l1 ++ l2)
  = first_met seen l1
      ++ first_met (seen ++ List.map getSymbolId (first_met seen l1)) l2.
Proof.
  revert seen. induction l1 as [|x l1 IH]; intros seen; cbn [app first_met List.map].
  - now rewrite app_nil_r.
  - destruct (in_dec string_dec (getSymbolId x) seen) as [Hin|Hout].
    + apply IH.
    + cbn [app List.map]. f_equal. rewrite IH. f_equal.
      apply first_met_ext. intros k. rewrite !in_app_iff. cbn. tauto.
Qed.

(** The loop over the symbols of one query adds the symbols first met. *)
Lemma addSymbol_first_met (symbols allSymbols : list SymbolInformation)
      (symbolIds : gset string) :
  (forall id, id ∈ symbolIds <-> In id (List.map getSymbolId allSymbols)) ->
  exists symbolIds',
    fold_left addSymbol symbols (allSymbols, symbolIds)
    = (allSymbols ++ first_met (List.map getSymbolId allSymbols) symbols, symbolIds')
    /\ forall id,
        id ∈ symbolIds'
        <-> In id (List.map getSymbolId
                            (allSymbols
                               ++ first_met (List.map getSymbolId allSymbols) symbols)).
Proof.
  revert allSymbols symbolIds.
  induction symbols as [|symbol symbols IH]; intros allSymbols symbolIds Hids.
  - exists symbolIds. cbn. rewrite app_nil_r. now split.
  - cbn [fold_left first_met]. unfold addSymbol at 2.
    destruct (in_dec string_dec (getSymbolId symbol) (List.map getSymbolId allSymbols))
      as [Hin|Hout].
    + rewrite bool_decide_eq_true_2 by (now apply Hids). now apply IH.
    + rewrite bool_decide_eq_false_2 by (intros Hin; apply Hout; now apply Hids).
      destruct (IH (allSymbols ++ [symbol]) ({[ getSymbolId symbol ]} ∪ symbolIds))
        as (ids' & Hfold & Hids').
      { intros id. rewrite elem_of_union, elem_of_singleton, Hids, map_app, in_app_iff.
        cbn. intuition congruence. }
      assert (Heq : first_met (List.map getSymbolId (allSymbols ++ [symbol])) symbols
                    = first_met (getSymbolId symbol :: List.map getSymbolId allSymbols)
                                symbols).
      { apply first_met_ext. intros k. rewrite map_app, in_app_iff. cbn. tauto. }
      rewrite Heq, <- app_assoc in Hfold, Hids'. cbn [app] in Hfold, Hids'.
      exists ids'. now split.
Qed.

(** The same for the loop over the patterns. *)
Lemma collect_first_met (execute : string -> option (list SymbolInformation))
      (patterns : list string) (allSymbols : list SymbolInformation)
      (symbolIds : gset string) :
  (forall id, id ∈ symbolIds <-> In id (List.map getSymbolId allSymbols)) ->
  fst (fold_left (fun acc pattern =>
                    fold_left addSymbol (default [] (execute pattern)) acc)
                 patterns (allSymbols, symbolIds))
  = allSymbols
      ++ first_met (List.map getSymbolId allSymbols)
                   (flat_map (fun pattern => default [] (execute pattern)) patterns).
Proof.
  revert allSymbols symbolIds.
  induction patterns as [|pattern patterns IH]; intros allSymbols symbolIds Hids.
  - cbn. now rewrite app_nil_r.
  - cbn [fold_left flat_map].
    destruct (addSymbol_first_met (default [] (execute pattern)) allSymbols symbolIds Hids)
      as (ids1 & Hfold1 & Hids1).
    rewrite Hfold1, (IH _ ids1 Hids1), first_met_app, <- app_assoc. do 2 f_equal.
    apply first_met_ext. intros k. now rewrite map_app.
Qed.

Lemma collectSymbols_first_met (execute : string -> option (list SymbolInformation)) :
  collectSymbols execute
  = default [] (execute "")
      ++ first_met (List.map getSymbolId (default [] (execute "")))
                   (flat_map (fun pattern => default [] (execute pattern)) queryPatterns).
Proof.
  unfold collectSymbols. apply collect_first_met.
  intros id. rewrite elem_of_list_to_set. apply list_elem_of_In.
Qed.

(** [fullRefresh] asks the editor for the symbols of thirty patterns.  It
    keeps every symbol of the answer to the empty pattern and, of the
    symbols of the other answers taken in the order of the patterns, those
    whose identifier is neither in the answer to the empty pattern nor met
    before.  So for every identifier answered to any of the queries the
    first symbol met with it is kept.  The items are those of the symbols
    kept that are not excluded, and if the answer to the empty pattern names
    no identifier twice, no two items have the same identifier. *)
Theorem fullRefresh_collects_every_symbol :
  forall (execute : string -> option (list SymbolInformation))
         (shouldExclude : Uri -> bool),
    let basic := default [] (execute "") in
    let later := flat_map (fun pattern => default [] (execute pattern)) queryPatterns in
    let items := fullRefresh execute shouldExclude in
    collectSymbols execute = basic ++ first_met (List.map getSymbolId basic) later
    /\ (forall kept,
           In kept (collectSymbols execute)
           <-> In kept basic
               \/ (~ In (getSymbolId kept) (List.map getSymbolId basic)
                   /\ first_with_its_id later kept))
    /\ (forall pattern symbol,
           In pattern ("" :: queryPatterns) ->
           In symbol (default [] (execute pattern)) ->
           exists kept,
             getSymbolId kept = getSymbolId symbol
             /\ first_with_its_id (basic ++ later) kept
             /\ In kept (collectSymbols execute)
             /\ (shouldExclude (si_uri kept) = false ->
                 In (convertToSearchItem kept) items))
    /\ (forall item,
           In item items
           <-> exists kept,
               In kept (collectSymbols execute)
               /\ shouldExclude (si_uri kept) = false
               /\ item = convertToSearchItem kept)
    /\ (forall item,
           In item items ->
           exists pattern symbol,
             In pattern ("" :: queryPatterns)
             /\ In symbol (default [] (execute pattern))
             /\ shouldExclude (si_uri symbol) = false
             /\ item = convertToSearchItem symbol)
    /\ (List.NoDup (List.map getSymbolId basic) ->
        List.NoDup (List.map (fun item : SymbolSearchItem => id item) items)).
Proof.
  intros execute shouldExclude basic later items.
  pose proof (collectSymbols_first_met execute) as Hcollect.
  fold basic later in Hcollect.
  assert (Hkept : forall kept,
             In kept (collectSymbols execute)
             <-> In kept basic
                 \/ (~ In (getSymbolId kept) (List.map getSymbolId basic)
                     /\ first_with_its_id later kept)).
  { intros kept. now rewrite Hcollect, in_app_iff, first_met_In. }
  assert (Hitems : forall item,
             In item items
             <-> exists kept,
                 In kept (collectSymbols execute)
                 /\ shouldExclude (si_uri kept) = false
                 /\ item = convertToSearchItem kept).
  { intros item. subst items. unfold fullRefresh. rewrite in_map_iff. split.
    - intros (kept & <- & Hin). apply filter_In in Hin as [Hin Hkeep].
      apply negb_true_iff in Hkeep. now exists kept.
    - intros (kept & Hin & Hkeep & ->). exists kept. split; [reflexivity|].
      apply filter_In. split; [assumption|]. now rewrite Hkeep. }
  assert (Hlater : forall symbol,
             In symbol later
             <-> exists pattern, In pattern queryPatterns
                                 /\ In symbol (default [] (execute pattern))).
  { intros symbol. subst later. rewrite in_flat_map. reflexivity. }
  split; [exact Hcollect|]. split; [exact Hkept|]. split; [|split; [exact Hitems|split]].
  - intros pattern symbol Hpattern Hsymbol.
    assert (Hmet : In symbol (basic ++ later)).
    { apply in_or_app. destruct Hpattern as [<- | Hpattern]; [now left|].
      right. apply Hlater. now exists pattern. }
    assert (Hfound : exists kept,
               getSymbolId kept = getSymbolId symbol
               /\ first_with_its_id (basic ++ later) kept
               /\ In kept (collectSymbols execute)).
    { destruct (List.find (fun y => String.eqb (getSymbolId y) (getSymbolId symbol)) basic)
        as [kept|] eqn:Hfind.
      - destruct (find_first _ _ _ Hfind) as (above & below & Hsplit & Hk & Habove).
        apply String.eqb_eq in Hk. exists kept. split; [assumption|]. split.
        + exists above, (below ++ later). split.
          * rewrite Hsplit, <- app_assoc. reflexivity.
          * intros y Hy. rewrite Hk. apply String.eqb_neq. now apply Habove.
        + apply Hkept. left. rewrite Hsplit. apply in_or_app. right. now left.
      - assert (Hnone : forall y, In y basic -> getSymbolId y <> getSymbolId symbol).
        { intros y Hy. apply String.eqb_neq. exact (find_none _ _ Hfind y Hy). }
        apply in_app_or in Hmet as [Hmet | Hmet]; [now destruct (Hnone symbol Hmet)|].
        destruct (first_with_key getSymbolId later symbol Hmet)
          as (kept & above & below & Hsplit & Hk & Habove).
        exists kept. split; [assumption|]. split.
        + exists (basic ++ above), below. split.
          * rewrite Hsplit, <- app_assoc. reflexivity.
          * intros y Hy. rewrite Hk. apply in_app_or in Hy as [Hy | Hy];
              [now apply Hnone | now apply Habove].
        + apply Hkept. right. split.
          * intros Hin. apply in_map_iff in Hin as (y & Hy & Hin).
            apply (Hnone y Hin). congruence.
          * exists above, below. split; [assumption|].
            intros y Hy. rewrite Hk. now apply Habove. }
    destruct Hfound as (kept & Hk & Hfirst & Hin).
    exists kept. repeat split; try assumption.
    intros Hkeep. apply Hitems. now exists kept.
  - intros item Hitem. apply Hitems in Hitem as (kept & Hin & Hkeep & ->).
    apply Hkept in Hin as [Hin | (_ & above & below & Hsplit & _)].
    + exists "", kept. repeat split; try assumption. now left.
    + assert (Hin : In kept later)
        by (rewrite Hsplit; apply in_or_app; right; now left).
      apply Hlater in Hin as (pattern & Hpattern & Hin).
      exists pattern, kept. repeat split; try assumption. now right.
  - intros Hbasic. subst items. unfold fullRefresh. rewrite map_map.
    apply (NoDup_map_filter getSymbolId). rewrite Hcollect, map_app.
    apply List.NoDup_app; [assumption | apply first_met_NoDup |].
    intros id Hin1 Hin2. apply in_map_iff in Hin2 as (e & <- & He).
    now apply (first_met_fresh _ _ e He).
Qed.

End WorkspaceSymbolFacts.

Section WorkspaceSymbolWitnesses.
Import WorkspaceSymbols.

(** Three symbols are answered in all, [Widget] twice: it is kept once, and
    the items have distinct identifiers. *)
Lemma fullRefresh_collects_every_symbol_witness :
  collectSymbols SymbolExamples.answers = [SymbolExamples.widget; SymbolExamples.render]
  /\ List.NoDup
       (List.map (fun item : @SymbolSearchItem TextVscode => id item)
                 (fullRefresh SymbolExamples.answers SymbolExamples.nothing_excluded)).
Proof.
  destruct (fullRefresh_collects_every_symbol
              (V := TextVscode) SymbolExamples.answers SymbolExamples.nothing_excluded)
    as (Hcollect & _ & _ & _ & _ & Hunique).
  split.
  - refine (eq_trans Hcollect _). vm_compute. reflexivity.
  - apply Hunique. cbn. constructor; [intros [] | constructor].
Defined.

(** When the answer to the empty pattern names an identifier twice, both
    symbols are kept and two items share an id; the third symbol with that
    identifier, answered later, is not kept. *)
Lemma repeated_basic_symbols_are_kept :
  collectSymbols SymbolExamples.repeated
  = [SymbolExamples.render; SymbolExamples.render_again; SymbolExamples.widget]
  /\ getSymbolId SymbolExamples.render = getSymbolId SymbolExamples.render_again
  /\ List.map (fun item : @SymbolSearchItem TextVscode => id item)
              (fullRefresh SymbolExamples.repeated SymbolExamples.nothing_excluded)
     = [ "symbol:render:file:///w/a.ts:5:0"; "symbol:render:file:///w/a.ts:5:0";
         "symbol:Widget:file:///w/a.ts:3:0" ].
Proof. split; [|split]; vm_compute; reflexivity. Qed.

End WorkspaceSymbolWitnesses.
(** ** Saving a symbol index and loading it again *)

Section RestoreFacts.
Context {V : Vscode}.

Lemma strict_eq_refl (x : number) : is_number x -> strict_eq x x = true.
Proof.
  destruct x as [| | |q]; intros Hx; try reflexivity; [now contradiction Hx|].
  cbn. apply Qeq_bool_iff. reflexivity.
Qed.

Lemma fold_insert_notin {A B : Type} (key : B -> string) (value : B -> A)
      (l : list B) (m : gmap string A) (k : string) :
  ~ In k (List.map key l) ->
  fold_left (fun m e => <[ key e := value e ]> m) l m !! k = m !! k.
Proof.
  revert m. induction l as [|e l IH]; intros m Hout; [reflexivity|]. cbn.
  rewrite IH by (intros Hin; apply Hout; now right).
  apply lookup_insert_ne. intros Heq. apply Hout. now left.
Qed.

(** With distinct keys, the map holds for every entry its value. *)
Lemma Map_of_entries_lookup {A : Type} (entries : list (string * A)) (k : string) (v : A) :
  List.NoDup (List.map fst entries) -> In (k, v) entries ->
  Map_of_entries entries !! k = Some v.
Proof.
  unfold Map_of_entries. generalize (∅ : gmap string A).
  induction entries as [|[k' v'] entries IH]; intros m Hnd Hin; [contradiction|].
  cbn in Hnd. apply List.NoDup_cons_iff in Hnd as [Hout Hnd]. cbn [fold_left].
  destruct Hin as [[= -> ->] | Hin].
  - rewrite (fold_insert_notin fst snd) by assumption. apply lookup_insert_eq.
  - now apply IH.
Qed.

(** A map filled key by key with a value that depends on the key only. *)
Lemma fold_insert_by_key {A B : Type} (key : B -> string) (value : string -> A)
      (l : list B) (m : gmap string A) (k : string) :
  In k (List.map key l) ->
  fold_left (fun m e => <[ key e := value (key e) ]> m) l m !! k = Some (value k).
Proof.
  revert m. induction l as [|e l IH]; intros m Hin; [contradiction|]. cbn [fold_left].
  destruct (in_dec string_dec k (List.map key l)) as [Hl | Hl].
  - now apply IH.
  - rewrite (fold_insert_notin key (fun e => value (key e))) by assumption.
    destruct Hin as [<- | Hin]; [apply lookup_insert_eq | contradiction].
Qed.

Lemma filter_none {A : Type} (p : A -> bool) (l : list A) :
  (forall x, In x l -> p x = false) -> List.filter p l = [].
Proof.
  induction l as [|x l IH]; intros Hnone; [reflexivity|]. cbn.
  rewrite (Hnone x) by (now left). apply IH. intros y Hy. apply Hnone. now right.
Qed.

Lemma flat_map_ext_In {A B : Type} (f g : A -> list B) (l : list A) :
  (forall x, In x l -> f x = g x) -> flat_map f l = flat_map g l.
Proof.
  induction l as [|x l IH]; intros Hext; [reflexivity|]. cbn.
  rewrite (Hext x) by (now left). f_equal. apply IH. intros y Hy. apply Hext. now right.
Qed.

Lemma workspace_round_trip_item `{!VscodeLaws V}
      (symbol : WorkspaceSymbols.SymbolInformation) :
  SymbolSearchProvider.deserializeSymbolItem
    (serializeSymbolItem (WorkspaceSymbols.convertToSearchItem symbol))
  = WorkspaceSymbols.convertToSearchItem symbol.
Proof.
  unfold SymbolSearchProvider.deserializeSymbolItem, deserializeSymbolItemAs,
    WorkspaceSymbols.convertToSearchItem, symbolItemFor. cbn.
  now rewrite Uri_parse_toString, Range_new_eta.
Qed.

Lemma manifest_unchanged (manifest : list ManifestEntry) (e : ManifestEntry) :
  List.NoDup (List.map manifest_uri manifest) ->
  is_number (manifest_mtime e) -> In e manifest ->
  unchanged_in manifest (manifest_uri e) (manifest_mtime e) = true.
Proof.
  intros Hnd Hnum Hin. unfold unchanged_in, cached_mtime.
  rewrite (Map_of_entries_lookup _ (manifest_uri e) (manifest_mtime e)).
  - now apply strict_eq_refl.
  - now rewrite map_map.
  - apply in_map_iff. now exists e.
Qed.

(** What [saveCache] writes of the workspace symbols, [tryLoadFromCache]
    accepts as long as the manifest of source files is the same, and it gives
    back the very items that [fullRefresh] had built, their actions included;
    in a workspace with another fingerprint it loads nothing. *)
Theorem workspace_symbols_restored :
  forall `{!VscodeLaws V}
         (execute : string -> option (list WorkspaceSymbols.SymbolInformation))
         (shouldExclude : Uri -> bool)
         (storageUri : Uri) (fingerprint : string) (manifest : list ManifestEntry)
         (payload : WorkspaceSymbolsCache),
    List.NoDup (List.map manifest_uri manifest) ->
    List.Forall (fun e => is_number (manifest_mtime e)) manifest ->
    WorkspaceSymbols.saveCache (Some storageUri) fingerprint manifest
                               (WorkspaceSymbols.fullRefresh execute shouldExclude)
    = Some payload ->
    SymbolSearchProvider.tryLoadFromCache (Some storageUri) (Some payload)
                                          fingerprint manifest
    = Some (WorkspaceSymbols.fullRefresh execute shouldExclude)
    /\ forall other,
        other <> fingerprint ->
        SymbolSearchProvider.tryLoadFromCache (Some storageUri) (Some payload)
                                              other manifest
        = None.
Proof.
  intros Laws execute shouldExclude storageUri fingerprint manifest payload
         Hnd Hnum [= <-].
  unfold SymbolSearchProvider.tryLoadFromCache, cache_rejected.
  cbn [option_map wsc_version wsc_workspaceFingerprint wsc_manifest wsc_items default].
  unfold Datatypes.id. change (strict_eq CACHE_VERSION CACHE_VERSION) with true.
  split.
  - rewrite String.eqb_refl. cbn [negb orb]. rewrite Nat.eqb_refl. cbn [negb].
    assert (Hm : SymbolSearchProvider.manifest_matches
                   (Map_of_entries
                      (List.map (fun e => (manifest_uri e, manifest_mtime e)) manifest))
                   manifest = true).
    { apply manifest_matches_spec. intros e He. apply manifest_unchanged; try assumption.
      rewrite List.Forall_forall in Hnum. now apply Hnum. }
    rewrite Hm. f_equal. unfold WorkspaceSymbols.fullRefresh.
    rewrite !map_map. apply map_ext. intros symbol. apply workspace_round_trip_item.
  - intros other Hne. apply not_eq_sym, String.eqb_neq in Hne. rewrite Hne.
    reflexivity.
Qed.

Lemma document_round_trip_item `{!VscodeLaws V} (uri : Uri) (container : string)
      (symbol : DocumentSymbols.DocumentSymbol) :
  DocumentSymbolProvider.deserializeSymbolItem
    (serializeSymbolItem (DocumentSymbols.symbolItemOf uri container symbol))
  = symbolItemFor (DocumentSymbols.ds_name symbol) (DocumentSymbols.ds_kind symbol)
                  container uri (DocumentSymbols.ds_range symbol)
                  (DocumentSymbols.ds_range symbol).
Proof.
  unfold DocumentSymbolProvider.deserializeSymbolItem, deserializeSymbolItemAs,
    DocumentSymbols.symbolItemOf, symbolItemFor. cbn.
  rewrite Uri_parse_toString, Range_new_eta.
  destruct (mapSymbolKindToGroup (DocumentSymbols.ds_kind symbol) =? SymbolKindGroup.Class)%Z;
    reflexivity.
Qed.

Lemma saved_symbols_reused (fingerprint : string) (currentEntries : list (Uri * number))
      (symbolItems : list SymbolSearchItem) (e : Uri * number) :
  List.NoDup (List.map (fun e => Uri_toString (fst e)) currentEntries) ->
  is_number (snd e) -> In e currentEntries ->
  symbols_reused
    (default ∅ (dsc_files (DocumentSymbols.saveCache fingerprint currentEntries symbolItems)))
    e
  = Some (List.map serializeSymbolItem
                   (List.filter
                      (fun item => String.eqb (Uri_toString (symbol_uri item))
                                              (Uri_toString (fst e)))
                      symbolItems)).
Proof.
  intros Hnd Hnum Hin. unfold symbols_reused.
  set (value := fun uriStr : string =>
                  {| dsf_mtime :=
                       default (of_Z 0)
                               (Map_of_entries
                                  (List.map (fun e : Uri * number =>
                                               (Uri_toString (fst e), snd e))
                                            currentEntries) !! uriStr);
                     dsf_symbols :=
                       List.map serializeSymbolItem
                                (List.filter
                                   (fun item => String.eqb (Uri_toString (symbol_uri item))
                                                           uriStr)
                                   symbolItems) |}).
  change (default ∅ (dsc_files (DocumentSymbols.saveCache fingerprint currentEntries
                                                           symbolItems)))
    with (fold_left (fun (m : gmap string DocumentSymbolsFileEntry) (e : Uri * number) =>
                       <[ Uri_toString (fst e) := value (Uri_toString (fst e)) ]> m)
                    currentEntries ∅).
  rewrite (fold_insert_by_key (fun e : Uri * number => Uri_toString (fst e)) value)
    by (apply in_map_iff; now exists e).
  subst value. cbn [dsf_mtime dsf_symbols].
  rewrite (Map_of_entries_lookup _ (Uri_toString (fst e)) (snd e)).
  - cbn [default]. unfold Datatypes.id. now rewrite strict_eq_refl.
  - now rewrite map_map.
  - apply in_map_iff. now exists e.
Qed.

(** After [saveCache], a refresh that finds the files unchanged asks the
    editor for the symbols of no file: every file is served from the cache,
    in the order of the files.  Symbols of files that are not among the
    current ones are gone, and a restored symbol reveals its whole range
    where the one built by [processSymbols] revealed its selection range. *)
Theorem document_symbols_restored :
  forall `{!VscodeLaws V} (shouldExclude : Uri -> bool)
         (indexDocument : Uri -> list SymbolSearchItem)
         (storageUri : Uri) (fingerprint : string)
         (currentEntries : list (Uri * number)) (symbolItems : list SymbolSearchItem),
    List.NoDup (List.map (fun e => Uri_toString (fst e)) currentEntries) ->
    List.Forall (fun e => is_number (snd e)) currentEntries ->
    DocumentSymbolProvider.refreshFromCacheOrFull
      shouldExclude indexDocument (Some storageUri)
      (Some (DocumentSymbols.saveCache fingerprint currentEntries symbolItems))
      fingerprint currentEntries []
    = (true,
       flat_map
         (fun e =>
            List.map (fun item => DocumentSymbolProvider.deserializeSymbolItem
                                    (serializeSymbolItem item))
                     (List.filter
                        (fun item => String.eqb (Uri_toString (symbol_uri item))
                                                (Uri_toString (fst e)))
                        symbolItems))
         currentEntries)
    /\ forall (uri : Uri) (container : string) (symbol : DocumentSymbols.DocumentSymbol),
        DocumentSymbolProvider.deserializeSymbolItem
          (serializeSymbolItem (DocumentSymbols.symbolItemOf uri container symbol))
        = symbolItemFor (DocumentSymbols.ds_name symbol) (DocumentSymbols.ds_kind symbol)
                        container uri (DocumentSymbols.ds_range symbol)
                        (DocumentSymbols.ds_range symbol).
Proof.
  intros Laws shouldExclude indexDocument storageUri fingerprint currentEntries
         symbolItems Hnd Hnum.
  split; [|intros; apply document_round_trip_item].
  unfold DocumentSymbolProvider.refreshFromCacheOrFull, cache_rejected.
  cbn [option_map]. unfold DocumentSymbols.saveCache at 1 2.
  cbn [dsc_version dsc_workspaceFingerprint]. rewrite String.eqb_refl.
  change (strict_eq CACHE_VERSION CACHE_VERSION) with true. cbn [negb orb].
  unfold DocumentSymbolProvider.partition. rewrite document_partition_from.
  assert (Hreused : forall e, In e currentEntries ->
             symbols_reused
               (default ∅ (dsc_files (DocumentSymbols.saveCache fingerprint currentEntries
                                                                symbolItems))) e
             = Some (List.map serializeSymbolItem
                              (List.filter
                                 (fun item => String.eqb (Uri_toString (symbol_uri item))
                                                         (Uri_toString (fst e)))
                                 symbolItems))).
  { intros e He. apply saved_symbols_reused; try assumption.
    rewrite List.Forall_forall in Hnum. now apply Hnum. }
  assert (Hnone : List.filter
                    (fun e => is_none
                                (symbols_reused
                                   (default ∅ (dsc_files (DocumentSymbols.saveCache
                                                            fingerprint currentEntries
                                                            symbolItems))) e))
                    currentEntries = []).
  { apply filter_none. intros e He. now rewrite (Hreused e He). }
  rewrite Hnone. cbn [app]. rewrite index_files_spec. cbn [List.filter flat_map app].
  rewrite app_nil_r. f_equal.
  apply flat_map_ext_In. intros e He. rewrite (Hreused e He). now rewrite map_map.
Qed.

End RestoreFacts.

Section RestoreWitnesses.

Lemma workspace_symbols_restored_witness :
  SymbolSearchProvider.tryLoadFromCache
    (V := TextVscode) (Some ActivityExamples.storage)
    (WorkspaceSymbols.saveCache
       (Some ActivityExamples.storage) ActivityExamples.workspace
       StaleExamples.current_manifest
       (WorkspaceSymbols.fullRefresh SymbolExamples.answers
                                     SymbolExamples.nothing_excluded))
    ActivityExamples.workspace StaleExamples.current_manifest
  = Some (WorkspaceSymbols.fullRefresh SymbolExamples.answers
                                       SymbolExamples.nothing_excluded).
Proof.
  refine (proj1 (@workspace_symbols_restored
                   TextVscode TextVscode_laws SymbolExamples.answers
                   SymbolExamples.nothing_excluded ActivityExamples.storage
                   ActivityExamples.workspace StaleExamples.current_manifest
                   _ _ _ eq_refl)).
  - cbn. constructor; [intros [H | []]; discriminate|].
    constructor; [intros [] | constructor].
  - repeat constructor; discriminate.
Defined.

Lemma document_symbols_restored_witness :
  DocumentSymbolProvider.refreshFromCacheOrFull
    (V := TextVscode) SymbolExamples.nothing_excluded StaleExamples.indexed_again
    (Some ActivityExamples.storage)
    (Some (DocumentSymbols.saveCache ActivityExamples.workspace StaleExamples.current
                                     (StaleExamples.indexed_again StaleExamples.b_ts)))
    ActivityExamples.workspace StaleExamples.current []
  = (true,
     flat_map
       (fun e =>
          List.map (fun item => DocumentSymbolProvider.deserializeSymbolItem
                                  (serializeSymbolItem item))
                   (List.filter
                      (fun item => String.eqb (Uri_toString (symbol_uri item))
                                              (Uri_toString (fst e)))
                      (StaleExamples.indexed_again StaleExamples.b_ts)))
       StaleExamples.current).
Proof.
  refine (proj1 (@document_symbols_restored
                   TextVscode TextVscode_laws SymbolExamples.nothing_excluded
                   StaleExamples.indexed_again ActivityExamples.storage
                   ActivityExamples.workspace StaleExamples.current
                   (StaleExamples.indexed_again StaleExamples.b_ts) _ _)).
  - cbn. constructor; [intros [H | []]; discriminate|].
    constructor; [intros [] | constructor].
  - repeat constructor; discriminate.
Defined.

End RestoreWitnesses.
(** ** Updating the symbols of one document *)

Section DocumentFacts.
Context {V : Vscode}.
Import DocumentSymbols.

Lemma forest_items_Forall (P : SymbolSearchItem -> Prop) (uri : Uri) :
  (forall container symbol, P (symbolItemOf uri container symbol)) ->
  forall symbols container, List.Forall P (forest_items uri container symbols).
Proof.
  intros HP symbols.
  assert (Hsize : forall n symbols container,
             symbolCounts symbols <= n ->
             List.Forall P (forest_items uri container symbols)).
  { clear symbols. induction n as [|n IHn]; intros symbols container Hn.
    - destruct symbols as [|s symbols]; [constructor|].
      rewrite symbolCounts_cons, symbolCount_eq in Hn. lia.
    - induction symbols as [|s symbols IHl]; [constructor|].
      rewrite symbolCounts_cons, symbolCount_eq in Hn.
      rewrite forest_items_cons, tree_items_eq. cbn [app]. constructor; [apply HP|].
      apply Forall_app. split; [apply IHn | apply IHl]; lia. }
  intros container. now apply (Hsize (symbolCounts symbols)).
Qed.

Lemma filter_all {A : Type} (p : A -> bool) (l : list A) :
  (forall x, In x l -> p x = true) -> List.filter p l = l.
Proof.
  induction l as [|x l IH]; intros Hall; [reflexivity|]. cbn.
  rewrite (Hall x) by (now left). f_equal. apply IH. intros y Hy. apply Hall. now right.
Qed.

Lemma filter_filter_negb {A : Type} (p : A -> bool) (l : list A) :
  List.filter p (List.filter (fun x => negb (p x)) l) = [].
Proof.
  apply filter_none. intros x Hx. apply filter_In in Hx as [_ Hx].
  now apply negb_true_iff in Hx.
Qed.

Lemma filter_idempotent {A : Type} (p : A -> bool) (l : list A) :
  List.filter p (List.filter p l) = List.filter p l.
Proof. apply filter_all. intros x Hx. now apply filter_In in Hx. Qed.

Lemma awaiting_answer (l rest : list Uri) (uri : Uri) :
  nth_error (l ++ uri :: rest) (length l) = Some uri
  /\ firstn (length l) (l ++ uri :: rest) ++ skipn (S (length l)) (l ++ uri :: rest)
     = l ++ rest.
Proof.
  induction l as [|u l [IH1 IH2]]; cbn; [now split|]. split; [assumption|].
  f_equal. exact IH2.
Qed.

Lemma In_without {A : Type} (n : nat) (l : list A) (x : A) :
  In x (firstn n l ++ skipn (S n) l) -> In x l.
Proof.
  revert n. induction l as [|a l IH]; intros n.
  - now destruct n.
  - destruct n as [|n]; cbn.
    + intros Hx. now right.
    + intros [<- | Hx]; [now left | right; now apply (IH n)].
Qed.

Lemma filter_other_document (uri other : Uri) (items : list SymbolSearchItem) :
  Uri_toString other <> Uri_toString uri ->
  List.filter (in_document uri)
              (List.filter (fun item =>
                              negb (String.eqb (Uri_toString (symbol_uri item))
                                               (Uri_toString other)))
                           items)
  = List.filter (in_document uri) items.
Proof.
  intros Hne. induction items as [|x items IH]; [reflexivity|]. cbn [List.filter].
  destruct (String.eqb_spec (Uri_toString (symbol_uri x)) (Uri_toString other)) as [He|He];
    cbn [negb List.filter]; rewrite IH; [|reflexivity].
  unfold in_document at 2. rewrite He.
  now destruct (String.eqb_spec (Uri_toString other) (Uri_toString uri)).
Qed.

Lemma filter_document_of_other (uri other : Uri) (items : list SymbolSearchItem) :
  Uri_toString other <> Uri_toString uri ->
  List.Forall (fun item => in_document other item = true) items ->
  List.filter (in_document uri) items = [].
Proof.
  intros Hne Hall. apply filter_none. intros x Hx.
  apply (proj1 (List.Forall_forall _ _) Hall) in Hx. unfold in_document in *.
  apply String.eqb_eq in Hx. rewrite Hx. now apply String.eqb_neq.
Qed.

Import DocumentUpdates.

(** What the rest of a call does when the editor has answered. *)
Lemma resume_adds_answer (uri : Uri) (symbols : option (list DocumentSymbol))
      (s : State) :
  exists added,
    symbolItems (resume uri symbols s) = symbolItems s ++ added
    /\ added ≡ₚ forest_items uri "" (default [] symbols)
    /\ List.Forall (fun item => in_document uri item = true) added
    /\ dirtyDocSymbolUris (resume uri symbols s)
       = match symbols with
         | Some _ => {[ Uri_toString uri ]} ∪ dirtyDocSymbolUris s
         | None => dirtyDocSymbolUris s
         end
    /\ awaiting (resume uri symbols s) = awaiting s.
Proof.
  destruct symbols as [[|symbol symbols]|]; cbn [resume default symbolItems
                                                 dirtyDocSymbolUris awaiting].
  - exists []. rewrite app_nil_r. repeat split; try reflexivity. constructor.
  - destruct (processSymbols_adds_forest (symbol :: symbols) uri "" (symbolItems s))
      as (nested & Hrun & Hperm).
    rewrite Hrun. cbn [default Datatypes.id].
    exists (List.map (symbolItemOf uri "") (symbol :: symbols) ++ nested).
    repeat split; try reflexivity; try assumption.
    eapply Permutation_Forall; [symmetry; exact Hperm|].
    apply forest_items_Forall. intros container x. unfold in_document. cbn.
    apply String.eqb_refl.
  - exists []. rewrite app_nil_r. repeat split; try reflexivity. constructor.
Qed.

(** A step that is neither a save of the document nor the answer to one
    leaves the items of the document as they are. *)
Lemma step_other_document (shouldExclude : Uri -> bool)
      (isSupportedLanguage : string -> bool) (uri : Uri) (s : State) (e : Event) :
  (forall u, In u (awaiting s) -> Uri_toString u <> Uri_toString uri) ->
  (forall u, e = Saved u -> Uri_toString u <> Uri_toString uri) ->
  List.filter (in_document uri)
              (symbolItems (step shouldExclude isSupportedLanguage s e))
  = List.filter (in_document uri) (symbolItems s)
  /\ forall u, In u (awaiting (step shouldExclude isSupportedLanguage s e)) ->
               Uri_toString u <> Uri_toString uri.
Proof.
  intros Hwait Hsave. destruct e as [other | call symbols]; cbn [step].
  - unfold updateDocumentSymbols.
    destruct (shouldExclude other); [now split|].
    destruct (isSupportedLanguage (Uri_fsPath other)); [|now split].
    cbn [negb symbolItems awaiting]. split.
    + apply filter_other_document. now apply Hsave.
    + intros u Hu. apply in_app_or in Hu as [Hu | [<- | []]];
        [now apply Hwait | now apply Hsave].
  - destruct (nth_error (awaiting s) call) as [other|] eqn:Hcall; [|now split].
    destruct (resume_adds_answer
                other symbols
                {| symbolItems := symbolItems s;
                   dirtyDocSymbolUris := dirtyDocSymbolUris s;
                   awaiting := firstn call (awaiting s) ++ skipn (S call) (awaiting s) |})
      as (added & Hitems & _ & Hall & _ & Hawaiting).
    rewrite Hitems, Hawaiting. cbn [symbolItems awaiting]. split.
    + rewrite List.filter_app, (filter_document_of_other uri other added);
        [now rewrite app_nil_r | | assumption].
      apply Hwait. eapply nth_error_In. exact Hcall.
    + intros u Hu. apply Hwait. eapply In_without. exact Hu.
Qed.

(** A save of a document removes the items of the document at once, and the
    items of the answer, one for every symbol of its trees, are added when
    the answer arrives.

    - One save followed by its answer replaces the symbols of that document
      and of no other: the items of the other documents stay as they were,
      in their order, and those of the document are, after them, the ones of
      the new answer.  When the query fails the document is left with no
      symbol and is not marked for the incremental save; a document that is
      excluded or not of a supported language changes nothing.
    - The listener does not wait for a call to end.  When the document is
      saved again before the first answer has arrived, the items of both
      answers are added: every symbol is in the index twice.
    - Saves and answers that are not of the document leave its items as
      they are. *)
Theorem updateDocumentSymbols_replaces_document :
  forall (shouldExclude : Uri -> bool) (isSupportedLanguage : string -> bool)
         (uri : Uri),
    (forall (s : State) (symbols : option (list DocumentSymbol)),
        let s' := run shouldExclude isSupportedLanguage
                      [Saved uri; Answered (length (awaiting s)) symbols] s in
        if shouldExclude uri || negb (isSupportedLanguage (Uri_fsPath uri))
        then s' = s
        else
          exists added,
            symbolItems s'
            = List.filter (fun item => negb (in_document uri item)) (symbolItems s)
                ++ added
            /\ added ≡ₚ forest_items uri "" (default [] symbols)
            /\ List.filter (in_document uri) (symbolItems s') = added
            /\ dirtyDocSymbolUris s'
               = match symbols with
                 | Some _ => {[ Uri_toString uri ]} ∪ dirtyDocSymbolUris s
                 | None => dirtyDocSymbolUris s
                 end
            /\ awaiting s' = awaiting s)
    /\ (forall (s : State) (first second : option (list DocumentSymbol)),
           shouldExclude uri = false ->
           isSupportedLanguage (Uri_fsPath uri) = true ->
           let s' := run shouldExclude isSupportedLanguage
                         [Saved uri; Saved uri;
                          Answered (length (awaiting s)) first;
                          Answered (length (awaiting s)) second] s in
           exists added added',
             symbolItems s'
             = List.filter (fun item => negb (in_document uri item)) (symbolItems s)
                 ++ added ++ added'
             /\ added ≡ₚ forest_items uri "" (default [] first)
             /\ added' ≡ₚ forest_items uri "" (default [] second)
             /\ List.filter (in_document uri) (symbolItems s') = added ++ added'
             /\ length (List.filter (in_document uri) (symbolItems s'))
                = symbolCounts (default [] first) + symbolCounts (default [] second)
             /\ awaiting s' = awaiting s)
    /\ (forall (s : State) (trace : list Event),
           (forall u, In u (awaiting s) -> Uri_toString u <> Uri_toString uri) ->
           (forall u, In (Saved u) trace -> Uri_toString u <> Uri_toString uri) ->
           List.filter (in_document uri)
                       (symbolItems (run shouldExclude isSupportedLanguage trace s))
           = List.filter (in_document uri) (symbolItems s)).
Proof.
  intros shouldExclude isSupportedLanguage uri.
  assert (Hown : forall (others added : list SymbolSearchItem) (items : list SymbolSearchItem),
             others = List.filter (fun item => negb (in_document uri item)) items ->
             List.Forall (fun item => in_document uri item = true) added ->
             List.filter (in_document uri) (others ++ added) = added).
  { intros others added items -> Hall. rewrite List.filter_app.
    rewrite (filter_filter_negb (in_document uri)). cbn [app].
    apply filter_all. now apply List.Forall_forall. }
  split; [|split].
  - intros s symbols s'. subst s'. unfold run. cbn [fold_left step].
    unfold updateDocumentSymbols.
    assert (Hnone : nth_error (awaiting s) (length (awaiting s)) = None)
      by (apply nth_error_None; lia).
    destruct (shouldExclude uri); cbn [orb]; [now rewrite Hnone|].
    destruct (isSupportedLanguage (Uri_fsPath uri)); cbn [negb]; [|now rewrite Hnone].
    clear Hnone.
    cbn [awaiting symbolItems dirtyDocSymbolUris].
    destruct (awaiting_answer (awaiting s) [] uri) as [Hcall Hrest].
    rewrite Hcall, Hrest, app_nil_r.
    match goal with
    | |- context [resume uri symbols ?st] =>
        destruct (resume_adds_answer uri symbols st)
          as (added & Hitems & Hperm & Hall & Hdirty & Hawaiting)
    end.
    cbn [symbolItems dirtyDocSymbolUris awaiting] in Hitems, Hdirty, Hawaiting.
    exists added. rewrite Hitems, Hdirty, Hawaiting.
    repeat split; try assumption; try reflexivity.
    now apply (Hown _ added (symbolItems s)).
  - intros s first second Hexclude Hsupported s'. subst s'.
    unfold run. cbn [fold_left step]. unfold updateDocumentSymbols.
    rewrite Hexclude, Hsupported. cbn [negb awaiting symbolItems dirtyDocSymbolUris].
    rewrite <- (app_assoc (awaiting s) [uri] [uri]). cbn [app].
    destruct (awaiting_answer (awaiting s) [uri] uri) as [Hcall Hrest].
    rewrite Hcall, Hrest.
    match goal with
    | |- context [resume uri first ?st] =>
        destruct (resume_adds_answer uri first st)
          as (added & Hitems & Hperm & Hall & Hdirty & Hawaiting);
        remember (resume uri first st) as s1 eqn:Hs1
    end.
    cbn [symbolItems dirtyDocSymbolUris awaiting] in Hitems, Hdirty, Hawaiting.
    rewrite Hawaiting.
    destruct (awaiting_answer (awaiting s) [] uri) as [Hcall' Hrest'].
    rewrite Hcall', Hrest', app_nil_r.
    match goal with
    | |- context [resume uri second ?st] =>
        destruct (resume_adds_answer uri second st)
          as (added' & Hitems' & Hperm' & Hall' & _ & Hawaiting')
    end.
    cbn [symbolItems dirtyDocSymbolUris awaiting] in Hitems', Hawaiting'.
    exists added, added'. rewrite Hawaiting', Hitems', Hitems, <- app_assoc.
    rewrite (filter_idempotent
               (fun item => negb (String.eqb (Uri_toString (symbol_uri item))
                                             (Uri_toString uri)))).
    assert (Hboth : List.filter (in_document uri)
                                (List.filter (fun item => negb (in_document uri item))
                                             (symbolItems s) ++ added ++ added')
                    = added ++ added').
    { apply (Hown _ (added ++ added') (symbolItems s)); [reflexivity|].
      apply Forall_app. now split. }
    repeat split; try assumption; try reflexivity.
    refine (eq_trans (f_equal (@length _) Hboth) _). rewrite length_app.
    rewrite (Permutation_length Hperm), (Permutation_length Hperm').
    now rewrite !forest_items_length.
  - intros s trace. revert s. unfold run.
    induction trace as [|e trace IH]; intros s Hwait Hsaves; [reflexivity|].
    cbn [fold_left].
    destruct (step_other_document shouldExclude isSupportedLanguage uri s e Hwait)
      as [Hitems Hwait'].
    { intros u ->. apply Hsaves. now left. }
    rewrite IH; [exact Hitems | exact Hwait' |].
    intros u Hu. apply Hsaves. now right.
Qed.

End DocumentFacts.

Section DocumentWitnesses.
Import DocumentSymbols DocumentUpdates.

(** [a.ts] is saved twice in a row and the two answers arrive afterwards:
    the class and its three descendants are in the index twice. *)
Lemma updateDocumentSymbols_replaces_document_witness :
  length (List.filter
            (in_document StaleExamples.a_ts)
            (symbolItems
               (run (V := TextVscode) SymbolExamples.nothing_excluded (fun _ => true)
                    [Saved StaleExamples.a_ts; Saved StaleExamples.a_ts;
                     Answered 0 (Some [TreeExamples.widget]);
                     Answered 0 (Some [TreeExamples.widget])]
                    {| symbolItems := StaleExamples.indexed_again StaleExamples.a_ts;
                       dirtyDocSymbolUris := ∅; awaiting := [] |})))
  = 4 + 4.
Proof.
  destruct (updateDocumentSymbols_replaces_document
              (V := TextVscode) SymbolExamples.nothing_excluded (fun _ => true)
              StaleExamples.a_ts) as (_ & Htwice & _).
  destruct (Htwice {| symbolItems := StaleExamples.indexed_again StaleExamples.a_ts;
                      dirtyDocSymbolUris := ∅; awaiting := [] |}
                   (Some [TreeExamples.widget]) (Some [TreeExamples.widget])
                   eq_refl eq_refl)
    as (added & added' & _ & _ & _ & _ & Hlength & _).
  exact Hlength.
Defined.

(** The same trace, run: the labels of the items of [a.ts] afterwards, and
    what one save with its answer leaves. *)
Lemma overlapping_saves_duplicate_symbols :
  List.map (fun item : @SymbolSearchItem TextVscode => label item)
           (symbolItems
              (run (V := TextVscode) SymbolExamples.nothing_excluded (fun _ => true)
                   [Saved StaleExamples.a_ts; Saved StaleExamples.a_ts;
                    Answered 0 (Some [TreeExamples.widget]);
                    Answered 0 (Some [TreeExamples.widget])]
                   {| symbolItems := StaleExamples.indexed_again StaleExamples.a_ts;
                      dirtyDocSymbolUris := ∅; awaiting := [] |}))
  = ["Widget"; "render"; "dispose"; "helper"; "Widget"; "render"; "dispose"; "helper"]
  /\ List.map (fun item : @SymbolSearchItem TextVscode => label item)
              (symbolItems
                 (run (V := TextVscode) SymbolExamples.nothing_excluded (fun _ => true)
                      [Saved StaleExamples.a_ts; Answered 0 (Some [TreeExamples.widget])]
                      {| symbolItems := StaleExamples.indexed_again StaleExamples.a_ts;
                         dirtyDocSymbolUris := ∅; awaiting := [] |}))
     = ["Widget"; "render"; "dispose"; "helper"].
Proof. split; vm_compute; reflexivity. Qed.

End DocumentWitnesses.

Section IndexDocumentFacts.
Context {V : Vscode}.
Import DocumentSymbols.

(** What a file contributes to the index when it is indexed: one item for
    every symbol that the editor reports for it, nested ones included, all
    of them items of that file; nothing when the query fails or reports no
    symbol. *)
Theorem indexDocument_contributes_its_symbols :
  forall (executeDocumentSymbolProvider : Uri -> option (list DocumentSymbol)) (uri : Uri),
    indexDocument executeDocumentSymbolProvider uri
    ≡ₚ forest_items uri "" (default [] (executeDocumentSymbolProvider uri))
    /\ List.Forall (fun item => in_document uri item = true)
                   (indexDocument executeDocumentSymbolProvider uri)
    /\ length (indexDocument executeDocumentSymbolProvider uri)
       = symbolCounts (default [] (executeDocumentSymbolProvider uri)).
Proof.
  intros execute uri.
  assert (Hperm : indexDocument execute uri
                  ≡ₚ forest_items uri "" (default [] (execute uri))).
  { unfold indexDocument. destruct (execute uri) as [[|symbol symbols]|]; try reflexivity.
    destruct (processSymbols_adds_forest (symbol :: symbols) uri "" [])
      as (nested & Hrun & Hperm).
    rewrite Hrun. exact Hperm. }
  split; [exact Hperm|]. split.
  - eapply Permutation_Forall; [symmetry; exact Hperm|].
    apply forest_items_Forall. intros container s. unfold in_document. cbn.
    apply String.eqb_refl.
  - rewrite (Permutation_length Hperm). apply forest_items_length.
Qed.

End IndexDocumentFacts.

Section FullRefreshFacts.
Context {V : Vscode}.
Import DocumentSymbols.

(** The loop adds to the items it is given, whatever they are. *)
Lemma processSymbols_loop_base (uri : Uri) (fuel : nat) (stack : list StackEntry)
      (symbolItems : list SymbolSearchItem) :
  processSymbols_loop fuel uri stack symbolItems
  = option_map (app symbolItems) (processSymbols_loop fuel uri stack []).
Proof.
  revert stack symbolItems. induction fuel as [|fuel IH]; intros stack symbolItems;
    [reflexivity|].
  destruct stack as [|[symbols container] stack].
  - cbn. now rewrite app_nil_r.
  - pose proof (processSymbols_loop_step uri fuel symbols container stack symbolItems)
      as Hleft.
    pose proof (processSymbols_loop_step uri fuel symbols container stack []) as Hright.
    cbn [app] in Hright.
    refine (eq_trans Hleft _). refine (eq_trans _ (f_equal _ (eq_sym Hright))).
    rewrite (IH _ (symbolItems ++ _)), (IH _ (List.map _ symbols)).
    destruct (processSymbols_loop fuel uri _ []) as [out|]; cbn; [|reflexivity].
    now rewrite app_assoc.
Qed.

Lemma processFileBatch_spec (shouldExclude : Uri -> bool)
      (execute : Uri -> option (list DocumentSymbol))
      (files : list Uri) (symbolItems : list SymbolSearchItem) :
  processFileBatch shouldExclude execute files symbolItems
  = symbolItems
      ++ flat_map (indexDocument execute)
                  (List.filter (fun uri => negb (shouldExclude uri)) files).
Proof.
  unfold processFileBatch. revert symbolItems.
  induction files as [|uri files IH]; intros symbolItems; cbn [fold_left List.filter].
  - cbn. now rewrite app_nil_r.
  - rewrite IH. destruct (shouldExclude uri); cbn [negb]; [reflexivity|].
    cbn [flat_map]. rewrite app_assoc. f_equal. unfold indexDocument.
    destruct (execute uri) as [[|symbol symbols]|];
      [cbn; now rewrite app_nil_r | | cbn; now rewrite app_nil_r].
    unfold processSymbols.
    rewrite (processSymbols_loop_base uri _ _ symbolItems).
    destruct (processSymbols_loop _ uri _ []) as [out|]; cbn; [reflexivity|].
    now rewrite app_nil_r.
Qed.

Lemma fullRefresh_partition (shouldExclude : Uri -> bool)
      (cachedFiles : gmap string DocumentSymbolsFileEntry)
      (currentEntries : list (Uri * number))
      (symbolItems : list SymbolSearchItem) (fromCache : nat)
      (toProcess : list (Uri * number)) :
  fold_left (fullRefresh_step shouldExclude cachedFiles) currentEntries
            (symbolItems, fromCache, toProcess)
  = (symbolItems
       ++ flat_map (fun e =>
                      match symbols_reused cachedFiles e with
                      | Some symbols =>
                          List.map DocumentSymbolProvider.deserializeSymbolItem symbols
                      | None => []
                      end) currentEntries,
     fromCache
       + length (List.filter (fun e => negb (is_none (symbols_reused cachedFiles e)))
                             currentEntries),
     toProcess
       ++ List.filter (fun e => negb (shouldExclude (fst e)))
                      (List.filter (fun e => is_none (symbols_reused cachedFiles e))
                                   currentEntries)).
Proof.
  revert symbolItems fromCache toProcess.
  induction currentEntries as [|[uri mtime] rest IH]; intros symbolItems fromCache toProcess.
  - cbn. now rewrite !app_nil_r, Nat.add_0_r.
  - cbn [fold_left].
    assert (Hstep :
              fullRefresh_step shouldExclude cachedFiles
                               (symbolItems, fromCache, toProcess) (uri, mtime)
              = match symbols_reused cachedFiles (uri, mtime) with
                | Some symbols =>
                    (symbolItems
                       ++ List.map DocumentSymbolProvider.deserializeSymbolItem symbols,
                     S fromCache, toProcess)
                | None =>
                    (symbolItems, fromCache,
                     toProcess ++ (if negb (shouldExclude uri) then [(uri, mtime)] else []))
                end).
    { unfold fullRefresh_step, symbols_reused. cbn [fst snd].
      destruct (cachedFiles !! Uri_toString uri) as [e|].
      - destruct (strict_eq (dsf_mtime e) mtime); [reflexivity|].
        destruct (shouldExclude uri); cbn; now rewrite ?app_nil_r.
      - destruct (shouldExclude uri); cbn; now rewrite ?app_nil_r. }
    rewrite Hstep. cbn [flat_map List.filter].
    destruct (symbols_reused cachedFiles (uri, mtime)) as [symbols|]; rewrite IH;
      cbn [is_none negb length List.filter fst].
    + rewrite <- app_assoc. f_equal. f_equal. lia.
    + destruct (shouldExclude uri); cbn [negb app]; now rewrite <- ?app_assoc.
Qed.

(** Forcing a refresh does not set the cache aside: when the cache is of
    the current version and workspace, [fullRefresh] serves every unchanged
    file from it and asks the editor only for the others, and ends with the
    very items that a refresh from the cache gives.  Without a cache it asks
    the editor for every file that is not excluded. *)
Theorem forced_refresh_uses_the_cache :
  forall (shouldExclude : Uri -> bool)
         (execute : Uri -> option (list DocumentSymbol))
         (storageUri : Uri) (cache : DocumentSymbolsCache) (fingerprint : string)
         (currentEntries : list (Uri * number)),
    accepted (dsc_version cache) (dsc_workspaceFingerprint cache) fingerprint ->
    fullRefresh shouldExclude execute (Some storageUri) (Some cache) fingerprint
                currentEntries []
    = snd (DocumentSymbolProvider.refreshFromCacheOrFull
             shouldExclude (indexDocument execute) (Some storageUri) (Some cache)
             fingerprint currentEntries [])
    /\ fullRefresh shouldExclude execute (Some storageUri) None fingerprint
                   currentEntries []
       = flat_map (fun e => indexDocument execute (fst e))
                  (List.filter (fun e => negb (shouldExclude (fst e))) currentEntries).
Proof.
  intros shouldExclude execute storageUri cache fingerprint currentEntries [Hv Hf].
  assert (Hfilter : forall l : list (Uri * number),
             flat_map (indexDocument execute)
                      (List.filter (fun uri => negb (shouldExclude uri))
                                   (List.map fst
                                             (List.filter
                                                (fun e => negb (shouldExclude (fst e))) l)))
             = flat_map (fun e => indexDocument execute (fst e))
                        (List.filter (fun e => negb (shouldExclude (fst e))) l)).
  { induction l as [|e l IH]; [reflexivity|]. cbn [List.filter].
    destruct (shouldExclude (fst e)) eqn:E; cbn [negb]; [exact IH|].
    cbn [List.map List.filter]. rewrite E. cbn [negb flat_map]. now rewrite IH. }
  split.
  - unfold fullRefresh, DocumentSymbolProvider.refreshFromCacheOrFull, cache_rejected.
    cbn [option_map]. rewrite Hv, Hf, String.eqb_refl. cbn [negb orb andb].
    unfold DocumentSymbolProvider.partition.
    rewrite fullRefresh_partition, document_partition_from. cbn [snd app].
    rewrite processFileBatch_spec, index_files_spec, Hfilter. reflexivity.
  - unfold fullRefresh. rewrite fullRefresh_partition. cbn [app].
    rewrite processFileBatch_spec, Hfilter.
    assert (Hnone : forall l : list (Uri * number),
               flat_map (fun e : Uri * number =>
                           match symbols_reused ∅ e with
                           | Some symbols =>
                               List.map DocumentSymbolProvider.deserializeSymbolItem symbols
                           | None => []
                           end) l = []
               /\ List.filter (fun e => is_none (symbols_reused ∅ e)) l = l).
    { induction l as [|e l [IH1 IH2]]; [now split|]. unfold symbols_reused in *.
      cbn [flat_map List.filter]. rewrite lookup_empty. cbn. now rewrite IH1, IH2. }
    destruct (Hnone currentEntries) as [-> ->]. reflexivity.
Qed.

End FullRefreshFacts.

Section FullRefreshWitnesses.
Import DocumentSymbols.

Lemma forced_refresh_uses_the_cache_witness :
  fullRefresh (V := TextVscode) SymbolExamples.nothing_excluded
              TreeExamples.reported (Some ActivityExamples.storage)
              (Some StaleExamples.document_cache) "file:///w" StaleExamples.current []
  = snd (DocumentSymbolProvider.refreshFromCacheOrFull
           SymbolExamples.nothing_excluded (indexDocument TreeExamples.reported)
           (Some ActivityExamples.storage) (Some StaleExamples.document_cache)
           "file:///w" StaleExamples.current []).
Proof.
  refine (proj1 (forced_refresh_uses_the_cache
                   (V := TextVscode) SymbolExamples.nothing_excluded
                   TreeExamples.reported ActivityExamples.storage
                   StaleExamples.document_cache "file:///w" StaleExamples.current _)).
  split; reflexivity.
Defined.

End FullRefreshWitnesses.

Section IncrementalSaveFacts.
Context {V : Vscode}.
Import DocumentSymbols.

Lemma patched_lookup (stat : Uri -> option number) (symbolItems : list SymbolSearchItem)
      (dirty : list string) (files : gmap string DocumentSymbolsFileEntry) (k : string) :
  fold_left
    (fun (files : gmap string DocumentSymbolsFileEntry) uriStr =>
       match stat (Uri_parse uriStr) with
       | Some mtime =>
           <[ uriStr := {| dsf_mtime := mtime;
                           dsf_symbols :=
                             List.map serializeSymbolItem
                                      (List.filter
                                         (fun item =>
                                            String.eqb (Uri_toString (symbol_uri item))
                                                       uriStr)
                                         symbolItems) |} ]> files
       | None => delete uriStr files
       end)
    dirty files !! k
  = if in_dec string_dec k dirty then patched_entry stat symbolItems k else files !! k.
Proof.
  revert files. induction dirty as [|u dirty IH]; intros files; [reflexivity|].
  cbn [fold_left]. rewrite IH.
  destruct (in_dec string_dec k dirty) as [Hin|Hout],
           (in_dec string_dec k (u :: dirty)) as [Hin'|Hout']; try reflexivity.
  - exfalso. apply Hout'. now right.
  - destruct Hin' as [->|Hin']; [|contradiction].
    unfold patched_entry. destruct (stat (Uri_parse k)).
    + apply lookup_insert_eq.
    + apply lookup_delete_eq.
  - assert (Hne : u <> k) by (intros ->; apply Hout'; now left).
    destruct (stat (Uri_parse u)).
    + now apply lookup_insert_ne.
    + now apply lookup_delete_ne.
Qed.

(** The incremental save patches the cache it finds: the entries of the
    documents marked dirty are replaced by their current mtime and symbols,
    or removed when the file is gone, and every other entry stays.  A
    document patched this way is served from the cache by the next refresh
    as long as its mtime stays the same. *)
Theorem flushIncrementalCacheSave_patches_dirty_documents :
  forall `{!VscodeLaws V} (storageUri : Uri) (cache : DocumentSymbolsCache)
         (files : gmap string DocumentSymbolsFileEntry) (fingerprint : string)
         (stat : Uri -> option number) (currentEntries : list (Uri * number))
         (dirty : list string) (symbolItems : list SymbolSearchItem),
    accepted (dsc_version cache) (dsc_workspaceFingerprint cache) fingerprint ->
    dsc_files cache = Some files ->
    dirty <> [] ->
    exists files',
      flushIncrementalCacheSave (Some storageUri) (Some cache) fingerprint stat
                                currentEntries dirty symbolItems
      = Some {| dsc_version := dsc_version cache;
                dsc_workspaceFingerprint := dsc_workspaceFingerprint cache;
                dsc_files := Some files' |}
      /\ (forall k, files' !! k
                    = if in_dec string_dec k dirty
                      then patched_entry stat symbolItems k
                      else files !! k)
      /\ forall (uri : Uri) (mtime : number),
          In (Uri_toString uri) dirty -> stat uri = Some mtime -> is_number mtime ->
          symbols_reused files' (uri, mtime)
          = Some (List.map serializeSymbolItem
                           (List.filter (in_document uri) symbolItems)).
Proof.
  intros Laws storageUri cache files fingerprint stat currentEntries dirty symbolItems
         [Hv Hf] Hfiles Hdirty.
  destruct dirty as [|u dirty]; [contradiction|].
  unfold flushIncrementalCacheSave. rewrite Hfiles, Hv, Hf, String.eqb_refl.
  cbn [negb orb]. eexists. split; [reflexivity|].
  split; [intros k; apply patched_lookup|].
  intros uri mtime Hin Hstat Hnum. unfold symbols_reused. cbn [fst snd].
  rewrite patched_lookup.
  destruct (in_dec string_dec (Uri_toString uri) (u :: dirty)) as [_|Hout];
    [|contradiction].
  unfold patched_entry. rewrite Uri_parse_toString, Hstat. cbn [dsf_mtime dsf_symbols].
  now rewrite strict_eq_refl.
Qed.

End IncrementalSaveFacts.

Section IncrementalSaveWitnesses.
Import DocumentSymbols.

Lemma flushIncrementalCacheSave_patches_dirty_documents_witness :
  exists files',
    flushIncrementalCacheSave
      (V := TextVscode) (Some ActivityExamples.storage) (Some StaleExamples.document_cache)
      "file:///w" FileExamples.mtimes StaleExamples.current
      [Uri_toString StaleExamples.b_ts] (StaleExamples.indexed_again StaleExamples.b_ts)
    = Some {| dsc_version := dsc_version StaleExamples.document_cache;
              dsc_workspaceFingerprint :=
                dsc_workspaceFingerprint StaleExamples.document_cache;
              dsc_files := Some files' |}
    /\ symbols_reused files' (StaleExamples.b_ts, of_Z 250)
       = Some (List.map serializeSymbolItem
                        (List.filter (in_document StaleExamples.b_ts)
                                     (StaleExamples.indexed_again StaleExamples.b_ts))).
Proof.
  destruct (@flushIncrementalCacheSave_patches_dirty_documents
              TextVscode TextVscode_laws ActivityExamples.storage
              StaleExamples.document_cache _ "file:///w" FileExamples.mtimes
              StaleExamples.current [Uri_toString StaleExamples.b_ts]
              (StaleExamples.indexed_again StaleExamples.b_ts)
              (conj eq_refl eq_refl) eq_refl)
    as (files' & Hflush & _ & Hreused).
  - discriminate.
  - exists files'. split; [exact Hflush|].
    apply Hreused; [now left | reflexivity | discriminate].
Defined.

End IncrementalSaveWitnesses.
(** ** The file index *)

Section GroupingFacts.
Context {V : Vscode}.
Import FileSearchProvider.

Lemma group_push_keys (m : list (nat * list Uri)) (k : nat) (uri : Uri) :
  List.map fst (group_push m k uri)
  = if in_dec Nat.eq_dec k (List.map fst m) then List.map fst m
    else List.map fst m ++ [k].
Proof.
  induction m as [|[k' l] m IH]; cbn [group_push List.map fst].
  - destruct (in_dec Nat.eq_dec k []) as [[]|_]. reflexivity.
  - destruct (Nat.eqb_spec k' k) as [->|Hne]; cbn [List.map fst].
    + destruct (in_dec Nat.eq_dec k (k :: List.map fst m)) as [_|Hout];
        [reflexivity | exfalso; apply Hout; now left].
    + rewrite IH.
      destruct (in_dec Nat.eq_dec k (List.map fst m)) as [Hin|Hout],
               (in_dec Nat.eq_dec k (k' :: List.map fst m)) as [Hin'|Hout'];
        try reflexivity.
      * exfalso. apply Hout'. now right.
      * exfalso. destruct Hin' as [Heq|Hin']; [now apply Hne | now apply Hout].
Qed.

Lemma group_push_NoDup (m : list (nat * list Uri)) (k : nat) (uri : Uri) :
  List.NoDup (List.map fst m) -> List.NoDup (List.map fst (group_push m k uri)).
Proof.
  intros Hnd. rewrite group_push_keys.
  destruct (in_dec Nat.eq_dec k (List.map fst m)) as [Hin|Hout]; [assumption|].
  apply List.NoDup_app; [assumption | constructor; [intros [] | constructor] |].
  intros x Hx [<- | []]. contradiction.
Qed.

(** The groups after a push: the group of [k] has [uri] added at its end,
    the other groups are as they were. *)
Lemma group_push_In (m : list (nat * list Uri)) (k : nat) (uri : Uri)
      (j : nat) (l : list Uri) :
  List.NoDup (List.map fst m) ->
  (In (j, l) (group_push m k uri)
   <-> (j <> k /\ In (j, l) m)
       \/ (j = k /\ ((exists l0, In (k, l0) m /\ l = l0 ++ [uri])
                     \/ (~ In k (List.map fst m) /\ l = [uri])))).
Proof.
  induction m as [|[k' l'] m IH]; intros Hnd; cbn [group_push List.map fst].
  - cbn. split.
    + intros [[= -> ->] | []]. right. split; [reflexivity|]. right. now split.
    + intros [[_ []] | [-> [(l0 & [] & _) | [_ ->]]]]. now left.
  - cbn in Hnd. apply List.NoDup_cons_iff in Hnd as [Hout Hnd].
    destruct (Nat.eqb_spec k' k) as [->|Hne].
    + split.
      * intros [[= <- <-] | Hin].
        -- right. split; [reflexivity|]. left. exists l'. split; [now left | reflexivity].
        -- left. split; [|now right]. intros ->. apply Hout.
           apply in_map_iff. now exists (k, l).
      * intros [[Hj [[= -> _] | Hin]] | [-> [(l0 & [[= ->] | Hin] & ->) | [Hno _]]]].
        -- contradiction.
        -- now right.
        -- now left.
        -- exfalso. apply Hout. apply in_map_iff. now exists (k, l0).
        -- exfalso. apply Hno. now left.
    + cbn [In]. rewrite (IH Hnd). split.
      * intros [[= <- <-] | [[Hj Hin] | [-> Hk]]].
        -- left. split; [assumption | now left].
        -- left. split; [assumption | now right].
        -- right. split; [reflexivity|].
           destruct Hk as [(l0 & Hin & ->) | [Hno ->]].
           ++ left. exists l0. split; [now right | reflexivity].
           ++ right. split; [|reflexivity]. intros [Heq | Hin]; [now apply Hne | now apply Hno].
      * intros [[Hj [[= <- <-] | Hin]] | [-> Hk]].
        -- now left.
        -- right. left. now split.
        -- right. right. split; [reflexivity|].
           destruct Hk as [(l0 & [[= Heq _] | Hin] & ->) | [Hno ->]].
           ++ now contradiction Hne.
           ++ left. now exists l0.
           ++ right. split; [|reflexivity]. intros Hin. apply Hno. now right.
Qed.

Lemma filter_snoc {A : Type} (p : A -> bool) (l : list A) (x : A) :
  List.filter p (l ++ [x]) = List.filter p l ++ (if p x then [x] else []).
Proof. rewrite List.filter_app. cbn. now destruct (p x). Qed.

(** The groups hold, for every folder that has a file, the files of the
    folder in their order. *)
Lemma groups_from (workspaceFolders : list WorkspaceFolder) (uris seen : list Uri)
      (m : list (nat * list Uri)) :
  List.NoDup (List.map fst m) ->
  (forall k l, In (k, l) m
               <-> l <> [] /\ l = List.filter (in_folder workspaceFolders k) seen) ->
  let groups :=
    fold_left (fun m uri =>
                 match find_folder workspaceFolders uri 0 with
                 | Some k => group_push m k uri
                 | None => m
                 end) uris m in
  List.NoDup (List.map fst groups)
  /\ forall k l, In (k, l) groups
                 <-> l <> [] /\ l = List.filter (in_folder workspaceFolders k) (seen ++ uris).
Proof.
  revert seen m. induction uris as [|uri uris IH]; intros seen m Hnd Hm; cbn [fold_left].
  - rewrite app_nil_r. now split.
  - replace (seen ++ uri :: uris) with ((seen ++ [uri]) ++ uris)
      by (now rewrite <- app_assoc).
    apply IH.
    + destruct (find_folder workspaceFolders uri 0); [now apply group_push_NoDup | assumption].
    + intros k l. rewrite filter_snoc. unfold in_folder at 2, folder_of.
      destruct (find_folder workspaceFolders uri 0) as [k0|] eqn:Hfind.
      * rewrite (group_push_In m k0 uri k l Hnd).
        destruct (Nat.eqb_spec k0 k) as [->|Hne].
        -- split.
           ++ intros [[Hne _] | [_ [(l0 & Hin & ->) | [Hno ->]]]]; [contradiction| |].
              ** apply Hm in Hin as [_ <-]. split; [|reflexivity]. now destruct l0.
              ** split; [discriminate|].
                 destruct (List.filter (in_folder workspaceFolders k) seen) as [|x l0] eqn:E;
                   [reflexivity|].
                 exfalso. apply Hno. apply in_map_iff. exists (k, x :: l0).
                 split; [reflexivity|]. apply Hm. split; [discriminate | now rewrite E].
           ++ intros [_ ->]. right. split; [reflexivity|].
              destruct (List.filter (in_folder workspaceFolders k) seen) as [|x l0] eqn:E.
              ** right. split; [|reflexivity]. intros Hin.
                 apply in_map_iff in Hin as ([k' l'] & Hk & Hin). cbn in Hk. subst k'.
                 apply Hm in Hin as [Hnil Hl]. rewrite E in Hl. contradiction.
              ** left. exists (x :: l0). split; [|reflexivity]. apply Hm.
                 split; [discriminate | now rewrite E].
        -- rewrite app_nil_r. rewrite <- Hm. split.
           ++ intros [[_ Hin] | [Heq _]]; [assumption | now contradiction Hne].
           ++ intros Hin. left. split; [now apply not_eq_sym | assumption].
      * rewrite app_nil_r. apply Hm.
Qed.

Lemma find_folder_first (workspaceFolders : list WorkspaceFolder) (uri : Uri)
      (k0 k : nat) :
  find_folder workspaceFolders uri k0 = Some k ->
  exists folder,
    k0 <= k /\ nth_error workspaceFolders (k - k0) = Some folder
    /\ JsString.startsWith (Uri_toString uri) (Uri_toString (folder_uri folder)) = true
    /\ forall j other, j < k - k0 -> nth_error workspaceFolders j = Some other ->
                       JsString.startsWith (Uri_toString uri)
                                           (Uri_toString (folder_uri other)) = false.
Proof.
  revert k0. induction workspaceFolders as [|f fs IH]; intros k0; cbn; [discriminate|].
  destruct (JsString.startsWith (Uri_toString uri) (Uri_toString (folder_uri f))) eqn:E.
  - intros [= <-]. exists f. rewrite Nat.sub_diag.
    repeat split; try assumption; try lia; intros j other Hj; lia.
  - intros Hfind. destruct (IH (S k0) Hfind) as (folder & Hle & Hnth & Hstart & Hfirst).
    exists folder. replace (k - k0) with (S (k - S k0)) by lia. cbn.
    repeat split; try assumption; try lia.
    intros [|j] other Hj Hother; cbn in Hother.
    + now injection Hother as <-.
    + apply (Hfirst j other); [lia | assumption].
Qed.

Lemma groupUrisByFolder_groups (workspaceFolders : list WorkspaceFolder)
      (uris : list Uri) :
  List.NoDup (List.map fst (groupUrisByFolder workspaceFolders uris))
  /\ forall k l, In (k, l) (groupUrisByFolder workspaceFolders uris)
                 <-> l <> [] /\ l = List.filter (in_folder workspaceFolders k) uris.
Proof.
  apply (groups_from workspaceFolders uris [] []).
  - constructor.
  - intros k l. cbn. split; [intros [] | intros [Hl ->]; now contradiction Hl].
Qed.

(** [groupUrisByFolder] puts every file under the first workspace folder
    whose printed uri is a prefix of the file's, and drops the files that
    are under none: there is one group for each folder that has a file, and
    it lists the files of the folder in the order they came. *)
Theorem groupUrisByFolder_partitions :
  forall (workspaceFolders : list WorkspaceFolder) (uris : list Uri),
    let groups := groupUrisByFolder workspaceFolders uris in
    List.NoDup (List.map fst groups)
    /\ (forall k l, In (k, l) groups
                    <-> l <> [] /\ l = List.filter (in_folder workspaceFolders k) uris)
    /\ (forall uri k,
           folder_of workspaceFolders uri = Some k ->
           exists folder,
             nth_error workspaceFolders k = Some folder
             /\ JsString.startsWith (Uri_toString uri) (Uri_toString (folder_uri folder))
                = true
             /\ forall j other,
                 j < k -> nth_error workspaceFolders j = Some other ->
                 JsString.startsWith (Uri_toString uri) (Uri_toString (folder_uri other))
                 = false).
Proof.
  intros workspaceFolders uris groups.
  destruct (groupUrisByFolder_groups workspaceFolders uris) as [Hnd Hgroups].
  split; [exact Hnd|]. split; [exact Hgroups|].
  intros uri k Hk. destruct (find_folder_first _ _ _ _ Hk)
    as (folder & _ & Hnth & Hstart & Hfirst).
  rewrite Nat.sub_0_r in *. exists folder. repeat split; try assumption.
Qed.

End GroupingFacts.

Section FileRefreshFacts.
Context {V : Vscode}.
Import FileSearchProvider.

Lemma fold_insert_In {A : Type} (entries : list (string * A)) (m : gmap string A)
      (k : string) (v : A) :
  fold_left (fun m e => <[ fst e := snd e ]> m) entries m !! k = Some v ->
  In (k, v) entries \/ m !! k = Some v.
Proof.
  revert m. induction entries as [|[k' v'] entries IH]; intros m Hlook; [now right|].
  cbn [fold_left fst snd] in Hlook. apply IH in Hlook as [Hin | Hlook]; [left; now right|].
  destruct (string_dec k' k) as [->|Hne].
  - rewrite lookup_insert_eq in Hlook. injection Hlook as ->. left. now left.
  - rewrite lookup_insert_ne in Hlook by assumption. now right.
Qed.

Lemma Map_of_entries_In {A : Type} (entries : list (string * A)) (k : string) (v : A) :
  Map_of_entries entries !! k = Some v -> In (k, v) entries.
Proof.
  intros Hlook. apply fold_insert_In in Hlook as [Hin | Hlook]; [assumption|].
  rewrite lookup_empty in Hlook. discriminate.
Qed.

Lemma listed_mtime_number (currentEntries : list (Uri * number)) (item : FileSearchItem) :
  List.Forall (fun e => is_number (snd e)) currentEntries ->
  is_number (listed_mtime currentEntries item).
Proof.
  intros Hnum. unfold listed_mtime.
  destruct (Map_of_entries _ !! Uri_toString (file_uri item)) as [v|] eqn:E; cbn.
  - apply Map_of_entries_In, in_map_iff in E as (e & [= _ <-] & He).
    rewrite List.Forall_forall in Hnum. now apply Hnum.
  - discriminate.
Qed.

(** The items after the batches of the groups have been processed. *)
Lemma processed_batches_In (workspaceFolders : list WorkspaceFolder)
      (byFolder : list (nat * list Uri)) (items : list FileSearchItem)
      (x : FileSearchItem) :
  In x (fold_left (fun items g =>
                     match nth_error workspaceFolders (fst g) with
                     | Some folder => processFileBatch (snd g) folder items
                     | None => items
                     end) byFolder items)
  <-> In x items
      \/ exists k l folder uri,
          In (k, l) byFolder /\ nth_error workspaceFolders k = Some folder
          /\ In uri l /\ x = fileItemOf uri folder.
Proof.
  revert items. induction byFolder as [|[k l] byFolder IH]; intros items; cbn [fold_left].
  - split; [now left | intros [H | (? & ? & ? & ? & [] & _)]; exact H].
  - rewrite IH. cbn [fst snd]. split.
    + intros [Hx | (k' & l' & folder & uri & Hin & Hnth & Huri & Heq)].
      * destruct (nth_error workspaceFolders k) as [folder|] eqn:Hnth; [|now left].
        unfold processFileBatch in Hx. apply in_app_or in Hx as [Hx | Hx]; [now left|].
        apply in_map_iff in Hx as (uri & Heq & Huri).
        right. exists k, l, folder, uri. repeat split; try assumption; [now left | now symmetry].
      * right. exists k', l', folder, uri. repeat split; try assumption. now right.
    + intros [Hx | (k' & l' & folder & uri & [Hhead | Hin] & Hnth & Huri & Heq)].
      * left. destruct (nth_error workspaceFolders k); [|assumption].
        unfold processFileBatch. apply in_or_app. now left.
      * injection Hhead as <- <-. left. rewrite Hnth. unfold processFileBatch.
        apply in_or_app. right. apply in_map_iff. exists uri. now split.
      * right. exists k', l', folder, uri. now repeat split.
Qed.

(** A refresh from the cache lists every current file once it is done: with
    its cached item if the cache holds one written at the file's current
    mtime, with a new item under its workspace folder otherwise, and not at
    all if it lies under no workspace folder; the list is in the order of
    the mtimes, newest first. *)
Theorem file_refresh_lists_current_files :
  forall (storageUri : Uri) (cache : FileIndexCache) (fingerprint : string)
         (workspaceFolders : list WorkspaceFolder)
         (currentEntries : list (Uri * number))
         (fileItems result : list FileSearchItem),
    List.Forall (fun e => is_number (snd e)) currentEntries ->
    refreshFromCacheOrFull (Some storageUri) (Some cache) fingerprint workspaceFolders
                           currentEntries fileItems
    = (true, result) ->
    StronglySorted (fun a b => at_most (listed_mtime currentEntries b)
                                       (listed_mtime currentEntries a)) result
    /\ forall x,
        In x result
        <-> (exists e serialized,
                In e currentEntries /\ file_reused cache e = Some serialized
                /\ x = deserializeFileItem serialized)
            \/ (exists e k folder,
                   In e currentEntries /\ file_reused cache e = None
                   /\ folder_of workspaceFolders (fst e) = Some k
                   /\ nth_error workspaceFolders k = Some folder
                   /\ x = fileItemOf (fst e) folder).
Proof.
  intros storageUri cache fingerprint workspaceFolders currentEntries fileItems result
         Hnum Hrefresh.
  unfold refreshFromCacheOrFull in Hrefresh.
  destruct (cache_rejected _ fingerprint); [discriminate|].
  rewrite file_partition_spec in Hrefresh. injection Hrefresh as <-.
  split.
  - apply (Array_sort_descending (listed_mtime currentEntries)).
    apply List.Forall_forall. intros y _. now apply listed_mtime_number.
  - intros x. rewrite Array_sort_In, processed_batches_In.
    destruct (groupUrisByFolder_groups
                workspaceFolders
                (List.map fst (List.filter (fun e => is_none (file_reused cache e))
                                           currentEntries)))
      as [_ Hgroups].
    split.
    + intros [Hx | (k & l & folder & uri & Hin & Hnth & Huri & Heq)].
      * left. apply list_elem_of_In, list_elem_of_omap in Hx as (e & He & Hx).
        destruct (file_reused cache e) as [serialized|] eqn:E; [|discriminate].
        injection Hx as Hx. exists e, serialized. repeat split; try assumption.
        -- now apply list_elem_of_In.
        -- now symmetry.
      * right. apply Hgroups in Hin as [_ Hl]. rewrite Hl in Huri.
        apply filter_In in Huri as [Huri Hk].
        apply in_map_iff in Huri as (e & Hfst & He). apply filter_In in He as [He Hnone].
        subst uri. exists e, k, folder. repeat split; try assumption.
        -- now destruct (file_reused cache e).
        -- unfold in_folder in Hk. destruct (folder_of workspaceFolders (fst e)) as [j|];
             [|discriminate]. apply Nat.eqb_eq in Hk. now subst j.
    + intros [(e & serialized & He & Hreused & Heq)
             | (e & k & folder & He & Hnone & Hk & Hnth & Heq)].
      * left. apply list_elem_of_In, list_elem_of_omap. exists e.
        split; [now apply list_elem_of_In | now rewrite Hreused, Heq].
      * right.
        assert (Huri : In (fst e)
                          (List.filter (in_folder workspaceFolders k)
                                       (List.map fst
                                          (List.filter
                                             (fun e => is_none (file_reused cache e))
                                             currentEntries)))).
        { apply filter_In. split.
          - apply in_map. apply filter_In. split; [assumption | now rewrite Hnone].
          - unfold in_folder. rewrite Hk. apply Nat.eqb_refl. }
        exists k, (List.filter (in_folder workspaceFolders k)
                               (List.map fst
                                  (List.filter (fun e => is_none (file_reused cache e))
                                               currentEntries))),
               folder, (fst e).
        repeat split; try assumption.
        apply Hgroups. split; [|reflexivity]. intros Hnil. rewrite Hnil in Huri. contradiction.
Qed.

End FileRefreshFacts.

Section FileRestoreFacts.
Context {V : Vscode}.
Import FileSearchProvider.

Lemma saved_file_reused (storageUri : Uri) (fingerprint : string)
      (stat : Uri -> option number) (fileItems : list FileSearchItem)
      (payload : FileIndexCache) (item : FileSearchItem) :
  List.NoDup (List.map (fun item => Uri_toString (file_uri item)) fileItems) ->
  is_number (default (of_Z 0) (stat (file_uri item))) ->
  In item fileItems ->
  FileIndex.saveCache (Some storageUri) fingerprint stat fileItems = Some payload ->
  file_reused payload (file_uri item, default (of_Z 0) (stat (file_uri item)))
  = Some (serializeFileItem item).
Proof.
  intros Hnd Hnum Hin [= <-]. unfold file_reused. cbn [fic_manifest fic_items fst snd].
  rewrite (manifest_unchanged
             _ {| manifest_uri := Uri_toString (file_uri item);
                  manifest_mtime := default (of_Z 0) (stat (file_uri item)) |}).
  - apply Map_of_entries_lookup.
    + now rewrite !map_map.
    + apply in_map_iff. exists (serializeFileItem item). split; [reflexivity|].
      now apply in_map.
  - now rewrite map_map.
  - assumption.
  - apply in_map_iff. now exists item.
Qed.

(** After [saveCache], a refresh that finds the same files with the same
    mtimes takes every item from the cache and builds none: the file items
    are the restored ones, sorted by mtime. *)
Theorem file_index_restored :
  forall (storageUri : Uri) (fingerprint : string)
         (workspaceFolders : list WorkspaceFolder)
         (stat : Uri -> option number) (fileItems : list FileSearchItem)
         (payload : FileIndexCache),
    List.NoDup (List.map (fun item => Uri_toString (file_uri item)) fileItems) ->
    List.Forall (fun item => is_number (default (of_Z 0) (stat (file_uri item)))) fileItems ->
    FileIndex.saveCache (Some storageUri) fingerprint stat fileItems = Some payload ->
    let currentEntries :=
      List.map (fun item => (file_uri item, default (of_Z 0) (stat (file_uri item))))
               fileItems in
    refreshFromCacheOrFull (Some storageUri) (Some payload) fingerprint workspaceFolders
                           currentEntries []
    = (true,
       SearchService.Array_sort
         (compareByMtime
            (Map_of_entries (List.map (fun e => (Uri_toString (fst e), snd e))
                                      currentEntries)))
         (List.map (fun item => deserializeFileItem (serializeFileItem item)) fileItems)).
Proof.
  intros storageUri fingerprint workspaceFolders stat fileItems payload Hnd Hnum Hsave
         currentEntries.
  assert (Hreused : forall item, In item fileItems ->
             file_reused payload (file_uri item, default (of_Z 0) (stat (file_uri item)))
             = Some (serializeFileItem item)).
  { intros item Hitem. apply (saved_file_reused storageUri fingerprint stat fileItems);
      try assumption. rewrite List.Forall_forall in Hnum. now apply Hnum. }
  unfold refreshFromCacheOrFull.
  assert (Haccepted : cache_rejected
                        (option_map (fun c => (fic_version c, fic_workspaceFingerprint c))
                                    (Some payload)) fingerprint = false).
  { injection Hsave as <-. unfold cache_rejected. cbn. now rewrite String.eqb_refl. }
  rewrite Haccepted, file_partition_spec.
  assert (Hnone : List.filter (fun e => is_none (file_reused payload e)) currentEntries = []).
  { apply filter_none. intros e He. subst currentEntries.
    apply in_map_iff in He as (item & <- & Hitem). now rewrite (Hreused item Hitem). }
  rewrite Hnone. cbn [List.map groupUrisByFolder fold_left]. f_equal. f_equal.
  subst currentEntries. clear Hnone Haccepted Hsave Hnd Hnum.
  induction fileItems as [|item fileItems IH]; [reflexivity|].
  cbn [List.map omap list_omap]. rewrite (Hreused item) by (now left). cbn [option_map].
  f_equal. apply IH. intros other Hother. apply Hreused. now right.
Qed.

End FileRestoreFacts.

Section FileWitnesses.
Import FileSearchProvider.

Lemma file_refresh_lists_current_files_witness :
  StronglySorted
    (fun a b => at_most (listed_mtime StaleExamples.current b)
                        (listed_mtime StaleExamples.current a))
    (snd (refreshFromCacheOrFull
            (V := TextVscode) (Some ActivityExamples.storage)
            (Some StaleExamples.file_cache) "file:///w" [FileExamples.w]
            StaleExamples.current [])).
Proof.
  refine (proj1 (file_refresh_lists_current_files
                   (V := TextVscode) ActivityExamples.storage StaleExamples.file_cache
                   "file:///w" [FileExamples.w] StaleExamples.current [] _ _ _)).
  - repeat constructor; discriminate.
  - vm_compute. reflexivity.
Defined.

Lemma file_index_restored_witness :
  fst (refreshFromCacheOrFull
         (V := TextVscode) (Some ActivityExamples.storage)
         (FileIndex.saveCache (Some ActivityExamples.storage) ActivityExamples.workspace
                              FileExamples.mtimes FileExamples.indexed)
         ActivityExamples.workspace [FileExamples.w]
         (List.map (fun item => (file_uri item,
                                 default (of_Z 0) (FileExamples.mtimes (file_uri item))))
                   FileExamples.indexed)
         [])
  = true.
Proof.
  refine (f_equal fst
                  (file_index_restored
                     (V := TextVscode) ActivityExamples.storage ActivityExamples.workspace
                     [FileExamples.w] FileExamples.mtimes FileExamples.indexed _ _ _
                     eq_refl)).
  - cbn. constructor; [intros [H | []]; discriminate|].
    constructor; [intros [] | constructor].
  - repeat constructor; discriminate.
Defined.

End FileWitnesses.
(** ** The workspace fingerprint *)

Section FingerprintFacts.

Lemma leb_trans (a b c : string) :
  String.leb a b = true -> String.leb b c = true -> String.leb a c = true.
Proof.
  unfold String.leb.
  destruct (String.compare a b) eqn:Hab; [| |discriminate]; intros _;
    destruct (String.compare b c) eqn:Hbc; try discriminate; intros _.
  - apply String.compare_eq_iff in Hab. subst a. now rewrite Hbc.
  - apply String.compare_eq_iff in Hab. subst a. now rewrite Hbc.
  - apply String.compare_eq_iff in Hbc. subst c. now rewrite Hab.
  - apply OrderedTypeEx.String_as_OT.cmp_lt in Hab, Hbc.
    pose proof (OrderedTypeEx.String_as_OT.lt_trans _ _ _ Hab Hbc) as Hac.
    apply OrderedTypeEx.String_as_OT.cmp_lt in Hac.
    unfold OrderedTypeEx.String_as_OT.cmp in Hac. now rewrite Hac.
Qed.

Lemma defaultCompare_positive (a b : string) :
  is_positive (defaultCompare a b)
  = match String.compare a b with Gt => true | _ => false end.
Proof. unfold defaultCompare. now destruct (String.compare a b). Qed.

Lemma sort_insert_leb (x : string) (l : list string) :
  StronglySorted (fun a b => String.leb a b = true) l ->
  StronglySorted (fun a b => String.leb a b = true)
                 (SearchService.sort_insert defaultCompare x l).
Proof.
  intros Hs. induction Hs as [|y l Hs IH Hy]; cbn.
  - repeat constructor.
  - rewrite defaultCompare_positive. destruct (String.compare x y) eqn:E.
    + constructor; [now constructor|]. constructor; [unfold String.leb; now rewrite E|].
      apply String.compare_eq_iff in E. now subst.
    + assert (Hxy : String.leb x y = true) by (unfold String.leb; now rewrite E).
      constructor; [now constructor|]. constructor; [assumption|].
      apply List.Forall_forall. intros z Hz. rewrite List.Forall_forall in Hy.
      apply (leb_trans x y z); [assumption | now apply Hy].
    + constructor; [assumption|]. apply List.Forall_forall. intros z Hz.
      apply sort_insert_In in Hz as [-> | Hz].
      * unfold String.leb. rewrite String.compare_antisym, E. reflexivity.
      * rewrite List.Forall_forall in Hy. now apply Hy.
Qed.

Lemma Array_sort_leb (l : list string) :
  StronglySorted (fun a b => String.leb a b = true)
                 (SearchService.Array_sort defaultCompare l).
Proof.
  unfold SearchService.Array_sort. induction l as [|x l IH]; cbn.
  - constructor.
  - now apply sort_insert_leb.
Qed.

(** The fingerprint of a workspace does not depend on the order in which
    the editor lists its folders. *)
Theorem getWorkspaceFingerprint_order_independent :
  forall (uris uris' : list string),
    uris ≡ₚ uris' ->
    getWorkspaceFingerprint (Some uris) = getWorkspaceFingerprint (Some uris').
Proof.
  intros uris uris' Hperm.
  assert (Hsort : SearchService.Array_sort defaultCompare uris
                  = SearchService.Array_sort defaultCompare uris').
  { apply (stdpp.sorting.StronglySorted_unique_strong
             (fun a b => String.leb a b = true)).
    - intros a b _ _ Hab Hba. now apply String.leb_antisym.
    - apply Array_sort_leb.
    - apply Array_sort_leb.
    - now rewrite !Array_sort_Permutation. }
  unfold getWorkspaceFingerprint.
  destruct uris as [|u uris], uris' as [|u' uris'].
  - reflexivity.
  - apply Permutation_nil in Hperm. discriminate.
  - symmetry in Hperm. apply Permutation_nil in Hperm. discriminate.
  - now rewrite Hsort.
Qed.

Lemma getWorkspaceFingerprint_order_independent_witness :
  getWorkspaceFingerprint (Some ["file:///w/b"; "file:///w/a"; "file:///v"])
  = getWorkspaceFingerprint (Some ["file:///v"; "file:///w/a"; "file:///w/b"]).
Proof.
  apply getWorkspaceFingerprint_order_independent.
  apply (perm_trans (l' := ["file:///w/a"; "file:///w/b"; "file:///v"]));
    [apply perm_swap|].
  apply (perm_trans (l' := ["file:///w/a"; "file:///v"; "file:///w/b"]));
    [apply perm_skip, perm_swap | apply perm_swap].
Defined.

End FingerprintFacts.
(** ** The category filters *)

Section FilterFacts.
Import SearchUI.

(** Tab and its reverse undo each other on every filter that is enabled,
    and both always land on an enabled filter; from a filter that is not
    enabled, Tab goes to the first filter, which is All. *)
Theorem filter_cycle_round_trip :
  forall (indexing : ServiceSearch.IndexingConfig) (activeFilter : FilterCategory),
    (exists next previous,
        cycleToNextFilter indexing activeFilter = Some next
        /\ cycleToPreviousFilter indexing activeFilter = Some previous
        /\ In next (getEnabledFilterOrder indexing)
        /\ In previous (getEnabledFilterOrder indexing)
        /\ if existsb (FilterCategory_eqb activeFilter) (getEnabledFilterOrder indexing)
           then cycleToPreviousFilter indexing next = Some activeFilter
                /\ cycleToNextFilter indexing previous = Some activeFilter
           else next = All).
Proof.
  intros [[] [] [] []] []; cbv; eexists _, _; intuition (reflexivity || eauto).
Qed.

End FilterFacts.

Section FilterItemFacts.
Context {V : Vscode}.
Import SearchUI.

Lemma built_type (name container : string) (kind : Z) (uri : Uri) (range reveal : Range) :
  type (built name kind container uri range reveal)
  = if (mapSymbolKindToGroup kind =? SymbolKindGroup.Class)%Z
    then SearchItemType.Class else SearchItemType.Symbol.
Proof. reflexivity. Qed.

(** A symbol fresh from a provider shows under the filter All and under
    exactly one other filter: Classes if its kind is a class, an interface,
    a struct or an enum, Symbols otherwise.  A filter shows only items of its
    type, in the order of the results, and with a limit that is not negative
    no more of them than the limit. *)
Theorem filters_show_their_type :
  forall (activeFilter : FilterCategory) (items : list SearchItem) (maxResults : Z),
    (0 <= maxResults)%Z ->
    applyCategoryFilter activeFilter items maxResults
    = firstn (Z.to_nat maxResults) (List.filter (shownUnder activeFilter) items)
    /\ length (applyCategoryFilter activeFilter items maxResults) <= Z.to_nat maxResults
    /\ List.Forall (fun item => shownUnder activeFilter item = true)
                   (applyCategoryFilter activeFilter items maxResults)
    /\ forall (name container : string) (kind : Z) (uri : Uri) (range reveal : Range),
        let symbol := built name kind container uri range reveal in
        shownUnder Classes symbol
        = (mapSymbolKindToGroup kind =? SymbolKindGroup.Class)%Z
        /\ shownUnder Symbols symbol = negb (shownUnder Classes symbol)
        /\ shownUnder Files symbol = false
        /\ shownUnder Actions symbol = false
        /\ shownUnder Text symbol = false.
Proof.
  intros activeFilter items maxResults Hmax.
  assert (Heq : applyCategoryFilter activeFilter items maxResults
                = firstn (Z.to_nat maxResults)
                         (List.filter (shownUnder activeFilter) items)).
  { unfold applyCategoryFilter. rewrite slice0_firstn by assumption.
    destruct activeFilter; try reflexivity.
    cbn [shownUnder]. now rewrite (filter_all (fun _ => true)) by reflexivity. }
  split; [exact Heq|]. split; [|split].
  - rewrite Heq, length_firstn. lia.
  - rewrite Heq. apply List.Forall_forall. intros x Hx.
    apply In_firstn, filter_In in Hx. tauto.
  - intros name container kind uri range reveal symbol. subst symbol.
    unfold shownUnder. rewrite built_type.
    destruct (mapSymbolKindToGroup kind =? SymbolKindGroup.Class)%Z; repeat split.
Qed.

End FilterItemFacts.

Section FilterWitnesses.
Import SearchUI.

Lemma filters_show_their_type_witness :
  applyCategoryFilter (V := TextVscode) Classes
                      [DedupExamples.as_method; DedupExamples.as_class; Examples.A] 5%Z
  = firstn 5 (List.filter (shownUnder Classes)
                          [DedupExamples.as_method; DedupExamples.as_class; Examples.A]).
Proof.
  refine (proj1 (filters_show_their_type
                   (V := TextVscode) Classes
                   [DedupExamples.as_method; DedupExamples.as_class; Examples.A] 5%Z _)).
  lia.
Defined.

End FilterWitnesses.

Section ActiveRowFacts.
Context {V : Vscode}.
Import SearchUI.

(** When the list is replaced, the active row is a row of the new list.  If
    some row has the id of the row that was active, it is the first such
    row: it has that id and no row above it has; otherwise, and when no row
    was active, it is the first row of the list.  No row is made active only
    when the list is empty. *)
Theorem active_row_follows_the_item :
  forall (lastActiveOriginalItem : option SearchItem) (items : list SearchItem),
    match activeAfter lastActiveOriginalItem items with
    | Some active =>
        In active items
        /\ match lastActiveOriginalItem with
           | Some last =>
               if existsb (fun qi : SearchItem => String.eqb (id qi) (id last)) items
               then id active = id last
                    /\ exists above below,
                         items = above ++ active :: below
                         /\ forall row, In row above -> id row <> id last
               else List.hd_error items = Some active
           | None => List.hd_error items = Some active
           end
    | None => items = []
    end.
Proof.
  intros lastActive items. unfold activeAfter.
  assert (Hhead : match List.hd_error items with
                  | Some active => In active items
                  | None => items = []
                  end).
  { destruct items; cbn; [reflexivity | now left]. }
  destruct lastActive as [last|].
  - destruct (List.find _ items) as [found|] eqn:Hfind.
    + pose proof (find_first _ _ _ Hfind) as (above & below & Hsplit & Hid & Habove).
      apply find_some in Hfind as [Hin _]. split; [assumption|].
      assert (Hex : existsb (fun qi : SearchItem => String.eqb (id qi) (id last)) items
                    = true) by (apply existsb_exists; now exists found).
      rewrite Hex. split; [now apply String.eqb_eq|].
      exists above, below. split; [assumption|].
      intros row Hrow. apply String.eqb_neq. now apply Habove.
    + assert (Hex : existsb (fun qi : SearchItem => String.eqb (id qi) (id last)) items
                    = false).
      { apply not_true_is_false. intros Hex. apply existsb_exists in Hex as (x & Hx & Hid).
        pose proof (find_none _ _ Hfind x Hx) as Hno. cbn in Hno. congruence. }
      rewrite Hex. destruct (List.hd_error items); [now split | assumption].
  - destruct (List.hd_error items); [now split | assumption].
Qed.

End ActiveRowFacts.

(** Two rows with one id: the upper one is made active. *)
Lemma upper_row_of_two_made_active :
  SearchUI.activeAfter (V := TextVscode) (Some DedupExamples.as_symbol)
                       [Examples.A; DedupExamples.as_class; DedupExamples.as_symbol]
  = Some DedupExamples.as_class
  /\ id (DedupExamples.as_class : @SearchItem TextVscode)
     = id (DedupExamples.as_symbol : @SearchItem TextVscode)
  /\ DedupExamples.as_class <> DedupExamples.as_symbol.
Proof. split; [|split]; [vm_compute; reflexivity | reflexivity | discriminate]. Qed.
